(** * keyboard_stats: a shallow embedding of the key-press statistics collector

    The development follows [keyboard_stats.py]: the counter table
    [key_counter], the CSV store ([load_existing_data], [save_data]), the
    periodic saver, the keyboard classifier, the monitor loop of [main] and
    the script's top-level exception handlers.

    Modelling conventions.
    - A Python [str] is a [string], the UTF-8 encoding of the text.  The
      operations that look at single characters of ASCII only (the csv
      dialect, line ends, path separators, the search for an ASCII keyword)
      work on the bytes as they work on the characters.  [int] decodes the
      text and knows the decimal digits and the white space of Unicode;
      [str.lower] knows the ASCII letters and the two characters outside
      ASCII whose lower-case forms hold an ASCII letter.
    - A Python [int] is a [Z].  Resource limits of the interpreter (the csv
      field size limit, the limit on the number of digits of an integer
      literal) and the decoding of text files are outside the model; the
      csv reader is the one of CPython 3.11 and later, for which a NUL is a
      character like any other, and the Unicode data are those of CPython
      3.11.
    - Global state ([key_counter], the file system, standard output) is
      threaded explicitly through a [state] record; a function that can
      raise returns a [completion] next to the state it leaves behind.
    - The library functions the program calls ([csv.writer], [csv.reader],
      text-mode [open], [os.path.dirname], [os.makedirs], [int], [str],
      [evdev.categorize]) are embedded next to the program with the
      behaviour of CPython's excel dialect, POSIX path handling and
      python-evdev's [KeyEvent].
    - The saver thread is modelled twice: alone, as [periodic_save] over
      the wake-ups of the thread, and beside the main thread, as [threads]
      over the turns of the two.

    The two other scripts of the repository follow in modules of their own:
    [gen_passwd] (the password generator, its random source a function from
    the number of a draw to the draw) and [print_file_contents] (the
    exclusion test, the language of the code fence and the content as it is
    written between the fences). *)

From Stdlib Require Import ZArith String Ascii List Lia Bool.
From Stdlib Require Import DecimalString DecimalZ DecimalPos.
From stdpp Require Import gmap strings list.

Open Scope string_scope.
Open Scope Z_scope.
Open Scope list_scope.

(** ** Exceptions and completions *)

Inductive exn :=
| KeyboardInterrupt
| PermissionError
| FileNotFoundError
| FileExistsError
| IsADirectoryError
| NotADirectoryError
| OSError
| ValueError
| KeyError
| CsvError
| RecursionError
| AttributeError.

(** How a statement ends: it completes, it raises, or the process is still
    inside it when the observed environment input runs out (a blocking
    [select] or [sleep] with nothing more to deliver). *)
Inductive completion :=
| Normal
| Raised (e : exn)
| Blocked.

Inductive result (A : Type) :=
| Ok (a : A)
| Raise (e : exn).
Arguments Ok {A} a.
Arguments Raise {A} e.

(** ** Python builtins used by the program *)

Module Py.

Definition chr (n : nat) : ascii := ascii_of_nat n.
Definition ord (c : ascii) : nat := nat_of_ascii c.

Definition LF : ascii := chr 10.
Definition CR : ascii := chr 13.
Definition comma : ascii := chr 44.
Definition dquote : ascii := chr 34.
Definition slash : ascii := chr 47.
Definition underscore : ascii := chr 95.

(** [str(n)] for an integer: decimal digits, a leading minus sign for
    negative numbers. *)
Definition str_int (n : Z) : string := NilEmpty.string_of_int (Z.to_int n).

(** A value that reaches [str()] in [update_key_counter]. *)
Inductive value :=
| Int (n : Z)
| Str (s : string).

Definition str (v : value) : string :=
  match v with
  | Int n => str_int n
  | Str s => s
  end.

(** A [str] is held as its UTF-8 encoding; [byte c] is one byte of it. *)
Definition byte (c : ascii) : Z := Z.of_nat (ord c).

(** The lower-case form of an ASCII character. *)
Definition lower_char (c : ascii) : ascii :=
  let n := ord c in
  if ((65 <=? n) && (n <=? 90))%nat then chr (n + 32) else c.

(** [str.lower()].  ASCII letters are mapped to their lower-case forms,
    and so are the two characters outside ASCII whose lower-case forms hold
    an ASCII letter: U+212A KELVIN SIGN (bytes E2 84 AA), which becomes k,
    and U+0130 (bytes C4 B0), which becomes i followed by U+0307 (bytes CC
    87).  The lower-case form of every other character outside ASCII holds
    no ASCII character; such a character is written as it is, so that the
    result is that of [str.lower()] in its ASCII characters and in their
    places between the others, which is all that a search for an ASCII
    text looks at. *)
Fixpoint lower (s : string) : string :=
  match s with
  | EmptyString => EmptyString
  | String c s' =>
      if byte c =? 0xE2 then
        match s' with
        | String c1 (String c2 s'') =>
            if (byte c1 =? 0x84) && (byte c2 =? 0xAA)
            then String "k" (lower s'')
            else String c (lower s')
        | _ => String c (lower s')
        end
      else if byte c =? 0xC4 then
        match s' with
        | String c1 s'' =>
            if byte c1 =? 0xB0
            then String "i" (String (chr 0xCC) (String (chr 0x87) (lower s'')))
            else String c (lower s')
        | _ => String c (lower s')
        end
      else String (lower_char c) (lower s')
  end.

(** [needle in hay] on strings. *)
Fixpoint startswith (hay needle : string) : bool :=
  match needle, hay with
  | EmptyString, _ => true
  | String _ _, EmptyString => false
  | String a n', String b h' => if Ascii.eqb a b then startswith h' n' else false
  end.

Fixpoint contains (hay needle : string) : bool :=
  startswith hay needle ||
  match hay with
  | EmptyString => false
  | String _ h' => contains h' needle
  end.

(** *** [int(s)]

    [int] first turns a text that is not ASCII into ASCII
    ([_PyUnicode_TransformDecimalAndSpaceToASCII]) and then reads the number
    from the ASCII text ([PyLong_FromString] in base 10): optional white
    space, an optional sign, decimal digits in which single underscores may
    separate digits, optional white space. *)

(** [Py_ISSPACE], the white space of [PyLong_FromString]. *)
Definition isspace (c : ascii) : bool :=
  let n := ord c in (((9 <=? n) && (n <=? 13)) || (n =? 32))%nat.

Definition isdigit (c : ascii) : bool :=
  let n := ord c in ((48 <=? n) && (n <=? 57))%nat.

Fixpoint lstrip (s : string) : string :=
  match s with
  | EmptyString => EmptyString
  | String c s' => if isspace c then lstrip s' else s
  end.

Fixpoint all_space (s : string) : bool :=
  match s with
  | EmptyString => true
  | String c s' => isspace c && all_space s'
  end.

(** The digits of a literal, scanning as [long_from_string_base] does:
    [prev] tells whether the previous character was an underscore; an
    underscore may not come first, twice in a row, or last.  Returns the
    digits read (underscores dropped) and the unread rest. *)
Fixpoint scan_digits (prev : bool) (s : string) : option (string * string) :=
  match s with
  | EmptyString => if prev then None else Some (EmptyString, EmptyString)
  | String c s' =>
      if isdigit c then
        match scan_digits false s' with
        | Some (ds, rest) => Some (String c ds, rest)
        | None => None
        end
      else if Ascii.eqb c underscore then
        if prev then None
        else match scan_digits true s' with
             | Some (ds, rest) => Some (ds, rest)
             | None => None
             end
      else if prev then None else Some (EmptyString, s)
  end.

(** The value of an unsigned literal followed by white space only. *)
Definition digits_value (s : string) : option Z :=
  match s with
  | EmptyString => None
  | String c _ =>
      if Ascii.eqb c underscore then None
      else
        match scan_digits false s with
        | Some (String d ds, rest) =>
            if all_space rest then
              match NilEmpty.uint_of_string (String d ds) with
              | Some u => Some (Z.of_uint u)
              | None => None
              end
            else None
        | _ => None
        end
  end.

(** [PyLong_FromString(s, &end, 10)] with the test that all of [s] was
    read; [None] stands for the [ValueError]. *)
Definition long_from_string (s : string) : option Z :=
  match lstrip s with
  | EmptyString => None
  | String c s' =>
      if Ascii.eqb c "+" then digits_value s'
      else if Ascii.eqb c "-" then option_map Z.opp (digits_value s')
      else digits_value (String c s')
  end.

(** [s.isascii()] *)
Fixpoint isascii (s : string) : bool :=
  match s with
  | EmptyString => true
  | String c s' => (byte c <? 0x80) && isascii s'
  end.

(** The payload of a continuation byte of UTF-8. *)
Definition continuation (c : ascii) : option Z :=
  if (0x80 <=? byte c) && (byte c <? 0xC0) then Some (byte c - 0x80) else None.

(** [Py_UNICODE_ISSPACE]: the white space of Unicode. *)
Definition unicode_isspace (ch : Z) : bool :=
  ((0x09 <=? ch) && (ch <=? 0x0d))
  || ((0x1c <=? ch) && (ch <=? 0x20))
  || (ch =? 0x85) || (ch =? 0xa0) || (ch =? 0x1680)
  || ((0x2000 <=? ch) && (ch <=? 0x200a))
  || (ch =? 0x2028) || (ch =? 0x2029) || (ch =? 0x202f) || (ch =? 0x205f)
  || (ch =? 0x3000).

(** The digit zero of every decimal digit system of Unicode 14.0, the data
    of CPython 3.11; the nine characters after a zero are the digits one to
    nine of its system. *)
Definition decimal_zeros : list Z :=
  [ 0x30; 0x660; 0x6f0; 0x7c0; 0x966; 0x9e6; 0xa66; 0xae6;
    0xb66; 0xbe6; 0xc66; 0xce6; 0xd66; 0xde6; 0xe50; 0xed0;
    0xf20; 0x1040; 0x1090; 0x17e0; 0x1810; 0x1946; 0x19d0; 0x1a80;
    0x1a90; 0x1b50; 0x1bb0; 0x1c40; 0x1c50; 0xa620; 0xa8d0; 0xa900;
    0xa9d0; 0xa9f0; 0xaa50; 0xabf0; 0xff10; 0x104a0; 0x10d30; 0x11066;
    0x110f0; 0x11136; 0x111d0; 0x112f0; 0x11450; 0x114d0; 0x11650; 0x116c0;
    0x11730; 0x118e0; 0x11950; 0x11c50; 0x11d50; 0x11da0; 0x16a60; 0x16ac0;
    0x16b50; 0x1d7ce; 0x1d7d8; 0x1d7e2; 0x1d7ec; 0x1d7f6; 0x1e140; 0x1e2f0;
    0x1e950; 0x1fbf0 ].

(** [Py_UNICODE_TODECIMAL] *)
Definition to_decimal (ch : Z) : option Z :=
  match List.find (fun zero => (zero <=? ch) && (ch <? zero + 10)) decimal_zeros with
  | Some zero => Some (ch - zero)
  | None => None
  end.

(** What [_PyUnicode_TransformDecimalAndSpaceToASCII] writes for one
    character of a text that is not ASCII: the character itself below 127, a
    space for white space, the ASCII digit for a decimal digit; [None] for
    any other character, at which the transformation writes a question mark
    and stops. *)
Definition to_ascii (ch : Z) : option ascii :=
  if ch <? 127 then Some (chr (Z.to_nat ch))
  else if unicode_isspace ch then Some " "%char
  else
    match to_decimal ch with
    | Some d => Some (chr (Z.to_nat (48 + d)))
    | None => None
    end.

Definition emit (ch : Z) (rest : option string) : option string :=
  match to_ascii ch with
  | Some a => option_map (String a) rest
  | None => Some "?"
  end.

(** [_PyUnicode_TransformDecimalAndSpaceToASCII] on the encoding of a text
    that is not ASCII, character by character; [None] when the bytes are
    not the UTF-8 encoding of a text. *)
Fixpoint transform (s : string) : option string :=
  match s with
  | EmptyString => Some EmptyString
  | String c0 s1 =>
      let b0 := byte c0 in
      if b0 <? 0x80 then emit b0 (transform s1)
      else if b0 <? 0xC2 then None
      else if b0 <? 0xE0 then
        match s1 with
        | String c1 s2 =>
            match continuation c1 with
            | Some b1 => emit ((b0 - 0xC0) * 0x40 + b1) (transform s2)
            | None => None
            end
        | _ => None
        end
      else if b0 <? 0xF0 then
        match s1 with
        | String c1 (String c2 s3) =>
            match continuation c1, continuation c2 with
            | Some b1, Some b2 =>
                let ch := (b0 - 0xE0) * 0x1000 + b1 * 0x40 + b2 in
                if (ch <? 0x800) || ((0xD800 <=? ch) && (ch <? 0xE000))
                then None
                else emit ch (transform s3)
            | _, _ => None
            end
        | _ => None
        end
      else if b0 <? 0xF5 then
        match s1 with
        | String c1 (String c2 (String c3 s4)) =>
            match continuation c1, continuation c2, continuation c3 with
            | Some b1, Some b2, Some b3 =>
                let ch :=
                  (b0 - 0xF0) * 0x40000 + b1 * 0x1000 + b2 * 0x40 + b3 in
                if (ch <? 0x10000) || (0x10FFFF <? ch) then None
                else emit ch (transform s4)
            | _, _, _ => None
            end
        | _ => None
        end
      else None
  end.

(** [int(s)]; [None] stands for the [ValueError].  An ASCII text is read
    as it is. *)
Definition int (s : string) : option Z :=
  if isascii s then long_from_string s
  else
    match transform s with
    | Some a => long_from_string a
    | None => None
    end.

End Py.

(** ** [collections.Counter]

    A [Counter] is a [dict]: keys are unique and iteration follows the order
    in which keys were first inserted, which is the order [save_data] writes
    the rows in.  The table is therefore a list of items in insertion order. *)

Definition Counter : Type := list (string * Z).

(** [k in c] and [dict.get]. *)
Fixpoint get (c : Counter) (k : string) : option Z :=
  match c with
  | [] => None
  | (k', v) :: c' => if String.eqb k' k then Some v else get c' k
  end.

(** [c[k]]: a missing key reads as 0 ([Counter.__missing__]). *)
Definition getitem (c : Counter) (k : string) : Z :=
  match get c k with
  | Some v => v
  | None => 0
  end.

(** [c[k] = v]: an existing key keeps its place, a new key goes last. *)
Fixpoint setitem (c : Counter) (k : string) (v : Z) : Counter :=
  match c with
  | [] => [(k, v)]
  | (k', v') :: c' =>
      if String.eqb k' k then (k', v) :: c' else (k', v') :: setitem c' k v
  end.

Definition dict_keys (c : Counter) : list string := map fst c.

(** ** Text files: [open(path, 'r')] translates line ends, iteration yields
    lines *)

Module io.

(** Universal newlines, the default of [open] for reading: a carriage
    return, alone or followed by a line feed, is read as one line feed. *)
Fixpoint universal_newlines (s : string) : string :=
  match s with
  | EmptyString => EmptyString
  | String c s' =>
      if Ascii.eqb c Py.CR then
        String Py.LF
          match s' with
          | EmptyString => EmptyString
          | String c' s'' =>
              if Ascii.eqb c' Py.LF then universal_newlines s''
              else universal_newlines s'
          end
      else String c (universal_newlines s')
  end.

(** Iterating a text file: each line keeps its line feed; a last line
    without one is yielded as it is. *)
Fixpoint readlines (s : string) : list string :=
  match s with
  | EmptyString => []
  | String c s' =>
      if Ascii.eqb c Py.LF then String c EmptyString :: readlines s'
      else
        match readlines s' with
        | [] => [String c EmptyString]
        | l :: ls => String c l :: ls
        end
  end.

End io.

(** ** The [csv] module, excel dialect

    delimiter comma, quotechar the double quote, doublequote, no escapechar, no
    skipinitialspace, lineterminator CR LF, QUOTE_MINIMAL, not strict. *)

Module csv.

Definition lineterminator : string := String Py.CR (String Py.LF EmptyString).

(** *** Writer *)

(** A character that forces the field into quotes ([join_append_data]). *)
Definition special (c : ascii) : bool :=
  Ascii.eqb c Py.comma || Ascii.eqb c Py.dquote ||
  Ascii.eqb c Py.CR || Ascii.eqb c Py.LF.

Fixpoint has_special (s : string) : bool :=
  match s with
  | EmptyString => false
  | String c s' => special c || has_special s'
  end.

(** The field's characters with every quotechar doubled. *)
Fixpoint field_data (s : string) : string :=
  match s with
  | EmptyString => EmptyString
  | String c s' =>
      if Ascii.eqb c Py.dquote then String c (String c (field_data s'))
      else String c (field_data s')
  end.

(** [join_append]: the text one field adds to the record under
    construction, [num_fields] fields having been written before it. *)
Definition join_append (num_fields : nat) (field : string) (quoted : bool)
  : string :=
  let quoted := quoted || has_special field in
  (if (0 <? num_fields)%nat then String Py.comma EmptyString else EmptyString)
  +:+ (if quoted
       then String Py.dquote (field_data field +:+ String Py.dquote EmptyString)
       else field).

Fixpoint join_fields (num_fields : nat) (fields : list string) : string :=
  match fields with
  | [] => EmptyString
  | f :: fs => join_append num_fields f false +:+ join_fields (S num_fields) fs
  end.

(** [writer.writerow]: every field has been passed through [str()]. *)
Definition writerow (fields : list string) : string :=
  let rec := join_fields 0 fields in
  let rec :=
    if (0 <? length fields)%nat && String.eqb rec EmptyString
    then join_append 0 EmptyString true
    else rec in
  rec +:+ lineterminator.

(** *** Reader *)

(** The states the excel dialect can reach (the three escape states need an
    escapechar). *)
Inductive ParserState :=
| START_RECORD
| START_FIELD
| IN_FIELD
| IN_QUOTED_FIELD
| QUOTE_IN_QUOTED_FIELD
| EAT_CRNL.

Record ReaderObj := mkReader {
  state : ParserState;
  field : string;          (* characters of the field being read *)
  fields : list string     (* fields of the record being read *)
}.

Definition parse_reset : ReaderObj := mkReader START_RECORD EmptyString [].

Definition set_state (self : ReaderObj) (s : ParserState) : ReaderObj :=
  mkReader s (field self) (fields self).

Definition parse_add_char (self : ReaderObj) (c : ascii) : ReaderObj :=
  mkReader (state self) (field self +:+ String c EmptyString) (fields self).

Definition parse_save_field (self : ReaderObj) : ReaderObj :=
  mkReader (state self) EmptyString (fields self ++ [field self]).

Definition is_newline (c : ascii) : bool :=
  Ascii.eqb c Py.LF || Ascii.eqb c Py.CR.

(** One step of the parser.  [None] is the end-of-line marker the reader
    feeds after the characters of each line. *)
Definition parse_process_char (self : ReaderObj) (c : option ascii)
  : result ReaderObj :=
  let start_field (self : ReaderObj) :=
    match c with
    | None => Ok (set_state (parse_save_field self) START_RECORD)
    | Some ch =>
        if is_newline ch then Ok (set_state (parse_save_field self) EAT_CRNL)
        else if Ascii.eqb ch Py.dquote then Ok (set_state self IN_QUOTED_FIELD)
        else if Ascii.eqb ch Py.comma
        then Ok (set_state (parse_save_field self) START_FIELD)
        else Ok (set_state (parse_add_char self ch) IN_FIELD)
    end in
  match state self with
  | START_RECORD =>
      match c with
      | None => Ok self
      | Some ch =>
          if is_newline ch then Ok (set_state self EAT_CRNL)
          else start_field self
      end
  | START_FIELD => start_field self
  | IN_FIELD =>
      match c with
      | None => Ok (set_state (parse_save_field self) START_RECORD)
      | Some ch =>
          if is_newline ch then Ok (set_state (parse_save_field self) EAT_CRNL)
          else if Ascii.eqb ch Py.comma
          then Ok (set_state (parse_save_field self) START_FIELD)
          else Ok (parse_add_char self ch)
      end
  | IN_QUOTED_FIELD =>
      match c with
      | None => Ok self
      | Some ch =>
          if Ascii.eqb ch Py.dquote then Ok (set_state self QUOTE_IN_QUOTED_FIELD)
          else Ok (parse_add_char self ch)
      end
  | QUOTE_IN_QUOTED_FIELD =>
      match c with
      | None => Ok (set_state (parse_save_field self) START_RECORD)
      | Some ch =>
          if Ascii.eqb ch Py.dquote
          then Ok (set_state (parse_add_char self ch) IN_QUOTED_FIELD)
          else if Ascii.eqb ch Py.comma
          then Ok (set_state (parse_save_field self) START_FIELD)
          else if is_newline ch
          then Ok (set_state (parse_save_field self) EAT_CRNL)
          else Ok (set_state (parse_add_char self ch) IN_FIELD)
      end
  | EAT_CRNL =>
      match c with
      | None => Ok (set_state self START_RECORD)
      | Some ch => if is_newline ch then Ok self else Raise CsvError
      end
  end.

(** The characters of one line, then the end-of-line marker. *)
Fixpoint feed_line (self : ReaderObj) (line : string) : result ReaderObj :=
  match line with
  | EmptyString => parse_process_char self None
  | String c line' =>
      match parse_process_char self (Some c) with
      | Ok self' => feed_line self' line'
      | Raise e => Raise e
      end
  end.

Definition state_eqb (a b : ParserState) : bool :=
  match a, b with
  | START_RECORD, START_RECORD
  | START_FIELD, START_FIELD
  | IN_FIELD, IN_FIELD
  | IN_QUOTED_FIELD, IN_QUOTED_FIELD
  | QUOTE_IN_QUOTED_FIELD, QUOTE_IN_QUOTED_FIELD
  | EAT_CRNL, EAT_CRNL => true
  | _, _ => false
  end.

(** Iterating the reader over the lines of a file ([Reader_iternext] called
    until the lines run out): lines are consumed until the parser is back at
    the start of a record, which yields a row.  When the lines run out in the
    middle of a record, what was read is yielded as the last row.  The rows
    come with the error, if any, that ends the iteration after them. *)
Fixpoint reader_from (self : ReaderObj) (lines : list string)
  : list (list string) * option exn :=
  match lines with
  | [] =>
      if negb (String.eqb (field self) EmptyString)
         || state_eqb (state self) IN_QUOTED_FIELD
      then ([fields (parse_save_field self)], None)
      else ([], None)
  | line :: lines' =>
      match feed_line self line with
      | Raise e => ([], Some e)
      | Ok self' =>
          if state_eqb (state self') START_RECORD
          then let '(rows, err) := reader_from parse_reset lines' in
               (fields self' :: rows, err)
          else reader_from self' lines'
      end
  end.

Definition reader (lines : list string) : list (list string) * option exn :=
  reader_from parse_reset lines.

End csv.

(** ** [os] and [os.path] over a small POSIX file system *)

Module os.

Inductive node :=
| RegularFile (data : string)
| Directory.

(** How the operating environment makes an attempt to write a file fail.
    [Refused e]: the file cannot be opened (access revoked, ...), and it is
    left as it was.  [Interrupted e written]: the file is opened, and so
    created or truncated, and writing, flushing or closing it then fails
    with [e] (disk full, quota exceeded, ...) when [written] characters of
    the text have reached the file. *)
Inductive write_fault :=
| Refused (e : exn)
| Interrupted (e : exn) (written : nat).

(** Nodes are stored under their resolved absolute path, a list of names
    from the root; the root itself is always a directory.  [write_faults]
    holds the verdicts of the operating environment on the coming attempts
    to write a file: [Some fault] makes the attempt fail, [None] lets it
    through, and an empty queue lets every attempt through. *)
Record filesystem := mkFs {
  nodes : gmap (list string) node;
  cwd : list string;
  write_faults : list (option write_fault)
}.

Definition node_at (fs : filesystem) (p : list string) : option node :=
  match p with
  | [] => Some Directory
  | _ => nodes fs !! p
  end.

(** *** [posixpath] *)

(** [(p[:i], p[i:])] for [i = p.rfind('/') + 1]. *)
Fixpoint rpartition (p : string) : string * string :=
  match p with
  | EmptyString => (EmptyString, EmptyString)
  | String c p' =>
      let '(head, tail) := rpartition p' in
      match head with
      | EmptyString =>
          if Ascii.eqb c Py.slash then (String c EmptyString, p')
          else (EmptyString, String c p')
      | _ => (String c head, tail)
      end
  end.

Fixpoint all_sep (s : string) : bool :=
  match s with
  | EmptyString => true
  | String c s' => Ascii.eqb c Py.slash && all_sep s'
  end.

(** [s.rstrip('/')] *)
Fixpoint rstrip_sep (s : string) : string :=
  match s with
  | EmptyString => EmptyString
  | String c s' =>
      match rstrip_sep s' with
      | EmptyString =>
          if Ascii.eqb c Py.slash then EmptyString else String c EmptyString
      | r => String c r
      end
  end.

Definition nonempty (s : string) : bool := negb (String.eqb s EmptyString).

Module path.

Definition split (p : string) : string * string :=
  let '(head, tail) := rpartition p in
  (if nonempty head && negb (all_sep head) then rstrip_sep head else head,
   tail).

Definition dirname (p : string) : string := fst (split p).

End path.

(** *** Path resolution *)

(** The names between the slashes of a path. *)
Fixpoint components (p : string) : list string :=
  match p with
  | EmptyString => [EmptyString]
  | String c p' =>
      if Ascii.eqb c Py.slash then EmptyString :: components p'
      else
        match components p' with
        | [] => [String c EmptyString]
        | x :: xs => String c x :: xs
        end
  end.

(** Walks the components from the directory [cur].  Every step is taken
    from an existing directory; the node the last step arrives at is not
    looked at (it may be missing). *)
Fixpoint walk (fs : filesystem) (cur : list string) (comps : list string)
  : result (list string) :=
  match comps with
  | [] => Ok cur
  | c :: rest =>
      match node_at fs cur with
      | Some Directory =>
          if String.eqb c EmptyString || String.eqb c "." then walk fs cur rest
          else if String.eqb c ".." then walk fs (removelast cur) rest
          else walk fs (cur ++ [c]) rest
      | Some (RegularFile _) => Raise NotADirectoryError
      | None => Raise FileNotFoundError
      end
  end.

Definition resolve (fs : filesystem) (p : string) : result (list string) :=
  match p with
  | EmptyString => Raise FileNotFoundError
  | String c _ =>
      walk fs (if Ascii.eqb c Py.slash then [] else cwd fs) (components p)
  end.

(** *** System calls *)

Definition stat (fs : filesystem) (p : string) : result node :=
  match resolve fs p with
  | Raise e => Raise e
  | Ok r =>
      match node_at fs r with
      | Some n => Ok n
      | None => Raise FileNotFoundError
      end
  end.

Definition path_exists (fs : filesystem) (p : string) : bool :=
  match stat fs p with
  | Ok _ => true
  | Raise _ => false
  end.

Definition path_isdir (fs : filesystem) (p : string) : bool :=
  match stat fs p with
  | Ok Directory => true
  | _ => false
  end.

Definition mkdir (fs : filesystem) (p : string) : result filesystem :=
  match resolve fs p with
  | Raise e => Raise e
  | Ok r =>
      match node_at fs r with
      | Some _ => Raise FileExistsError
      | None => Ok (mkFs (<[r := Directory]> (nodes fs)) (cwd fs) (write_faults fs))
      end
  end.

(** [open(p, 'r')] followed by reading the whole file. *)
Definition read_text (fs : filesystem) (p : string) : result string :=
  match resolve fs p with
  | Raise e => Raise e
  | Ok r =>
      match node_at fs r with
      | Some (RegularFile data) => Ok data
      | Some Directory => Raise IsADirectoryError
      | None => Raise FileNotFoundError
      end
  end.

(** [open(p, 'w')], writing [data] and closing: the file is created or
    truncated and then holds [data].  A pending fault refuses the file at
    [open], or lets only the first characters of [data] reach the file that
    [open] has truncated. *)
Definition write_text (fs : filesystem) (p : string) (data : string)
  : completion * filesystem :=
  match resolve fs p with
  | Raise e => (Raised e, fs)
  | Ok r =>
      match node_at fs r with
      | Some Directory => (Raised IsADirectoryError, fs)
      | _ =>
          match write_faults fs with
          | Some (Refused e) :: faults =>
              (Raised e, mkFs (nodes fs) (cwd fs) faults)
          | Some (Interrupted e written) :: faults =>
              (Raised e,
               mkFs (<[r := RegularFile (String.substring 0 written data)]>
                       (nodes fs))
                 (cwd fs) faults)
          | None :: faults =>
              (Normal, mkFs (<[r := RegularFile data]> (nodes fs)) (cwd fs) faults)
          | [] =>
              (Normal, mkFs (<[r := RegularFile data]> (nodes fs)) (cwd fs) [])
          end
      end
  end.

(** *** [os.makedirs(name, exist_ok=True)] *)

(** The last step of [makedirs]: [mkdir(name)], where an error is let pass
    when [name] is a directory all the same. *)
Definition mkdir_exist_ok (name : string) (fs : filesystem)
  : completion * filesystem :=
  match mkdir fs name with
  | Ok fs' => (Normal, fs')
  | Raise e => if path_isdir fs name then (Normal, fs) else (Raised e, fs)
  end.

(** The recursion is on [head], a proper prefix of [name]; [fuel] bounds
    its depth and is never used up ([makedirs_has_fuel]). *)
Fixpoint makedirs_rec (fuel : nat) (name : string) (fs : filesystem)
  : completion * filesystem :=
  match fuel with
  | O => (Raised RecursionError, fs)
  | S fuel' =>
      let '(head, tail) := path.split name in
      let '(head, tail) :=
        if nonempty tail then (head, tail) else path.split head in
      if nonempty head && nonempty tail && negb (path_exists fs head) then
        match makedirs_rec fuel' head fs with
        | (Normal, fs1) | (Raised FileExistsError, fs1) =>
            if String.eqb tail "." then (Normal, fs1)
            else mkdir_exist_ok name fs1
        | (c, fs1) => (c, fs1)
        end
      else mkdir_exist_ok name fs
  end.

Definition makedirs (name : string) (fs : filesystem)
  : completion * filesystem :=
  makedirs_rec (S (String.length name)) name fs.

End os.

(** ** [evdev]: devices and events as the program sees them *)

Module evdev.

Module ecodes.
Definition EV_KEY : Z := 1.
Definition KEY_1 : Z := 2.
Definition KEY_2 : Z := 3.
Definition KEY_3 : Z := 4.
Definition KEY_BACKSPACE : Z := 14.
Definition KEY_Q : Z := 16.
Definition KEY_W : Z := 17.
Definition KEY_E : Z := 18.
Definition KEY_R : Z := 19.
Definition KEY_ENTER : Z := 28.
Definition KEY_LEFTCTRL : Z := 29.
Definition KEY_A : Z := 30.
Definition KEY_S : Z := 31.
Definition KEY_D : Z := 32.
Definition KEY_F : Z := 33.
Definition KEY_LEFTSHIFT : Z := 42.
Definition KEY_Z : Z := 44.
Definition KEY_X : Z := 45.
Definition KEY_C : Z := 46.
Definition KEY_V : Z := 47.
Definition KEY_RIGHTSHIFT : Z := 54.
Definition KEY_SPACE : Z := 57.
Definition KEY_RIGHTCTRL : Z := 97.
End ecodes.

(** [device.capabilities()] maps an event type to the codes the device can
    produce for it. *)
Record InputDevice := mkDevice {
  fd : Z;
  name : string;
  capabilities : gmap Z (list Z)
}.

Record InputEvent := mkEvent {
  ev_type : Z;
  ev_code : Z;
  ev_value : Z
}.

(** [KeyEvent.keycode]: one code, or a list of codes. *)
Inductive keycode :=
| Code (code : Py.value)
| Codes (codes : list Py.value).

(** A [KeyEvent].  [keystate] is an attribute that the constructor sets
    only for the values it knows: it is [None] while unset, and reading it
    then raises [AttributeError]. *)
Record KeyEvent := mkKeyEvent {
  keystate : option Z;
  key_code : keycode
}.

Definition key_up : Z := 0.
Definition key_down : Z := 1.
Definition key_hold : Z := 2.

(** [categorize(event)] for an event of type [EV_KEY], which builds
    [KeyEvent(event)].  [keys] is the library's table [ecodes.keys] from event
    codes to key codes, a dictionary: a code without an entry raises
    [KeyError].  The key state is set from the event's value (0 up, 2 hold,
    1 down) before the table is looked at. *)
Definition categorize (keys : Z -> option keycode) (event : InputEvent)
  : result KeyEvent :=
  let keystate :=
    if ev_value event =? 0 then Some key_up
    else if ev_value event =? 2 then Some key_hold
    else if ev_value event =? 1 then Some key_down
    else None in
  match keys (ev_code event) with
  | Some keycode => Ok (mkKeyEvent keystate keycode)
  | None => Raise KeyError
  end.

End evdev.

(** ** The program state and its environment *)

Record state := mkState {
  key_counter : Counter;
  files : os.filesystem;
  stdout : list string
}.

Definition set_key_counter (st : state) (c : Counter) : state :=
  mkState c (files st) (stdout st).

Definition set_files (st : state) (fs : os.filesystem) : state :=
  mkState (key_counter st) fs (stdout st).

Definition print (line : string) (st : state) : state :=
  mkState (key_counter st) (files st) (stdout st ++ [line]).

(** What [devices[fd].read()] gives when [select] reports [fd]. *)
Inductive read_result :=
| Events (events : list evdev.InputEvent)
| ReadRaises (e : exn).

(** One return of [select.select(devices, [], [])]: the ready descriptors,
    each with what reading it gives, or an exception raised while the
    process waits. *)
Inductive select_result :=
| Ready (r : list (Z * read_result))
| SelectRaises (e : exn).

(** What the process observes from outside during one run. *)
Record environment := mkEnv {
  keys : Z -> option evdev.keycode;
  (* evdev.InputDevice(path) for each path of evdev.list_devices() *)
  listed : list (result evdev.InputDevice);
  selects : list select_result
}.

(** One wake-up of the saver thread, [SAVE_INTERVAL] seconds after the
    last: the table as the monitor thread has left it, and the text of
    [time.ctime()]. *)
Record tick := mkTick {
  tk_counter : Counter;
  tk_ctime : string
}.

(** ** keyboard_stats.py *)

Definition SAVE_INTERVAL : Z := 60.

(** The body of the [for row in reader] loop. *)
Fixpoint load_rows (rows : list (list string)) (key_counter : Counter)
  : completion * Counter :=
  match rows with
  | [] => (Normal, key_counter)
  | row :: rows' =>
      if (length row =? 2)%nat then
        match Py.int (nth 1 row EmptyString) with
        | Some n => load_rows rows' (setitem key_counter (nth 0 row EmptyString) n)
        | None => (Raised ValueError, key_counter)
        end
      else load_rows rows' key_counter
  end.

Definition load_existing_data (csv_file : string) (st : state)
  : completion * state :=
  if os.path_exists (files st) csv_file then
    match os.read_text (files st) csv_file with
    | Raise e => (Raised e, st)
    | Ok data =>
        let '(rows, err) :=
          csv.reader (io.readlines (io.universal_newlines data)) in
        match load_rows rows (key_counter st) with
        | (Normal, c) =>
            (match err with Some e => Raised e | None => Normal end,
             set_key_counter st c)
        | (r, c) => (r, set_key_counter st c)
        end
    end
  else (Normal, st).

(** The text [save_data] writes: one row per item, in iteration order. *)
Fixpoint rows_text (items : list (string * Z)) : string :=
  match items with
  | [] => EmptyString
  | (key, count) :: items' =>
      csv.writerow [key; Py.str_int count] +:+ rows_text items'
  end.

Definition save_data (csv_file : string) (st : state) : completion * state :=
  match os.makedirs (os.path.dirname csv_file) (files st) with
  | (Normal, fs) =>
      let '(r, fs') := os.write_text fs csv_file (rows_text (key_counter st)) in
      (r, set_files st fs')
  | (r, fs) => (r, set_files st fs)
  end.

(** The saver thread.  Each tick is one return of [time.sleep]. *)
Fixpoint periodic_save (csv_file : string) (ticks : list tick) (st : state)
  : completion * state :=
  match ticks with
  | [] => (Blocked, st)
  | t :: ticks' =>
      match save_data csv_file (set_key_counter st (tk_counter t)) with
      | (Normal, st') =>
          periodic_save csv_file ticks'
            (print ("Data saved at " +:+ tk_ctime t) st')
      | (r, st') => (r, st')
      end
  end.

Definition keyboard_names : list string := ["keyboard"; "keybrd"; "keypad"].

Definition required_keys : list Z :=
  [ evdev.ecodes.KEY_Q; evdev.ecodes.KEY_W; evdev.ecodes.KEY_E; evdev.ecodes.KEY_R;
    evdev.ecodes.KEY_A; evdev.ecodes.KEY_S; evdev.ecodes.KEY_D; evdev.ecodes.KEY_F;
    evdev.ecodes.KEY_Z; evdev.ecodes.KEY_X; evdev.ecodes.KEY_C; evdev.ecodes.KEY_V;
    evdev.ecodes.KEY_1; evdev.ecodes.KEY_2; evdev.ecodes.KEY_3;
    evdev.ecodes.KEY_SPACE; evdev.ecodes.KEY_ENTER; evdev.ecodes.KEY_BACKSPACE;
    evdev.ecodes.KEY_LEFTSHIFT; evdev.ecodes.KEY_RIGHTSHIFT;
    evdev.ecodes.KEY_LEFTCTRL; evdev.ecodes.KEY_RIGHTCTRL ].

(** [key in capabilities] on a list of codes. *)
Definition code_in (key : Z) (codes : list Z) : bool :=
  existsb (Z.eqb key) codes.

Definition is_keyboard (device : evdev.InputDevice) : bool :=
  if negb (existsb (fun name => Py.contains (Py.lower (evdev.name device)) name)
             keyboard_names)
  then false
  else
    let capabilities :=
      match evdev.capabilities device !! evdev.ecodes.EV_KEY with
      | Some codes => codes
      | None => []
      end in
    forallb (fun key => code_in key capabilities) required_keys.

(** [[evdev.InputDevice(path) for path in evdev.list_devices()]]: the first
    device that cannot be opened ends the comprehension. *)
Fixpoint open_all (listed : list (result evdev.InputDevice))
  : result (list evdev.InputDevice) :=
  match listed with
  | [] => Ok []
  | Raise e :: _ => Raise e
  | Ok device :: listed' =>
      match open_all listed' with
      | Ok devices => Ok (device :: devices)
      | Raise e => Raise e
      end
  end.

Definition find_keyboards (listed : list (result evdev.InputDevice))
  : result (list evdev.InputDevice) :=
  match open_all listed with
  | Ok devices => Ok (List.filter is_keyboard devices)
  | Raise e => Raise e
  end.

(** [key_counter[k] += 1] *)
Definition increment (key_counter : Counter) (k : string) : Counter :=
  setitem key_counter k (getitem key_counter k + 1).

Definition update_key_counter (keycode : evdev.keycode) (key_counter : Counter)
  : Counter :=
  match keycode with
  | evdev.Codes codes =>
      fold_left (fun c code => increment c (Py.str code)) codes key_counter
  | evdev.Code code => increment key_counter (Py.str code)
  end.

(** The body of [for event in devices[fd].read()]. *)
Definition handle_event (keys : Z -> option evdev.keycode)
  (event : evdev.InputEvent) (key_counter : Counter) : completion * Counter :=
  if evdev.ev_type event =? evdev.ecodes.EV_KEY then
    match evdev.categorize keys event with
    | Raise e => (Raised e, key_counter)
    | Ok key_event =>
        match evdev.keystate key_event with
        | None => (Raised AttributeError, key_counter)
        | Some keystate =>
            if keystate =? evdev.key_down
            then (Normal,
                  update_key_counter (evdev.key_code key_event) key_counter)
            else (Normal, key_counter)
        end
    end
  else (Normal, key_counter).

(** [for event in devices[fd].read()] over the events of one read: an
    exception leaves the loop at the event that raises it. *)
Fixpoint handle_events (keys : Z -> option evdev.keycode)
  (events : list evdev.InputEvent) (key_counter : Counter)
  : completion * Counter :=
  match events with
  | [] => (Normal, key_counter)
  | event :: events' =>
      match handle_event keys event key_counter with
      | (Normal, c) => handle_events keys events' c
      | (r, c) => (r, c)
      end
  end.

(** The body of [for fd in r]. *)
Fixpoint handle_ready (keys : Z -> option evdev.keycode)
  (devices : gmap Z evdev.InputDevice) (r : list (Z * read_result))
  (key_counter : Counter) : completion * Counter :=
  match r with
  | [] => (Normal, key_counter)
  | (fd, rd) :: r' =>
      match devices !! fd with
      | None => (Raised KeyError, key_counter)
      | Some _ =>
          match rd with
          | ReadRaises e => (Raised e, key_counter)
          | Events events =>
              match handle_events keys events key_counter with
              | (Normal, c) => handle_ready keys devices r' c
              | (r, c) => (r, c)
              end
          end
      end
  end.

(** The [while True] loop of [main]. *)
Fixpoint monitor (keys : Z -> option evdev.keycode)
  (devices : gmap Z evdev.InputDevice) (selects : list select_result)
  (key_counter : Counter) : completion * Counter :=
  match selects with
  | [] => (Blocked, key_counter)
  | SelectRaises e :: _ => (Raised e, key_counter)
  | Ready r :: selects' =>
      match handle_ready keys devices r key_counter with
      | (Normal, c) => monitor keys devices selects' c
      | (r, c) => (r, c)
      end
  end.

(** [{dev.fd: dev for dev in keyboards}] *)
Definition by_fd (keyboards : list evdev.InputDevice) : gmap Z evdev.InputDevice :=
  fold_left (fun m dev => <[evdev.fd dev := dev]> m) keyboards ∅.

(** [main].  The saver thread it starts is [periodic_save]; that thread
    reads [key_counter] and writes the file, and the main thread looks at
    neither of the two effects, so the thread is left out of this run. *)
Definition main (env : environment) (csv_file : string) (st : state)
  : completion * state :=
  match load_existing_data csv_file st with
  | (Normal, st1) =>
      match find_keyboards (listed env) with
      | Raise e => (Raised e, st1)
      | Ok [] => (Normal, print "No keyboards found" st1)
      | Ok keyboards =>
          let st2 := print "Monitoring keyboards:" st1 in
          let st3 :=
            fold_left (fun st keyboard => print ("- " +:+ evdev.name keyboard) st)
              keyboards st2 in
          let devices := by_fd keyboards in
          let '(r, c) := monitor (keys env) devices (selects env) (key_counter st3) in
          (r, set_key_counter st3 c)
      end
  | (r, st1) => (r, st1)
  end.

(** The [if __name__ == "__main__"] block with the command line already
    parsed.  The result is the exit status of the process: 0 when the block
    runs to its end, 1 when an exception leaves it, nothing while the
    process is still running. *)
Definition script (env : environment) (csv_file : string) (st : state)
  : option Z * state :=
  match main env csv_file st with
  | (Normal, st') => (Some 0, st')
  | (Blocked, st') => (None, st')
  | (Raised KeyboardInterrupt, st') =>
      let st1 := print "Keyboard Interrupt detected. Saving data..." st' in
      match save_data csv_file st1 with
      | (Normal, st2) => (Some 0, print "Data saved. Exiting..." st2)
      | (Blocked, st2) => (None, st2)
      | (Raised _, st2) => (Some 1, st2)
      end
  | (Raised PermissionError, st') =>
      (Some 0, print "Permission denied. Try running the script with sudo." st')
  | (Raised _, st') => (Some 1, st')
  end.

(** *** The two threads together

    One turn of the process once [main] has started the saver thread and
    entered its loop: the main thread gets a return of [select], or the
    saver thread wakes up from [time.sleep], with the text [time.ctime()]
    gives after its save. *)
Inductive turn :=
| Select (s : select_result)
| WakeUp (ctime : string).

(** The monitor loop of [main] with the saver thread beside it.  The turns
    are taken one after the other, each to its end.  [saver] tells how the
    saver thread stands: [Blocked] while it is in the loop of
    [periodic_save], [Raised e] once the exception [e] has left that
    function, which ends the thread and nothing else: the interpreter
    reports the exception of a thread on standard error and the other
    threads run on.  The result is how the loop of the main thread ends, how
    the saver thread stands then, and the state. *)
Fixpoint threads (keys : Z -> option evdev.keycode)
  (devices : gmap Z evdev.InputDevice) (csv_file : string)
  (turns : list turn) (saver : completion) (st : state)
  : completion * completion * state :=
  match turns with
  | [] => (Blocked, saver, st)
  | Select (SelectRaises e) :: _ => (Raised e, saver, st)
  | Select (Ready r) :: turns' =>
      match handle_ready keys devices r (key_counter st) with
      | (Normal, c) =>
          threads keys devices csv_file turns' saver (set_key_counter st c)
      | (res, c) => (res, saver, set_key_counter st c)
      end
  | WakeUp ctime :: turns' =>
      match saver with
      | Blocked =>
          match save_data csv_file st with
          | (Normal, st') =>
              threads keys devices csv_file turns' Blocked
                (print ("Data saved at " +:+ ctime) st')
          | (res, st') => threads keys devices csv_file turns' res st'
          end
      | _ => threads keys devices csv_file turns' saver st
      end
  end.

(** ** Vocabulary of the specification *)

(** The returns of [select] among the turns of the process. *)
Fixpoint selects_of (turns : list turn) : list select_result :=
  match turns with
  | [] => []
  | Select s :: turns' => s :: selects_of turns'
  | WakeUp _ :: turns' => selects_of turns'
  end.


(** The identities one key code stands for: one per contained code. *)
Definition identities (keycode : evdev.keycode) : list string :=
  match keycode with
  | evdev.Code code => [Py.str code]
  | evdev.Codes codes => map Py.str codes
  end.

(** An event is a key-down transition when it is a key event whose state is
    "down"; releases and auto-repeats are not. *)
Definition is_key_down (event : evdev.InputEvent) : bool :=
  (evdev.ev_type event =? evdev.ecodes.EV_KEY)
  && (evdev.ev_value event =? evdev.key_down).

(** The identities recorded for a sequence of events: those of its key-down
    transitions, in order.  A code that the key table does not know stands
    for no identity. *)
Definition recorded (keys : Z -> option evdev.keycode)
  (events : list evdev.InputEvent) : list string :=
  flat_map (fun event =>
              if is_key_down event then
                match keys (evdev.ev_code event) with
                | Some keycode => identities keycode
                | None => []
                end
              else [])
    events.

(** A key event that cannot be categorized: the key table has no entry for
    its code, or its value is none of up, down and hold. *)
Definition uncategorized (keys : Z -> option evdev.keycode)
  (event : evdev.InputEvent) : bool :=
  (evdev.ev_type event =? evdev.ecodes.EV_KEY)
  && (match keys (evdev.ev_code event) with
      | Some _ => false
      | None => true
      end
      || negb ((evdev.ev_value event =? evdev.key_up)
               || (evdev.ev_value event =? evdev.key_down)
               || (evdev.ev_value event =? evdev.key_hold))).

(** The events of one read that the loop gets through: those before the
    first event that cannot be categorized; and whether these are all. *)
Fixpoint events_taken (keys : Z -> option evdev.keycode)
  (events : list evdev.InputEvent) : list evdev.InputEvent * bool :=
  match events with
  | [] => ([], true)
  | event :: events' =>
      if uncategorized keys event then ([], false)
      else let '(more, ok) := events_taken keys events' in (event :: more, ok)
  end.

(** The events the monitor loop gets to process: those of every read that
    succeeds, up to the first exception (a failing [select], a failing read,
    a descriptor that is not a key of [devices], an event that cannot be
    categorized). *)
Fixpoint events_of_ready (keys : Z -> option evdev.keycode)
  (devices : gmap Z evdev.InputDevice)
  (r : list (Z * read_result)) : list evdev.InputEvent * bool :=
  match r with
  | [] => ([], true)
  | (fd, rd) :: r' =>
      match devices !! fd, rd with
      | Some _, Events events =>
          let '(taken, ok) := events_taken keys events in
          if ok then
            let '(more, ok') := events_of_ready keys devices r' in
            (taken ++ more, ok')
          else (taken, false)
      | _, _ => ([], false)
      end
  end.

Fixpoint events_processed (keys : Z -> option evdev.keycode)
  (devices : gmap Z evdev.InputDevice)
  (selects : list select_result) : list evdev.InputEvent :=
  match selects with
  | [] => []
  | SelectRaises _ :: _ => []
  | Ready r :: selects' =>
      let '(events, ok) := events_of_ready keys devices r in
      if ok then events ++ events_processed keys devices selects' else events
  end.

(** How often an identity occurs in a list of identities. *)
Definition occurrences (id : string) (ids : list string) : Z :=
  Z.of_nat (count_occ string_dec ids id).

(** The Kelvin sign U+212A, a letter K of its own, in UTF-8. *)
Definition kelvin_sign : string :=
  String (Py.chr 0xE2) (String (Py.chr 0x84) (String (Py.chr 0xAA) EmptyString)).

Definition lower_letter (k : ascii) : bool :=
  ((97 <=? Py.ord k) && (Py.ord k <=? 122))%nat.

(** The ways to write the lower-case letter [k] of a keyword without regard
    to case: the letter itself, its capital, and for the letter k the Kelvin
    sign. *)
Definition spellings (k : ascii) : list string :=
  if lower_letter k then
    String k EmptyString :: String (Py.chr (Py.ord k - 32)) EmptyString
    :: (if Ascii.eqb k "k" then [kelvin_sign] else [])
  else [].

(** [stretch] spells [keyword], letter by letter, without regard to case. *)
Fixpoint spells (stretch keyword : string) : Prop :=
  match keyword with
  | EmptyString => stretch = EmptyString
  | String k keyword' =>
      exists letter rest,
        In letter (spellings k) /\ stretch = letter +:+ rest
        /\ spells rest keyword'
  end.

(** The keywords the spellings are made for: lower-case letters other than
    the letter i. *)
Fixpoint keyword_letters (keyword : string) : bool :=
  match keyword with
  | EmptyString => true
  | String k keyword' =>
      lower_letter k && negb (Ascii.eqb k "i") && keyword_letters keyword'
  end.

(** The name contains a keyword, case-insensitively, when some stretch of
    it spells the keyword. *)
Definition name_contains (name keyword : string) : Prop :=
  exists before stretch after,
    name = before +:+ stretch +:+ after /\ spells stretch keyword.

(** The codes a device declares for key events; none when it has no entry
    for them. *)
Definition key_capabilities (device : evdev.InputDevice) : list Z :=
  match evdev.capabilities device !! evdev.ecodes.EV_KEY with
  | Some codes => codes
  | None => []
  end.

(** A line the text layer can hand to the csv reader: no carriage return,
    and a line feed only as its last character. *)
Fixpoint text_line (line : string) : bool :=
  match line with
  | EmptyString => true
  | String c line' =>
      negb (Ascii.eqb c Py.CR)
      && (negb (Ascii.eqb c Py.LF) || String.eqb line' EmptyString)
      && text_line line'
  end.

Fixpoint no_cr (s : string) : bool :=
  match s with
  | EmptyString => true
  | String c s' => negb (Ascii.eqb c Py.CR) && no_cr s'
  end.

(** Between two lines the parser waits for a record or is inside quotes. *)
Definition between_lines (self : csv.ReaderObj) : Prop :=
  csv.state self = csv.START_RECORD \/ csv.state self = csv.IN_QUOTED_FIELD.

Fixpoint all_digits (s : string) : bool :=
  match s with
  | EmptyString => true
  | String c s' => Py.isdigit c && all_digits s'
  end.

(** The text of a field as the writer puts it into a record: quoted, with
    quotes doubled, when it holds a special character. *)
Definition encoded (field : string) : string :=
  if csv.has_special field
  then String Py.dquote (csv.field_data field +:+ String Py.dquote EmptyString)
  else field.

(** The file [save_data] writes as a text-mode reader sees it: every row
    ends in one line feed. *)
Fixpoint rows_read (items : list (string * Z)) : string :=
  match items with
  | [] => EmptyString
  | (key, count) :: items' =>
      encoded key
      +:+ String Py.comma (Py.str_int count +:+ String Py.LF (rows_read items'))
  end.

(** The row [save_data] writes for one item, as the reader returns it. *)
Definition item_row (item : string * Z) : list string :=
  [fst item; Py.str_int (snd item)].

(** What a two-field row whose second field is an integer does to the
    table. *)
Definition assign (c : Counter) (row : list string) : Counter :=
  match Py.int (nth 1 row EmptyString) with
  | Some n => setitem c (nth 0 row EmptyString) n
  | None => c
  end.

Definition two_fields (row : list string) : bool := (length row =? 2)%nat.

Definition integer_field (row : list string) : bool :=
  match Py.int (nth 1 row EmptyString) with
  | Some _ => true
  | None => false
  end.

(** ** Sample data *)

Module Sample.

(** A file system with a home directory as the current directory. *)
Definition home : os.filesystem :=
  os.mkFs {[ ["home"] := os.Directory; ["home"; "u"] := os.Directory ]}
    ["home"; "u"] [].

Definition fresh : state := mkState [] home [].

Definition full_capabilities : gmap Z (list Z) :=
  {[ evdev.ecodes.EV_KEY := required_keys ]}.

Definition keyboard : evdev.InputDevice :=
  evdev.mkDevice 3 "Generic Keyboard" full_capabilities.

Definition keypad : evdev.InputDevice :=
  evdev.mkDevice 7 "USB Keypad" full_capabilities.

(** A key table in which code 100 stands for the two codes 42 and 56 and
    the codes from 768 on have no entry. *)
Definition key_table (code : Z) : option evdev.keycode :=
  if code =? 100 then Some (evdev.Codes [Py.Int 42; Py.Int 56])
  else if (0 <=? code) && (code <? 768) then Some (evdev.Code (Py.Int code))
  else None.

Definition press (code : Z) : evdev.InputEvent :=
  evdev.mkEvent evdev.ecodes.EV_KEY code evdev.key_down.

Definition release (code : Z) : evdev.InputEvent :=
  evdev.mkEvent evdev.ecodes.EV_KEY code evdev.key_up.

Definition hold (code : Z) : evdev.InputEvent :=
  evdev.mkEvent evdev.ecodes.EV_KEY code evdev.key_hold.

(** A session: A pressed, released, pressed again and held; the composite
    key pressed once. *)
Definition typing : environment :=
  mkEnv key_table [Ok keyboard]
    [Ready [(3, Events [press 30; release 30; press 30; hold 30])];
     Ready [(3, Events [press 100; release 100])]].

(** A store with two records, a line of one field, an empty line and a
    line of three fields. *)
Definition stored_text : string :=
  "30,5" +:+ String Py.LF ("header" +:+ String Py.LF (String Py.LF
  ("1,2,3" +:+ String Py.LF ("57, 12 " +:+ String Py.LF EmptyString)))).

Definition with_store : state :=
  mkState []
    (os.mkFs (<[ ["home"; "u"; "keys.csv"] := os.RegularFile stored_text ]>
                (os.nodes home))
       ["home"; "u"] [])
    [].

Definition mouse : evdev.InputDevice :=
  evdev.mkDevice 5 "Mouse" full_capabilities.

(** A device that lights the keys: it declares two of the reference keys. *)
Definition backlight : evdev.InputDevice :=
  evdev.mkDevice 9 "Keyboard Backlight"
    {[ evdev.ecodes.EV_KEY := [evdev.ecodes.KEY_A; evdev.ecodes.KEY_S] ]}.

(** A keyboard whose name is written with the Kelvin sign for its K. *)
Definition kelvin_keyboard : evdev.InputDevice :=
  evdev.mkDevice 11 ("USB " +:+ kelvin_sign +:+ "EYBOARD") full_capabilities.

(** The second listed device cannot be opened for lack of privilege. *)
Definition denied : environment :=
  mkEnv key_table [Ok keyboard; Raise PermissionError; Ok keypad]
    [Ready [(3, Events [press 30])]].

(** Two keyboards; the first read of descriptor 3 fails while descriptor 7
    has a key press pending, and more presses arrive on 7 afterwards. *)
Definition unplugged : environment :=
  mkEnv key_table [Ok keyboard; Ok keypad]
    [Ready [(3, ReadRaises OSError); (7, Events [press 30])];
     Ready [(7, Events [press 30; release 30])]].

(** A table whose keys need quoting in the file: a comma, a quote and a
    line feed, next to an empty key and a negative count. *)
Definition odd_keys : state :=
  mkState
    [("30", 5); ("a,b", 2);
     ("q" +:+ String Py.dquote ("x" +:+ String Py.LF "y"), -3);
     (EmptyString, 0)]
    home [].



(** Only a mouse is plugged in. *)
Definition no_keyboard : environment :=
  mkEnv key_table [Ok mouse] [Ready [(5, Events [press 30])]].

(** Two presses of A, then the operator interrupts the process. *)
Definition interrupted : environment :=
  mkEnv key_table [Ok keyboard]
    [Ready [(3, Events [press 30; release 30; press 30])];
     SelectRaises KeyboardInterrupt].

(** A store under [data/] that already counts five presses of A. *)
Definition stored_five : state :=
  mkState []
    (os.mkFs
       (<[ ["home"; "u"; "data"] := os.Directory ]>
          (<[ ["home"; "u"; "data"; "keys.csv"] :=
                os.RegularFile ("30,5" +:+ String Py.LF EmptyString) ]>
             (os.nodes home)))
       ["home"; "u"] [])
    [].

(** Three wake-ups of the saver thread. *)
Definition three_ticks : list tick :=
  [mkTick [("30", 1)] "Mon Jan  1 00:01:00 2024";
   mkTick [("30", 2)] "Mon Jan  1 00:02:00 2024";
   mkTick [("30", 3)] "Mon Jan  1 00:03:00 2024"].

(** The disk is full at the second attempt to write: the file is opened and
    truncated, and nothing of the text reaches it.  The first attempt and
    the attempts after the second are let through. *)
Definition disk_full_at_second : state :=
  mkState []
    (os.mkFs (os.nodes home) ["home"; "u"]
       [None; Some (os.Interrupted OSError 0)])
    [].

End Sample.

(** ** Further vocabulary *)

(** The sum of all counts of a table. *)
Fixpoint total (c : Counter) : Z :=
  match c with
  | [] => 0
  | (_, v) :: c' => v + total c'
  end.

(** A table as a [dict] holds it and as the store can take it: no key
    twice, no key with a carriage return. *)
Definition storable (c : Counter) : Prop :=
  NoDup (dict_keys c) /\ forallb no_cr (dict_keys c) = true.

(** [row[0]] *)
Definition row_key (row : list string) : string := nth 0 row EmptyString.

(** Whether a row assigns to the key [k]. *)
Definition assigns_to (k : string) (row : list string) : bool :=
  String.eqb (row_key row) k.

(** The line the saver thread prints after the save of a tick. *)
Definition saved_line (t : tick) : string := "Data saved at " +:+ tk_ctime t.

(** The parser holds no carriage return in what it has read so far. *)
Definition reader_clean (self : csv.ReaderObj) : Prop :=
  no_cr (csv.field self) = true /\ forallb no_cr (csv.fields self) = true.

Module Scenario.

(** A store whose first line is a header. *)
Definition header_text : string :=
  "key,count" +:+ String Py.LF ("30,5" +:+ String Py.LF EmptyString).

(** A store that mentions the key 30 twice. *)
Definition twice_text : string :=
  "30,5" +:+ String Py.LF ("57,1" +:+ String Py.LF
  ("30,8" +:+ String Py.LF EmptyString)).

Definition store_with (text : string) (c : Counter) : state :=
  mkState c
    (os.mkFs
       (<[ ["home"; "u"; "data"] := os.Directory ]>
          (<[ ["home"; "u"; "data"; "keys.csv"] := os.RegularFile text ]>
             (os.nodes Sample.home)))
       ["home"; "u"] [])
    [].

(** A key table with the names of the evdev library for three codes. *)
Definition named_keys (code : Z) : option evdev.keycode :=
  if code =? 30 then Some (evdev.Code (Py.Str "KEY_A"))
  else if code =? 57 then Some (evdev.Code (Py.Str "KEY_SPACE"))
  else if code =? 113 then
    Some (evdev.Codes [Py.Str "KEY_MIN_INTERESTING"; Py.Str "KEY_MUTE"])
  else None.

(** A is pressed twice and the mute key once, then the operator interrupts
    the process. *)
Definition session : environment :=
  mkEnv named_keys [Ok Sample.keyboard]
    [Ready [(3, Events [Sample.press 30; Sample.release 30; Sample.press 113])];
     Ready [(3, Events [Sample.press 30])];
     SelectRaises KeyboardInterrupt].

(** A is pressed, then a key whose code the key table does not know, then
    A again, all in one read; a further press of A arrives afterwards. *)
Definition unknown_key : environment :=
  mkEnv named_keys [Ok Sample.keyboard]
    [Ready [(3, Events [Sample.press 30; Sample.press 600; Sample.press 30])];
     Ready [(3, Events [Sample.press 30])]].

End Scenario.

(** * gen_passwd.py *)

Module gen_passwd.

(** [string.ascii_letters], [string.digits], [string.punctuation] *)
Definition ascii_lowercase : string := "abcdefghijklmnopqrstuvwxyz".
Definition ascii_uppercase : string := "ABCDEFGHIJKLMNOPQRSTUVWXYZ".
Definition ascii_letters : string := ascii_lowercase +:+ ascii_uppercase.
Definition digits : string := "0123456789".
Definition punctuation : string :=
  "!" +:+ String Py.dquote "#$%&'()*+,-./:;<=>?@[\]^_`{|}~".

(** [secrets.choice(seq)] is [seq[randbelow(len(seq))]].  [draw] is the
    number the system's random source gives, which is below the length;
    [None] stands for the [IndexError] of an index outside the sequence. *)
Definition choice (seq : string) (draw : nat) : option ascii :=
  String.get draw seq.

Definition characters : string := ascii_letters +:+ digits +:+ punctuation.

(** [''.join(secrets.choice(characters) for _ in range(n))], the draws
    being numbered from [start] on. *)
Fixpoint join_choices (rand : nat -> nat) (start n : nat) : option string :=
  match n with
  | O => Some EmptyString
  | S n' =>
      match choice characters (rand start) with
      | Some c =>
          match join_choices rand (S start) n' with
          | Some s => Some (String c s)
          | None => None
          end
      | None => None
      end
  end.

(** [generate_password(length)]; [rand i] is the [i]-th draw of the random
    source.  [range(length)] is empty for a length below 1. *)
Definition generate_password (rand : nat -> nat) (length : Z) : option string :=
  join_choices rand 0 (Z.to_nat length).

(** The default of the parameter [length]. *)
Definition default_length : Z := 12.

(** The [if __name__ == "__main__"] block: [line] is what the operator
    types at the prompt.  The result is the exit status and what was written
    to standard output, the prompt first. *)
Definition script (rand : nat -> nat) (line : string)
  : option Z * list string :=
  let prompt := "请输入密码长度: " in
  match Py.int line with
  | None => (Some 1, [prompt])
  | Some password_length =>
      match generate_password rand password_length with
      | Some generated_password =>
          (Some 0, [prompt; "生成的密码:" +:+ " " +:+ generated_password])
      | None => (Some 1, [prompt])
      end
  end.

(** A character that prints and is not a space: codes 33 to 126. *)
Definition printable (c : ascii) : bool :=
  ((33 <=? Py.ord c) && (Py.ord c <=? 126))%nat.

Fixpoint all_printable (s : string) : bool :=
  match s with
  | EmptyString => true
  | String c s' => printable c && all_printable s'
  end.

(** The first place of [c] in [s]. *)
Fixpoint position (c : ascii) (s : string) : option nat :=
  match s with
  | EmptyString => None
  | String c' s' =>
      if Ascii.eqb c' c then Some O
      else match position c s' with
           | Some i => Some (S i)
           | None => None
           end
  end.

(** The draws that spell [s]. *)
Fixpoint draws_for (s : string) (i : nat) : nat :=
  match s, i with
  | EmptyString, _ => O
  | String c _, O =>
      match position c characters with Some j => j | None => O end
  | String _ s', S i' => draws_for s' i'
  end.

End gen_passwd.

(** * print_file_contents.py *)

Module print_file_contents.

Definition backslash : ascii := Py.chr 92.
Definition dot : ascii := Py.chr 46.

(** [s.replace('\\', '/')] *)
Fixpoint to_slashes (s : string) : string :=
  match s with
  | EmptyString => EmptyString
  | String c s' =>
      String (if Ascii.eqb c backslash then Py.slash else c) (to_slashes s')
  end.

(** [s.endswith(suffix)] *)
Fixpoint endswith (s suffix : string) : bool :=
  String.eqb s suffix
  || match s with
     | EmptyString => false
     | String _ s' => endswith s' suffix
     end.

(** [s[:-3]] *)
Definition drop_last3 (s : string) : string :=
  String.substring 0 (String.length s - 3) s.

(** [os.path.basename(p)]: what follows the last slash. *)
Definition basename (p : string) : string := snd (os.rpartition p).

(** Whether one pattern of the list excludes the path: the body of the
    [for pattern in exclude_patterns] loop, true where it returns. *)
Definition pattern_excludes (fnmatch : string -> string -> bool)
  (rel_path path pattern : string) : bool :=
  let pattern := to_slashes pattern in
  let check_path := to_slashes rel_path in
  (endswith pattern "/**" && Py.startswith check_path (drop_last3 pattern))
  || fnmatch check_path pattern
  || fnmatch (basename path) pattern.

(** [should_exclude(path)].  [fnmatch] is [fnmatch.fnmatch] and [relpath] is
    [os.path.relpath]; [exclude_patterns] is [None] when the caller gave no
    patterns. *)
Definition should_exclude (fnmatch : string -> string -> bool)
  (relpath : string -> string -> string)
  (exclude_patterns : option (list string)) (abs_directory path : string)
  : bool :=
  match exclude_patterns with
  | None | Some [] => false
  | Some patterns =>
      let rel_path := relpath path abs_directory in
      existsb (pattern_excludes fnmatch rel_path path) patterns
  end.

(** [s.rfind(c)]: the index of the last [c] in [s], -1 when there is none.
    [i] is the index of the first character of [s], [found] the index of the
    last [c] seen before it. *)
Fixpoint rfind_from (c : ascii) (s : string) (i found : Z) : Z :=
  match s with
  | EmptyString => found
  | String x s' => rfind_from c s' (i + 1) (if Ascii.eqb x c then i else found)
  end.

Definition rfind (c : ascii) (s : string) : Z := rfind_from c s 0 (-1).

(** [s[i:j]] for [0 <= i <= j] *)
Definition slice (s : string) (i j : Z) : string :=
  String.substring (Z.to_nat i) (Z.to_nat j - Z.to_nat i) s.

Fixpoint all_dots (s : string) : bool :=
  match s with
  | EmptyString => true
  | String c s' => Ascii.eqb c dot && all_dots s'
  end.

(** [os.path.splitext(p)]: the extension starts at the last dot when that
    dot comes after the last slash and after a character of the file name
    that is not a dot. *)
Definition splitext (p : string) : string * string :=
  let sepIndex := rfind Py.slash p in
  let dotIndex := rfind dot p in
  if (sepIndex <? dotIndex)
     && negb (all_dots (slice p (sepIndex + 1) dotIndex))
  then (slice p 0 dotIndex, slice p dotIndex (Z.of_nat (String.length p)))
  else (p, EmptyString).

(** [s[1:]] *)
Definition tail (s : string) : string :=
  match s with
  | EmptyString => EmptyString
  | String _ s' => s'
  end.

(** [get_file_extension(file_path)] *)
Definition get_file_extension (file_path : string) : string :=
  tail (snd (splitext file_path)).

Fixpoint has_char (c : ascii) (s : string) : bool :=
  match s with
  | EmptyString => false
  | String x s' => Ascii.eqb x c || has_char c s'
  end.

(** A matcher that takes every pattern literally. *)
Definition literal_match (name pattern : string) : bool := String.eqb name pattern.

(** A [relpath] for paths below the directory. *)
Definition strip_prefix (path directory : string) : string :=
  String.substring (S (String.length directory))
    (String.length path - S (String.length directory)) path.

(** ** The content of a file

    What is read from a file may hold any character, and [str.splitlines]
    and [str.rstrip] depend on characters outside ASCII: here a text is the
    list of its code points. *)

Definition text : Type := list Z.

Definition LF : Z := 10.
Definition CR : Z := 13.

(** [c.isspace()]: the white space of Unicode. *)
Definition isspace (c : Z) : bool :=
  ((0x09 <=? c) && (c <=? 0x0d))
  || ((0x1c <=? c) && (c <=? 0x20))
  || (c =? 0x85) || (c =? 0xa0) || (c =? 0x1680)
  || ((0x2000 <=? c) && (c <=? 0x200a))
  || (c =? 0x2028) || (c =? 0x2029) || (c =? 0x202f) || (c =? 0x205f)
  || (c =? 0x3000).

(** The characters at which [str.splitlines] ends a line. *)
Definition is_linebreak (c : Z) : bool :=
  ((0x0a <=? c) && (c <=? 0x0d))
  || ((0x1c <=? c) && (c <=? 0x1e))
  || (c =? 0x85) || (c =? 0x2028) || (c =? 0x2029).

(** [s.splitlines()]: the lines without their ends; a carriage return
    followed by a line feed is one line end, and a line end at the end of
    the text opens no further line. *)
Fixpoint splitlines (s : text) : list text :=
  match s with
  | [] => []
  | c :: s' =>
      if is_linebreak c then
        [] :: match s' with
              | d :: s'' =>
                  if (c =? CR) && (d =? LF) then splitlines s''
                  else splitlines s'
              | [] => []
              end
      else
        match splitlines s' with
        | [] => [[c]]
        | line :: lines => (c :: line) :: lines
        end
  end.

(** [s.rstrip()] *)
Fixpoint rstrip (s : text) : text :=
  match s with
  | [] => []
  | c :: s' =>
      match rstrip s' with
      | [] => if isspace c then [] else [c]
      | r => c :: r
      end
  end.

(** [sep.join(lines)] *)
Fixpoint join (sep : text) (lines : list text) : text :=
  match lines with
  | [] => []
  | [line] => line
  | line :: lines' => line ++ sep ++ join sep lines'
  end.

(** The content as it is written between the fences:
    ['\n'.join(line.rstrip() for line in content.splitlines())]. *)
Definition normalized_content (content : text) : text :=
  join [LF] (map rstrip (splitlines content)).

Definition visible (s : text) : text :=
  List.filter (fun c => negb (isspace c)) s.

(** A white-space character at the end of a line of [s]: one that the end
    of the text or a line feed follows. *)
Definition ends_line (s pre : text) (c : Z) (post : text) : Prop :=
  s = pre ++ c :: post /\ (post = [] \/ exists post', post = LF :: post').

(** A line as [normalized_content] joins them: no line feed inside, no white
    space at its end. *)
Definition trimmed_line (l : text) : Prop :=
  ~ In LF l /\ forall pre c, l = pre ++ [c] -> isspace c = false.

End print_file_contents.
(** * Properties *)

(** ** Strings *)

Lemma append_cons (c : ascii) (a b : string) :
  String c a +:+ b = String c (a +:+ b).
Proof. reflexivity. Qed.

Lemma append_nil_l (s : string) : EmptyString +:+ s = s.
Proof. reflexivity. Qed.

Lemma append_nil_r (s : string) : s +:+ EmptyString = s.
Proof.
  induction s as [|c s IH]; [reflexivity | now rewrite append_cons, IH].
Qed.

Lemma append_assoc (a b c : string) : (a +:+ b) +:+ c = a +:+ (b +:+ c).
Proof.
  induction a as [|x a IH]; [reflexivity | now rewrite !append_cons, IH].
Qed.

Lemma append_snoc (a : string) (c : ascii) (b : string) :
  (a +:+ String c EmptyString) +:+ b = a +:+ String c b.
Proof. now rewrite append_assoc, append_cons, append_nil_l. Qed.

Lemma length_append (a b : string) :
  String.length (a +:+ b) = (String.length a + String.length b)%nat.
Proof.
  induction a as [|c a IH]; [reflexivity |].
  rewrite append_cons. simpl. now rewrite IH.
Qed.

(** ** The counter table *)

Lemma get_setitem_eq (c : Counter) (k : string) (v : Z) :
  get (setitem c k v) k = Some v.
Proof.
  induction c as [|[k' v'] c IH]; simpl.
  - now rewrite String.eqb_refl.
  - destruct (String.eqb k' k) eqn:E; simpl; rewrite E; [reflexivity | exact IH].
Qed.

Lemma get_setitem_ne (c : Counter) (k k' : string) (v : Z) :
  k <> k' -> get (setitem c k v) k' = get c k'.
Proof.
  intros Hne. induction c as [|[k0 v0] c IH]; simpl.
  - destruct (String.eqb_spec k k'); [contradiction | reflexivity].
  - destruct (String.eqb_spec k0 k) as [->|Hk]; simpl.
    + destruct (String.eqb_spec k k'); [contradiction | reflexivity].
    + destruct (String.eqb k0 k'); [reflexivity | exact IH].
Qed.

Lemma getitem_increment (c : Counter) (k id : string) :
  getitem (increment c k) id
  = getitem c id + (if String.eqb k id then 1 else 0).
Proof.
  unfold increment, getitem at 1.
  destruct (String.eqb_spec k id) as [->|Hne].
  - now rewrite get_setitem_eq.
  - rewrite get_setitem_ne by assumption. fold (getitem c id). lia.
Qed.

Lemma occurrences_cons (id k : string) (ids : list string) :
  occurrences id (k :: ids)
  = (if String.eqb k id then 1 else 0) + occurrences id ids.
Proof.
  unfold occurrences. simpl.
  destruct (string_dec k id) as [->|Hne].
  - rewrite String.eqb_refl. lia.
  - destruct (String.eqb_spec k id); [contradiction | lia].
Qed.

Lemma occurrences_app (id : string) (a b : list string) :
  occurrences id (a ++ b) = occurrences id a + occurrences id b.
Proof. unfold occurrences. rewrite count_occ_app. lia. Qed.

Lemma occurrences_nonneg (id : string) (ids : list string) :
  0 <= occurrences id ids.
Proof. unfold occurrences. lia. Qed.

Lemma getitem_increment_all (ids : list string) (c : Counter) (id : string) :
  getitem (fold_left increment ids c) id = getitem c id + occurrences id ids.
Proof.
  revert c. induction ids as [|k ids IH]; intros c; simpl.
  - unfold occurrences. simpl. lia.
  - rewrite IH, getitem_increment, occurrences_cons. lia.
Qed.

Lemma fold_left_map {A B C : Type} (f : A -> B -> A) (g : C -> B)
  (l : list C) (a : A) :
  fold_left (fun x y => f x (g y)) l a = fold_left f (map g l) a.
Proof. revert a. induction l as [|y l IH]; intros a; simpl; [reflexivity | apply IH]. Qed.

Lemma getitem_update_key_counter (keycode : evdev.keycode) (c : Counter)
  (id : string) :
  getitem (update_key_counter keycode c) id
  = getitem c id + occurrences id (identities keycode).
Proof.
  destruct keycode as [code | codes]; simpl.
  - rewrite getitem_increment, occurrences_cons. unfold occurrences. simpl. lia.
  - rewrite (fold_left_map increment Py.str). apply getitem_increment_all.
Qed.

(** ** The event aggregator and the monitor loop *)

Lemma update_key_counter_steps (keycode : evdev.keycode) (c : Counter) :
  update_key_counter keycode c = fold_left increment (identities keycode) c.
Proof.
  destruct keycode as [code | codes]; simpl; [reflexivity |].
  apply (fold_left_map increment Py.str).
Qed.

Section MonitorLoop.

Variable keys : Z -> option evdev.keycode.
Variable devices : gmap Z evdev.InputDevice.

Lemma recorded_app (a b : list evdev.InputEvent) :
  recorded keys (a ++ b) = recorded keys a ++ recorded keys b.
Proof. unfold recorded. apply flat_map_app. Qed.

(** One event: the table moves by the identities recorded for it, and the
    event raises exactly when it cannot be categorized. *)
Lemma handle_event_steps (event : evdev.InputEvent) (c : Counter) :
  snd (handle_event keys event c) = fold_left increment (recorded keys [event]) c
  /\ (fst (handle_event keys event c) = Normal
      <-> uncategorized keys event = false)
  /\ fst (handle_event keys event c) <> Blocked.
Proof.
  unfold handle_event, recorded, is_key_down, uncategorized, evdev.categorize,
    evdev.key_up, evdev.key_down, evdev.key_hold.
  simpl.
  destruct (evdev.ev_type event =? evdev.ecodes.EV_KEY); simpl;
    [| repeat split; discriminate].
  destruct (keys (evdev.ev_code event)) as [keycode |]; simpl.
  - destruct (Z.eqb_spec (evdev.ev_value event) 0) as [-> | H0]; simpl;
      [repeat split; discriminate |].
    destruct (Z.eqb_spec (evdev.ev_value event) 2) as [-> | H2]; simpl;
      [repeat split; discriminate |].
    destruct (Z.eqb_spec (evdev.ev_value event) 1) as [H1 | H1]; simpl;
      [| repeat split; discriminate].
    rewrite update_key_counter_steps, app_nil_r. repeat split; discriminate.
  - destruct (evdev.ev_value event =? 1); repeat split; discriminate.
Qed.

Lemma recorded_uncategorized (event : evdev.InputEvent) :
  uncategorized keys event = true -> recorded keys [event] = [].
Proof.
  unfold recorded, is_key_down, uncategorized. simpl.
  destruct (evdev.ev_type event =? evdev.ecodes.EV_KEY); [| reflexivity].
  simpl. destruct (keys (evdev.ev_code event));
    [| now destruct (evdev.ev_value event =? evdev.key_down)].
  destruct (evdev.ev_value event =? evdev.key_down); [| reflexivity].
  now rewrite orb_true_r.
Qed.

Lemma handle_events_steps (events : list evdev.InputEvent) (c : Counter) :
  snd (handle_events keys events c)
  = fold_left increment (recorded keys (fst (events_taken keys events))) c
  /\ (fst (handle_events keys events c) = Normal
      <-> snd (events_taken keys events) = true)
  /\ fst (handle_events keys events c) <> Blocked.
Proof.
  revert c. induction events as [|event events IH]; intros c.
  - repeat split; discriminate.
  - cbn [handle_events events_taken].
    destruct (handle_event_steps event c) as (Hc & Hok & Hnb).
    destruct (handle_event keys event c) as [res c1].
    cbn [fst snd] in Hc, Hok, Hnb.
    destruct (uncategorized keys event) eqn:Hu.
    + destruct res as [| e |];
        [destruct Hok as [Hok _]; discriminate (Hok eq_refl) | | contradiction].
      rewrite (recorded_uncategorized event Hu) in Hc.
      cbn [fst snd recorded flat_map fold_left]. rewrite Hc.
      repeat split; discriminate.
    + destruct res as [| e |];
        [| destruct Hok as [_ Hok]; discriminate (Hok eq_refl) | contradiction].
      destruct (IH c1) as (IHc & IHok & IHnb).
      destruct (events_taken keys events) as [more ok]. cbn [fst snd] in *.
      change (event :: more) with ([event] ++ more).
      rewrite recorded_app, fold_left_app, <- Hc. auto.
Qed.

Lemma handle_ready_steps (r : list (Z * read_result)) (c : Counter) :
  snd (handle_ready keys devices r c)
  = fold_left increment
      (recorded keys (fst (events_of_ready keys devices r))) c
  /\ (fst (handle_ready keys devices r c) = Normal
      <-> snd (events_of_ready keys devices r) = true)
  /\ fst (handle_ready keys devices r c) <> Blocked.
Proof.
  revert c. induction r as [|[fd rd] r IH]; intros c; simpl.
  - repeat split; discriminate.
  - destruct (devices !! fd) as [dev |]; simpl;
      [| repeat split; discriminate].
    destruct rd as [events | e]; simpl; [| repeat split; discriminate].
    destruct (handle_events_steps events c) as (Hc & Hok & Hnb).
    destruct (handle_events keys events c) as [res c1].
    destruct (events_taken keys events) as [taken ok]. simpl in Hc, Hok, Hnb.
    destruct res as [| e |]; [| | contradiction].
    + assert (ok = true) as -> by (now apply Hok).
      destruct (IH c1) as (IHc & IHok & IHnb).
      destruct (events_of_ready keys devices r) as [more ok']. simpl in *.
      rewrite recorded_app, fold_left_app, <- Hc. auto.
    + destruct ok; [destruct Hok as [_ Hok]; discriminate (Hok eq_refl) |].
      simpl. repeat split; [exact Hc | discriminate | discriminate | discriminate].
Qed.

Lemma handle_ready_not_blocked (r : list (Z * read_result))
  (c : Counter) :
  fst (handle_ready keys devices r c) <> Blocked.
Proof. apply handle_ready_steps. Qed.

(** The loop as a sequence of increments: one for each identity recorded
    for the events it processed. *)
Lemma monitor_steps (selects : list select_result) (c : Counter) :
  snd (monitor keys devices selects c)
  = fold_left increment
      (recorded keys (events_processed keys devices selects)) c.
Proof.
  revert c. induction selects as [|[r | e] selects IH]; intros c; simpl;
    [reflexivity | | reflexivity].
  destruct (handle_ready_steps r c) as (Hsteps & Hok & Hnb).
  destruct (handle_ready keys devices r c) as [res c'].
  destruct (events_of_ready keys devices r) as [events ok]. simpl in *.
  destruct res; simpl.
  - assert (ok = true) as -> by (apply Hok; reflexivity).
    now rewrite IH, Hsteps, recorded_app, fold_left_app.
  - destruct ok; [destruct Hok as [_ Hok]; discriminate (Hok eq_refl) |].
    exact Hsteps.
  - contradiction.
Qed.

Lemma monitor_count (selects : list select_result)
  (c : Counter) (id : string) :
  getitem (snd (monitor keys devices selects c)) id
  = getitem c id
    + occurrences id (recorded keys (events_processed keys devices selects)).
Proof. rewrite monitor_steps. apply getitem_increment_all. Qed.

Lemma handle_event_ignores (event : evdev.InputEvent) (c : Counter) :
  is_key_down event = false -> snd (handle_event keys event c) = c.
Proof.
  intros H. destruct (handle_event_steps event c) as [-> _].
  unfold recorded. simpl. now rewrite H.
Qed.

Lemma handle_ready_app (before after : list (Z * read_result))
  (c c1 : Counter) :
  handle_ready keys devices before c = (Normal, c1) ->
  handle_ready keys devices (before ++ after) c
  = handle_ready keys devices after c1.
Proof.
  revert c. induction before as [|[fd rd] before IH]; intros c H; simpl in *.
  - now injection H as ->.
  - destruct (devices !! fd); [| discriminate].
    destruct rd as [events | e]; [| discriminate].
    destruct (handle_events keys events c) as [[| e |] c'];
      [now apply IH | discriminate | discriminate].
Qed.

Lemma monitor_app (before after : list select_result)
  (c c1 : Counter) :
  monitor keys devices before c = (Blocked, c1) ->
  monitor keys devices (before ++ after) c = monitor keys devices after c1.
Proof.
  revert c. induction before as [|[r | e] before IH]; intros c H; simpl in *.
  - now injection H as ->.
  - pose proof (handle_ready_not_blocked r c) as Hnb.
    destruct (handle_ready keys devices r c) as [[| e |] c'].
    + now apply IH.
    + discriminate.
    + now simpl in Hnb.
  - discriminate.
Qed.

Lemma events_processed_prefix (before after : list select_result) :
  exists more,
    events_processed keys devices (before ++ after)
    = events_processed keys devices before ++ more.
Proof.
  induction before as [|[r | e] before [more IH]]; simpl.
  - now exists (events_processed keys devices after).
  - destruct (events_of_ready keys devices r) as [events [|]].
    + exists more. now rewrite IH, app_assoc.
    + exists []. now rewrite app_nil_r.
  - now exists [].
Qed.

End MonitorLoop.

(** C4. A key event whose keycode is a list of codes adds one to the count
    of every code in the list, once per occurrence in the list, and to no
    other count; an event carrying the codes 42 and 56 adds one to the count
    of "42" and one to the count of "56". *)
Theorem composite_event_counts_every_code :
  (forall (codes : list Py.value) (c : Counter) (id : string),
      getitem (update_key_counter (evdev.Codes codes) c) id
      = getitem c id + occurrences id (map Py.str codes))
  /\ (forall (c : Counter),
         let c' := update_key_counter (evdev.Codes [Py.Int 42; Py.Int 56]) c in
         getitem c' "42" = getitem c "42" + 1
         /\ getitem c' "56" = getitem c "56" + 1
         /\ forall id, id <> "42" -> id <> "56" -> getitem c' id = getitem c id).
Proof.
  split.
  - intros codes c id. apply (getitem_update_key_counter (evdev.Codes codes)).
  - intros c c'. unfold c'.
    repeat split; try intros id H42 H56;
      rewrite (getitem_update_key_counter (evdev.Codes _)); simpl;
      rewrite !occurrences_cons.
    + change (Py.str_int 42) with "42". change (Py.str_int 56) with "56".
      simpl. unfold occurrences. simpl. lia.
    + change (Py.str_int 42) with "42". change (Py.str_int 56) with "56".
      simpl. unfold occurrences. simpl. lia.
    + change (Py.str_int 42) with "42". change (Py.str_int 56) with "56".
      destruct (String.eqb_spec "42" id); [congruence |].
      destruct (String.eqb_spec "56" id); [congruence |].
      unfold occurrences. simpl. lia.
Qed.

Lemma key_counter_print_all (names : list evdev.InputDevice) (st : state) :
  key_counter
    (fold_left (fun st keyboard => print ("- " +:+ evdev.name keyboard) st)
       names st)
  = key_counter st.
Proof.
  revert st. induction names as [|d names IH]; intros st; simpl;
    [reflexivity | now rewrite IH].
Qed.

(** C1. With the table loaded at startup and at least one keyboard found,
    the count [main] leaves for an identity is the loaded count (0 when the
    store had none) plus the number of key-down transitions recorded for that
    identity among the events the monitor loop processed, which are the
    events of the successful reads up to the first exception.  Events that
    are not key-down transitions (releases, auto-repeats, other event types)
    change no count; counts never decrease as the loop goes on; and each
    single update adds exactly one to exactly one count. *)
Theorem monitor_counts_key_downs (env : environment) (csv_file : string)
  (st st1 : state) (keyboards : list evdev.InputDevice) :
  load_existing_data csv_file st = (Normal, st1) ->
  find_keyboards (listed env) = Ok keyboards ->
  keyboards <> [] ->
  (forall id,
      getitem (key_counter (snd (main env csv_file st))) id
      = getitem (key_counter st1) id
        + occurrences id
            (recorded (keys env)
               (events_processed (keys env) (by_fd keyboards) (selects env))))
  /\ (forall event c,
         is_key_down event = false ->
         snd (handle_event (keys env) event c) = c)
  /\ (forall before after c id,
         getitem (snd (monitor (keys env) (by_fd keyboards) before c)) id
         <= getitem
              (snd (monitor (keys env) (by_fd keyboards) (before ++ after) c))
              id)
  /\ (forall c k id,
         getitem (increment c k) id
         = getitem c id + (if String.eqb k id then 1 else 0)).
Proof.
  intros Hload Hfind Hne. repeat split.
  - intros id. unfold main. rewrite Hload, Hfind.
    destruct keyboards as [|d ds]; [contradiction |].
    destruct (monitor _ _ _ _) as [r c] eqn:Hm. simpl.
    change c with (snd (r, c)). rewrite <- Hm, monitor_count.
    now rewrite key_counter_print_all.
  - intros event c. apply handle_event_ignores.
  - intros before after c id. rewrite !monitor_count.
    destruct (events_processed_prefix (keys env) (by_fd keyboards) before after)
      as [more ->].
    rewrite recorded_app, occurrences_app.
    pose proof (occurrences_nonneg id (recorded (keys env) more)). lia.
  - intros c k id. apply getitem_increment.
Qed.

Lemma monitor_counts_key_downs_witness :
  load_existing_data "data/keys.csv" Sample.fresh = (Normal, Sample.fresh)
  /\ find_keyboards (listed Scenario.unknown_key) = Ok [Sample.keyboard]
  /\ fst (main Scenario.unknown_key "data/keys.csv" Sample.fresh)
     = Raised KeyError
  /\ getitem
       (key_counter
          (snd (main Scenario.unknown_key "data/keys.csv" Sample.fresh)))
       "KEY_A"
     = 0 + 1.
Proof.
  split; [reflexivity | split; [reflexivity | split; [reflexivity |]]].
  destruct (monitor_counts_key_downs Scenario.unknown_key "data/keys.csv"
              Sample.fresh Sample.fresh [Sample.keyboard])
    as [H _]; [reflexivity | reflexivity | discriminate |].
  exact (H "KEY_A").
Defined.

(** ** The device classifier *)

Lemma startswith_spec (hay needle : string) :
  Py.startswith hay needle = true <-> exists rest, hay = needle +:+ rest.
Proof.
  revert hay. induction needle as [|a needle IH]; intros hay.
  - split; [intros _; now exists hay | intros _; now destruct hay].
  - destruct hay as [|b hay]; simpl.
    + split; [discriminate | intros [rest H]; discriminate].
    + destruct (Ascii.eqb_spec a b) as [->|Hne].
      * rewrite IH. split; intros [rest H]; exists rest.
        -- now rewrite append_cons, H.
        -- rewrite append_cons in H. now injection H.
      * split; [discriminate |].
        intros [rest H]. rewrite append_cons in H. injection H as H1 _.
        now symmetry in H1.
Qed.

Lemma contains_spec (hay needle : string) :
  Py.contains hay needle = true
  <-> exists before after, hay = before +:+ needle +:+ after.
Proof.
  induction hay as [|c hay IH]; cbn [Py.contains].
  - rewrite orb_false_r, startswith_spec. split.
    + intros [rest H]. now exists EmptyString, rest.
    + intros [[|x before] [after H]].
      * now exists after.
      * rewrite append_cons in H. discriminate.
  - rewrite orb_true_iff, startswith_spec, IH. split.
    + intros [[rest H] | [before [after H]]].
      * now exists EmptyString, rest.
      * exists (String c before), after. now rewrite append_cons, H.
    + intros [[|x before] [after H]].
      * left. now exists after.
      * right. rewrite append_cons in H. injection H as _ H.
        now exists before, after.
Qed.

Lemma contains_empty (hay : string) : Py.contains hay EmptyString = true.
Proof. destruct hay; reflexivity. Qed.

(** *** [str.lower] and the spellings of a keyword *)

Lemma byte_chr (c : ascii) (n : nat) : Py.byte c = Z.of_nat n -> c = Py.chr n.
Proof.
  unfold Py.byte, Py.ord, Py.chr. intros H. apply Nat2Z.inj in H.
  rewrite <- H. symmetry. apply ascii_nat_embedding.
Qed.

(** The three ways [lower] takes the first character of a text. *)
Lemma lower_cases (c : ascii) (s : string) :
  (exists s',
      String c s = kelvin_sign +:+ s'
      /\ Py.lower (String c s) = String "k" (Py.lower s'))
  \/ (exists s',
         String c s = String (Py.chr 0xC4) (String (Py.chr 0xB0) s')
         /\ Py.lower (String c s)
            = String "i" (String (Py.chr 0xCC) (String (Py.chr 0x87) (Py.lower s'))))
  \/ Py.lower (String c s) = String (Py.lower_char c) (Py.lower s).
Proof.
  cbn [Py.lower].
  destruct (Z.eqb_spec (Py.byte c) 0xE2) as [HE2 | HE2].
  - apply (byte_chr c 226) in HE2. subst c.
    destruct s as [|c1 [|c2 s'']]; [right; right; reflexivity .. |].
    destruct (Z.eqb_spec (Py.byte c1) 0x84) as [H1 | H1];
      [| right; right; reflexivity].
    destruct (Z.eqb_spec (Py.byte c2) 0xAA) as [H2 | H2];
      [| right; right; reflexivity].
    apply (byte_chr c1 132) in H1. apply (byte_chr c2 170) in H2. subst.
    left. exists s''. split; reflexivity.
  - destruct (Z.eqb_spec (Py.byte c) 0xC4) as [HC4 | HC4];
      [| right; right; reflexivity].
    apply (byte_chr c 196) in HC4. subst c.
    destruct s as [|c1 s'']; [right; right; reflexivity |].
    destruct (Z.eqb_spec (Py.byte c1) 0xB0) as [H1 | H1];
      [| right; right; reflexivity].
    apply (byte_chr c1 176) in H1. subst.
    right. left. exists s''. split; reflexivity.
Qed.

Lemma lower_single (c : ascii) (s : string) :
  Py.byte c <> 0xE2 -> Py.byte c <> 0xC4 ->
  Py.lower (String c s) = String (Py.lower_char c) (Py.lower s).
Proof.
  intros HE2 HC4. cbn [Py.lower].
  destruct (Z.eqb_spec (Py.byte c) 0xE2); [contradiction |].
  destruct (Z.eqb_spec (Py.byte c) 0xC4); [contradiction | reflexivity].
Qed.

Lemma lower_kelvin (s : string) :
  Py.lower (kelvin_sign +:+ s) = String "k" (Py.lower s).
Proof. reflexivity. Qed.

(** A lower-case letter and its capital are ASCII characters that [lower]
    takes to the letter. *)
Lemma letter_facts (k : ascii) :
  lower_letter k = true ->
  let capital := Py.chr (Py.ord k - 32) in
  (Py.byte k < 0x80 /\ Py.lower_char k = k)
  /\ (Py.byte capital < 0x80 /\ Py.lower_char capital = k).
Proof.
  destruct k as [[] [] [] [] [] [] [] []]; vm_compute; intros H;
    try discriminate H; repeat split; reflexivity.
Qed.

Lemma lower_char_inv (c k : ascii) :
  lower_letter k = true -> k = Py.lower_char c ->
  c = k \/ c = Py.chr (Py.ord k - 32).
Proof.
  intros _ ->. unfold Py.lower_char.
  destruct ((65 <=? Py.ord c) && (Py.ord c <=? 90))%nat eqn:Hc; [| now left].
  right. apply andb_true_iff in Hc as [H1 H2].
  apply Nat.leb_le in H1, H2. unfold Py.ord, Py.chr in *.
  rewrite nat_ascii_embedding by lia.
  replace (nat_of_ascii c + 32 - 32)%nat with (nat_of_ascii c) by lia.
  symmetry. apply ascii_nat_embedding.
Qed.

(** A stretch that spells a keyword becomes the keyword. *)
Lemma lower_spells (keyword : string) :
  forall stretch after,
    keyword_letters keyword = true -> spells stretch keyword ->
    Py.lower (stretch +:+ after) = keyword +:+ Py.lower after.
Proof.
  induction keyword as [|k keyword IH]; intros stretch after Hkw Hsp.
  - simpl in Hsp. now subst.
  - simpl in Hkw. apply andb_true_iff in Hkw as [Hk Hkw].
    apply andb_true_iff in Hk as [Hk Hi].
    destruct Hsp as (letter & rest & Hin & -> & Hrest).
    rewrite append_assoc. specialize (IH rest after Hkw Hrest).
    unfold spellings in Hin. rewrite Hk in Hin.
    destruct (letter_facts k Hk) as [[Hb Hl] [Hb' Hl']].
    destruct Hin as [<- | [<- | Hin]].
    + rewrite append_cons, append_nil_l, lower_single, IH, Hl, append_cons
        by lia. reflexivity.
    + rewrite append_cons, append_nil_l, lower_single, IH, Hl', append_cons
        by lia. reflexivity.
    + destruct (Ascii.eqb_spec k "k") as [-> |]; [| destruct Hin].
      destruct Hin as [<- | []]. now rewrite lower_kelvin, IH, append_cons.
Qed.

(** What comes before a text that starts with the first byte of a
    character does not change what [lower] makes of that text. *)
Lemma lower_before (before rest : string) :
  (forall c r, rest = String c r -> Py.byte c < 0x80 \/ 0xC0 <= Py.byte c) ->
  exists p, Py.lower (before +:+ rest) = p +:+ Py.lower rest.
Proof.
  intros Hrest.
  assert (forall n before, (String.length before <= n)%nat ->
            exists p, Py.lower (before +:+ rest) = p +:+ Py.lower rest) as H.
  { clear before. induction n as [|n IH]; intros before Hlen.
    - destruct before; [now exists EmptyString | simpl in Hlen; lia].
    - destruct before as [|c b]; [now exists EmptyString |].
      simpl in Hlen. rewrite append_cons.
      destruct (lower_cases c (b +:+ rest))
        as [(s' & Heq & Hl) | [(s' & Heq & Hl) | Hl]]; rewrite Hl.
      + unfold kelvin_sign in Heq. rewrite !append_cons, append_nil_l in Heq.
        destruct b as [|c1 [|c2 b'']].
        * rewrite append_nil_l in Heq. injection Heq as _ Heq.
          destruct (Hrest _ _ Heq) as [Hlt | Hge];
            [vm_compute in Hlt; discriminate
            | vm_compute in Hge; now destruct Hge].
        * rewrite append_cons, append_nil_l in Heq. injection Heq as _ _ Heq.
          destruct (Hrest _ _ Heq) as [Hlt | Hge];
            [vm_compute in Hlt; discriminate
            | vm_compute in Hge; now destruct Hge].
        * rewrite !append_cons in Heq. injection Heq as _ _ _ Heq. subst s'.
          destruct (IH b'') as [p Hp]; [simpl in Hlen; lia |].
          exists (String "k" p). now rewrite Hp, append_cons.
      + destruct b as [|c1 b''].
        * rewrite append_nil_l in Heq. injection Heq as _ Heq.
          destruct (Hrest _ _ Heq) as [Hlt | Hge];
            [vm_compute in Hlt; discriminate
            | vm_compute in Hge; now destruct Hge].
        * rewrite append_cons in Heq. injection Heq as _ _ Heq. subst s'.
          destruct (IH b'') as [p Hp]; [simpl in Hlen; lia |].
          exists (String "i" (String (Py.chr 0xCC) (String (Py.chr 0x87) p))).
          now rewrite Hp, !append_cons.
      + destruct (IH b) as [p Hp]; [lia |].
        exists (String (Py.lower_char c) p). now rewrite Hp, append_cons. }
  apply (H (String.length before)). lia.
Qed.

Lemma startswith_lower (keyword : string) :
  forall name,
    keyword_letters keyword = true ->
    Py.startswith (Py.lower name) keyword = true ->
    exists stretch after, name = stretch +:+ after /\ spells stretch keyword.
Proof.
  induction keyword as [|k keyword IH]; intros name Hkw Hst.
  - now exists EmptyString, name.
  - simpl in Hkw. apply andb_true_iff in Hkw as [Hk Hkw].
    apply andb_true_iff in Hk as [Hk Hi].
    destruct name as [|c s]; [discriminate |].
    destruct (lower_cases c s) as [(s' & Heq & Hl) | [(s' & Heq & Hl) | Hl]];
      rewrite Hl in Hst; cbn [Py.startswith] in Hst.
    + destruct (Ascii.eqb_spec k "k") as [-> |]; [| discriminate].
      destruct (IH s' Hkw Hst) as (stretch & after & -> & Hsp).
      exists (kelvin_sign +:+ stretch), after.
      split; [now rewrite Heq, append_assoc |].
      exists kelvin_sign, stretch. repeat split; [| exact Hsp].
      right. right. now left.
    + destruct (Ascii.eqb_spec k "i") as [-> |]; [discriminate | discriminate].
    + destruct (Ascii.eqb_spec k (Py.lower_char c)) as [Hkc |]; [| discriminate].
      destruct (IH s Hkw Hst) as (stretch & after & -> & Hsp).
      exists (String c stretch), after. split; [now rewrite append_cons |].
      exists (String c EmptyString), stretch.
      repeat split; [| exact Hsp]. unfold spellings. rewrite Hk.
      destruct (lower_char_inv c k Hk Hkc) as [-> | ->];
        [now left | right; now left].
Qed.

Lemma name_contains_tail (prefix name keyword : string) :
  name_contains name keyword -> name_contains (prefix +:+ name) keyword.
Proof.
  intros (before & stretch & after & -> & Hsp).
  exists (prefix +:+ before), stretch, after. split; [| exact Hsp].
  now rewrite append_assoc.
Qed.

Lemma not_letter_start (x : ascii) (hay : string) (k : ascii) (keyword : string) :
  lower_letter k = true -> lower_letter x = false ->
  Py.startswith (String x hay) (String k keyword) = false.
Proof.
  intros Hk Hx. cbn [Py.startswith].
  destruct (Ascii.eqb_spec k x) as [-> |]; [congruence | reflexivity].
Qed.

Lemma contains_lower (keyword : string) (name : string) :
  keyword_letters keyword = true ->
  Py.contains (Py.lower name) keyword = true ->
  name_contains name keyword.
Proof.
  intros Hkw.
  destruct keyword as [|k keyword].
  { intros _. exists name, EmptyString, EmptyString.
    split; [now rewrite append_nil_l, append_nil_r | reflexivity]. }
  assert (lower_letter k = true) as Hk.
  { simpl in Hkw. apply andb_true_iff in Hkw as [Hkw _].
    now apply andb_true_iff in Hkw as [Hkw _]. }
  assert (forall name,
             Py.startswith (Py.lower name) (String k keyword) = true ->
             name_contains name (String k keyword)) as Hstart.
  { intros nm Hst.
    destruct (startswith_lower _ nm Hkw Hst) as (stretch & after & -> & Hsp).
    exists EmptyString, stretch, after. split; [reflexivity | exact Hsp]. }
  assert (forall n name, (String.length name <= n)%nat ->
            Py.contains (Py.lower name) (String k keyword) = true ->
            name_contains name (String k keyword)) as H.
  { clear name. induction n as [|n IH]; intros name Hlen Hc.
    - destruct name; [discriminate | simpl in Hlen; lia].
    - destruct name as [|c s]; [discriminate |]. simpl in Hlen.
      destruct (Py.startswith (Py.lower (String c s)) (String k keyword))
        eqn:Hst; [now apply Hstart |].
      destruct (lower_cases c s) as [(s' & Heq & Hl) | [(s' & Heq & Hl) | Hl]];
        rewrite Hl in Hc, Hst.
      + cbn [Py.contains] in Hc. rewrite Hst in Hc. simpl in Hc.
        rewrite Heq. apply name_contains_tail, IH; [| exact Hc].
        apply (f_equal String.length) in Heq. rewrite length_append in Heq.
        simpl in Heq. lia.
      + cbn [Py.contains] in Hc. rewrite Hst in Hc.
        rewrite !(not_letter_start _ _ k keyword Hk) in Hc by reflexivity.
        simpl in Hc.
        change (String c s) with (String c s) in *. rewrite Heq.
        change (String (Py.chr 196) (String (Py.chr 176) s'))
          with (String (Py.chr 196) (String (Py.chr 176) EmptyString) +:+ s').
        apply name_contains_tail, IH; [| exact Hc].
        injection Heq as _ Heq. subst s. simpl in Hlen. lia.
      + cbn [Py.contains] in Hc. rewrite Hst in Hc. simpl in Hc.
        change (String c s) with (String c EmptyString +:+ s).
        apply name_contains_tail, IH; [lia | exact Hc]. }
  apply (H (String.length name)). lia.
Qed.

Lemma spells_start (stretch : string) (k : ascii) (keyword : string) :
  spells stretch (String k keyword) ->
  forall after c r,
    stretch +:+ after = String c r -> Py.byte c < 0x80 \/ 0xC0 <= Py.byte c.
Proof.
  intros (letter & rest & Hin & -> & _) after c r Heq.
  unfold spellings in Hin.
  destruct (lower_letter k) eqn:Hk; [| destruct Hin].
  destruct (letter_facts k Hk) as [[Hb _] [Hb' _]].
  destruct Hin as [<- | [<- | Hin]].
  - rewrite !append_cons in Heq. injection Heq as <- _. now left.
  - rewrite !append_cons in Heq. injection Heq as <- _. now left.
  - destruct (Ascii.eqb k "k"); [| destruct Hin]. destruct Hin as [<- | []].
    unfold kelvin_sign in Heq. rewrite !append_cons in Heq.
    injection Heq as <- _. right. vm_compute. discriminate.
Qed.

(** The name test of the classifier finds a keyword exactly where the name
    contains it without regard to case. *)
Lemma lower_contains (name keyword : string) :
  keyword_letters keyword = true ->
  Py.contains (Py.lower name) keyword = true <-> name_contains name keyword.
Proof.
  intros Hkw. split; [now apply contains_lower |].
  intros (before & stretch & after & -> & Hsp).
  destruct keyword as [|k keyword]; [apply contains_empty |].
  destruct (lower_before before (stretch +:+ after)) as [p Hp].
  { intros c r. apply (spells_start _ _ _ Hsp). }
  apply contains_spec. exists p, (Py.lower after).
  now rewrite Hp, (lower_spells _ _ _ Hkw Hsp).
Qed.

Lemma code_in_spec (key : Z) (codes : list Z) :
  code_in key codes = true <-> In key codes.
Proof.
  unfold code_in. rewrite existsb_exists. split.
  - intros (x & Hin & Heq). apply Z.eqb_eq in Heq. now subst.
  - intros Hin. exists key. split; [assumption | apply Z.eqb_refl].
Qed.

(** C3. [is_keyboard] holds exactly when the device's name contains,
    without regard to letter case, one of the three keyboard keywords and the
    codes it declares for key events include every code of the reference
    set: the 22 codes of Q W E R, A S D F, Z X C V, 1 2 3, space, enter,
    backspace, both shift keys and both control keys.  A device without an
    entry for key events does not qualify, and a device named "Mouse" never
    does.  A device named "Generic Keyboard" that declares the reference set
    qualifies, as does one whose name is written in capitals with the Kelvin
    sign for its K; a device named "Keyboard Backlight" that declares two of
    the reference keys does not. *)
Theorem is_keyboard_iff_name_and_capabilities :
  (forall device : evdev.InputDevice,
      is_keyboard device = true
      <-> Exists (name_contains (evdev.name device)) keyboard_names
          /\ Forall (fun key => In key (key_capabilities device)) required_keys)
  /\ keyboard_names = ["keyboard"; "keybrd"; "keypad"]
  /\ required_keys
     = [16; 17; 18; 19; 30; 31; 32; 33; 44; 45; 46; 47; 2; 3; 4;
        57; 28; 14; 42; 54; 29; 97]
  /\ (forall fd name capabilities,
         is_keyboard
           (evdev.mkDevice fd name (delete evdev.ecodes.EV_KEY capabilities))
         = false)
  /\ (forall fd capabilities,
         is_keyboard (evdev.mkDevice fd "Mouse" capabilities) = false)
  /\ (is_keyboard Sample.keyboard = true
      /\ name_contains (evdev.name Sample.keyboard) "keyboard")
  /\ (is_keyboard Sample.kelvin_keyboard = true
      /\ name_contains (evdev.name Sample.kelvin_keyboard) "keyboard")
  /\ (is_keyboard Sample.backlight = false
      /\ name_contains (evdev.name Sample.backlight) "keyboard").
Proof.
  assert (forall kw, In kw keyboard_names -> keyword_letters kw = true) as Hkws.
  { intros kw [<- | [<- | [<- | []]]]; reflexivity. }
  split; [| split; [reflexivity | split; [reflexivity | split; [| split]]]].
  - intros device. unfold is_keyboard. fold (key_capabilities device).
    rewrite List.Exists_exists, List.Forall_forall.
    destruct (existsb _ keyboard_names) eqn:Hname; cbn [negb].
    + rewrite forallb_forall. apply existsb_exists in Hname.
      destruct Hname as (kw & Hin & Hkw).
      apply (lower_contains _ _ (Hkws kw Hin)) in Hkw.
      split.
      * intros Hall. split; [now exists kw |].
        intros key Hkey. apply code_in_spec, Hall, Hkey.
      * intros [_ Hall] key Hkey. apply code_in_spec, Hall, Hkey.
    + split; [discriminate |].
      intros [(kw & Hin & Hkw) _].
      apply (lower_contains _ _ (Hkws kw Hin)) in Hkw.
      assert (existsb (fun name => Py.contains (Py.lower (evdev.name device)) name)
                keyboard_names = true) as Hex
          by (apply existsb_exists; now exists kw).
      congruence.
  - intros fd name capabilities. unfold is_keyboard. simpl.
    rewrite lookup_delete_eq.
    destruct (negb _); reflexivity.
  - intros fd capabilities. reflexivity.
  - assert (forall name,
               Py.contains (Py.lower name) "keyboard" = true ->
               name_contains name "keyboard") as Hc.
    { intros name. now apply lower_contains. }
    repeat split; try reflexivity; apply Hc; reflexivity.
Qed.

(** ** Reading the store *)

Lemma no_cr_universal_newlines (s : string) :
  no_cr (io.universal_newlines s) = true.
Proof.
  assert (forall n s, (String.length s <= n)%nat ->
                      no_cr (io.universal_newlines s) = true) as H.
  { clear s. induction n as [|n IH]; intros [|c s] Hlen; simpl in *;
      try reflexivity; try lia.
    destruct (Ascii.eqb_spec c Py.CR) as [->|Hc].
    - simpl. destruct s as [|c' s]; [reflexivity |].
      simpl in Hlen.
      destruct (Ascii.eqb c' Py.LF); apply IH; simpl; lia.
    - simpl. destruct (Ascii.eqb_spec c Py.CR); [contradiction |].
      simpl. apply IH. lia. }
  apply (H (String.length s)). lia.
Qed.

Lemma text_lines_readlines (s : string) :
  no_cr s = true ->
  Forall (fun line => text_line line = true) (io.readlines s).
Proof.
  induction s as [|c s IH]; simpl; [constructor |].
  intros H. apply andb_true_iff in H as [Hc Hs]. specialize (IH Hs).
  destruct (Ascii.eqb c Py.LF) eqn:Hlf.
  - constructor; [| exact IH].
    simpl. now rewrite Hc, Hlf.
  - destruct (io.readlines s) as [|l ls].
    + constructor; [| constructor]. simpl. now rewrite Hc, Hlf.
    + inversion IH as [|? ? Hl Hls]; subst. constructor; [| exact Hls].
      simpl. now rewrite Hc, Hlf, Hl.
Qed.

Lemma feed_text_line (line : string) (self : csv.ReaderObj) :
  text_line line = true ->
  csv.state self <> csv.EAT_CRNL ->
  exists self', csv.feed_line self line = Ok self' /\ between_lines self'.
Proof.
  revert self. induction line as [|c line IH]; intros self Hline Hst.
  - unfold between_lines. simpl. unfold csv.parse_process_char.
    destruct self as [[] f fs]; simpl in *; eauto; congruence.
  - simpl in Hline. apply andb_true_iff in Hline as [Hline Hrest].
    apply andb_true_iff in Hline as [Hcr Hlf].
    apply negb_true_iff in Hcr.
    destruct (Ascii.eqb c Py.LF) eqn:Hc.
    + simpl in Hlf. apply String.eqb_eq in Hlf. subst line.
      unfold between_lines. simpl.
      unfold csv.parse_process_char, csv.is_newline. rewrite Hc.
      apply Ascii.eqb_eq in Hc. subst c.
      destruct self as [[] f fs]; simpl in *; eauto; congruence.
    + assert (exists self1,
                 csv.parse_process_char self (Some c) = Ok self1
                 /\ csv.state self1 <> csv.EAT_CRNL) as (self1 & H1 & Hst1).
      { unfold csv.parse_process_char, csv.is_newline. rewrite Hc, Hcr.
        destruct self as [[] f fs]; simpl in *;
          destruct (Ascii.eqb c Py.dquote); destruct (Ascii.eqb c Py.comma);
          simpl; eauto; try congruence;
          eexists; (split; [reflexivity | simpl; congruence]). }
      simpl. rewrite H1. apply IH; assumption.
Qed.

Lemma reader_from_no_error (lines : list string) (self : csv.ReaderObj) :
  Forall (fun line => text_line line = true) lines ->
  between_lines self ->
  snd (csv.reader_from self lines) = None.
Proof.
  intros Hlines. revert self.
  induction Hlines as [|line lines Hline _ IH]; intros self Hst; simpl.
  - destruct (_ || _); reflexivity.
  - destruct (feed_text_line line self Hline) as (self' & -> & Hst').
    { destruct Hst as [-> | ->]; discriminate. }
    destruct (csv.state_eqb (csv.state self') csv.START_RECORD).
    + specialize (IH csv.parse_reset (or_introl eq_refl)).
      destruct (csv.reader_from csv.parse_reset lines) as [rows err].
      exact IH.
    + apply IH, Hst'.
Qed.

(** Reading a text file as csv never raises in the reader. *)
Lemma reader_text_no_error (data : string) :
  snd (csv.reader (io.readlines (io.universal_newlines data))) = None.
Proof.
  apply reader_from_no_error.
  - apply text_lines_readlines, no_cr_universal_newlines.
  - now left.
Qed.

Lemma read_text_exists (fs : os.filesystem) (p data : string) :
  os.read_text fs p = Ok data -> os.path_exists fs p = true.
Proof.
  unfold os.read_text, os.path_exists, os.stat.
  destruct (os.resolve fs p) as [r | e]; [| discriminate].
  destruct (os.node_at fs r) as [[d |] |]; [reflexivity | discriminate ..].
Qed.

Lemma load_existing_data_rows (csv_file : string) (st : state) (data : string) :
  os.read_text (files st) csv_file = Ok data ->
  let rows := fst (csv.reader (io.readlines (io.universal_newlines data))) in
  load_existing_data csv_file st
  = (fst (load_rows rows (key_counter st)),
     set_key_counter st (snd (load_rows rows (key_counter st)))).
Proof.
  intros Hread rows. unfold load_existing_data.
  rewrite (read_text_exists _ _ _ Hread), Hread.
  pose proof (reader_text_no_error data) as Herr. subst rows.
  destruct (csv.reader _) as [rows err]. simpl in *. subst err.
  destruct (load_rows rows (key_counter st)) as [[] c]; reflexivity.
Qed.

Lemma load_rows_skip (row : list string) (rows : list (list string))
  (c : Counter) :
  two_fields row = false -> load_rows (row :: rows) c = load_rows rows c.
Proof. unfold two_fields. intros H. simpl. now rewrite H. Qed.

Lemma load_rows_assign (k v : string) (n : Z) (rows : list (list string))
  (c : Counter) :
  Py.int v = Some n -> load_rows ([k; v] :: rows) c = load_rows rows (setitem c k n).
Proof. intros H. simpl. now rewrite H. Qed.

Lemma load_rows_filter (rows : list (list string)) (c : Counter) :
  load_rows rows c = load_rows (List.filter two_fields rows) c.
Proof.
  revert c. induction rows as [|row rows IH]; intros c; [reflexivity |].
  cbn [List.filter]. destruct (two_fields row) eqn:H.
  - unfold two_fields in H. simpl. rewrite H.
    destruct (Py.int _); [apply IH | reflexivity].
  - rewrite load_rows_skip by assumption. apply IH.
Qed.

Lemma load_rows_integers (rows : list (list string)) (c : Counter) :
  forallb two_fields rows = true ->
  forallb integer_field rows = true ->
  load_rows rows c = (Normal, fold_left assign rows c).
Proof.
  revert c. induction rows as [|row rows IH]; intros c H2 Hint; [reflexivity |].
  simpl in H2, Hint.
  apply andb_true_iff in H2 as [H2 H2'].
  apply andb_true_iff in Hint as [Hint Hint'].
  unfold two_fields in H2. unfold integer_field in Hint.
  simpl. rewrite H2. unfold assign at 2.
  destruct (Py.int (nth 1 row EmptyString)); [| discriminate].
  now apply IH.
Qed.

Lemma forallb_filter_same {A : Type} (f : A -> bool) (l : list A) :
  forallb f (List.filter f l) = true.
Proof.
  induction l as [|x l IH]; [reflexivity |].
  simpl. destruct (f x) eqn:H; [simpl; now rewrite H | exact IH].
Qed.

(** C9. Where no file exists at the path, [load_existing_data] completes
    without raising and leaves the state, and so the table, as it was: an
    empty table stays empty.  Where a file can be read there, the table is
    the result of running the row loop over the records parsed from it. *)
Theorem load_missing_file_is_no_error (csv_file : string) (st : state) :
  (os.path_exists (files st) csv_file = false ->
   load_existing_data csv_file st = (Normal, st)
   /\ (key_counter st = [] ->
       key_counter (snd (load_existing_data csv_file st)) = []))
  /\ (forall data,
         os.read_text (files st) csv_file = Ok data ->
         let rows := fst (csv.reader (io.readlines (io.universal_newlines data))) in
         load_existing_data csv_file st
         = (fst (load_rows rows (key_counter st)),
            set_key_counter st (snd (load_rows rows (key_counter st))))).
Proof.
  split.
  - intros H. unfold load_existing_data. rewrite H. auto.
  - intros data H. apply load_existing_data_rows, H.
Qed.

Lemma load_missing_file_is_no_error_witness :
  os.path_exists (files Sample.fresh) "data/keys.csv" = false
  /\ load_existing_data "data/keys.csv" Sample.fresh = (Normal, Sample.fresh)
  /\ os.read_text (files Sample.with_store) "keys.csv" = Ok Sample.stored_text
  /\ key_counter (snd (load_existing_data "keys.csv" Sample.with_store))
     = [("30", 5); ("57", 12)].
Proof.
  destruct (load_missing_file_is_no_error "data/keys.csv" Sample.fresh)
    as [Hmissing _].
  destruct (load_missing_file_is_no_error "keys.csv" Sample.with_store)
    as [_ Hpresent].
  split; [reflexivity | split; [apply Hmissing; reflexivity | split; [reflexivity |]]].
  rewrite (Hpresent Sample.stored_text eq_refl). reflexivity.
Defined.

Lemma load_rows_app (before after : list (list string)) (c c1 : Counter) :
  load_rows before c = (Normal, c1) ->
  load_rows (before ++ after) c = load_rows after c1.
Proof.
  revert c. induction before as [|row before IH]; intros c H; simpl in *.
  - now injection H as ->.
  - destruct (length row =? 2)%nat; [| now apply IH].
    destruct (Py.int (nth 1 row EmptyString)); [now apply IH | discriminate].
Qed.

(** The loop over the rows stops at the first two-field row whose count is
    not an integer, with the rows before it assigned. *)
Lemma load_rows_stop (before after : list (list string)) (bad : list string)
  (c : Counter) :
  forallb two_fields (before ++ bad :: after) = true ->
  forallb integer_field before = true ->
  integer_field bad = false ->
  load_rows (before ++ bad :: after) c
  = (Raised ValueError, fold_left assign before c).
Proof.
  intros Htwo Hbefore Hbad.
  rewrite forallb_app in Htwo. apply andb_true_iff in Htwo as [Htwo Htwo'].
  simpl in Htwo'. apply andb_true_iff in Htwo' as [Hbad2 _].
  rewrite (load_rows_app before _ _ _ (load_rows_integers _ _ Htwo Hbefore)).
  simpl. unfold two_fields in Hbad2. rewrite Hbad2.
  unfold integer_field in Hbad.
  destruct (Py.int (nth 1 bad EmptyString)); [discriminate | reflexivity].
Qed.

(** Either every row has an integer count, or there is a first one that
    has not. *)
Lemma first_non_integer (rows : list (list string)) :
  forallb integer_field rows = true
  \/ exists before bad after,
      rows = before ++ bad :: after
      /\ forallb integer_field before = true
      /\ integer_field bad = false.
Proof.
  induction rows as [|row rows IH]; [now left |]. simpl.
  destruct (integer_field row) eqn:Hrow.
  - destruct IH as [-> | (before & bad & after & -> & Hb & Hbad)]; [now left |].
    right. exists (row :: before), bad, after. simpl. now rewrite Hrow, Hb.
  - right. now exists [], row, rows.
Qed.

(** C10, as the code has it.  For a store file that can be read, only the
    rows of exactly two fields matter: every other row adds nothing to the
    table and raises nothing, and neither does the csv reader.  The rows of
    two fields are taken in order.  One whose second field [int] accepts
    sets the count of its first field; when every two-field row is of that
    kind the load completes normally with exactly these assignments made in
    order.  The first one whose second field [int] rejects raises
    [ValueError] and ends the load: the rows before it have been assigned
    and the rows after it set nothing. *)
Theorem load_ignores_rows_without_two_fields (csv_file : string) (st : state)
  (data : string) :
  os.read_text (files st) csv_file = Ok data ->
  let rows := fst (csv.reader (io.readlines (io.universal_newlines data))) in
  let kept := List.filter two_fields rows in
  snd (csv.reader (io.readlines (io.universal_newlines data))) = None
  /\ load_existing_data csv_file st
     = (fst (load_rows kept (key_counter st)),
        set_key_counter st (snd (load_rows kept (key_counter st))))
  /\ (forallb integer_field kept = true ->
      load_existing_data csv_file st
      = (Normal, set_key_counter st (fold_left assign kept (key_counter st))))
  /\ (forall before bad after,
         kept = before ++ bad :: after ->
         forallb integer_field before = true ->
         integer_field bad = false ->
         load_existing_data csv_file st
         = (Raised ValueError,
            set_key_counter st (fold_left assign before (key_counter st))))
  /\ (forallb integer_field kept = true
      \/ exists before bad after,
          kept = before ++ bad :: after
          /\ forallb integer_field before = true
          /\ integer_field bad = false)
  /\ (forall row rest c,
         two_fields row = false -> load_rows (row :: rest) c = load_rows rest c)
  /\ (forall k v n rest c,
         Py.int v = Some n ->
         load_rows ([k; v] :: rest) c = load_rows rest (setitem c k n)
         /\ get (setitem c k n) k = Some n).
Proof.
  intros Hread rows kept.
  assert (load_existing_data csv_file st
          = (fst (load_rows kept (key_counter st)),
             set_key_counter st (snd (load_rows kept (key_counter st)))))
    as Hload.
  { rewrite (load_existing_data_rows _ _ _ Hread). fold rows.
    now rewrite (load_rows_filter rows). }
  split; [apply reader_text_no_error |].
  split; [exact Hload |].
  split; [| split; [| split; [apply first_non_integer | split]]].
  - intros Hint. rewrite Hload.
    rewrite (load_rows_integers kept); [reflexivity | | exact Hint].
    apply forallb_filter_same.
  - intros before bad after Hkept Hbefore Hbad. rewrite Hload, Hkept.
    rewrite (load_rows_stop before after bad _); [reflexivity | | assumption ..].
    rewrite <- Hkept. apply forallb_filter_same.
  - intros row rest c. apply load_rows_skip.
  - intros k v n rest c Hv. split; [now apply load_rows_assign |].
    apply get_setitem_eq.
Qed.

Lemma load_ignores_rows_without_two_fields_witness :
  os.read_text (files Sample.with_store) "keys.csv" = Ok Sample.stored_text
  /\ fst (csv.reader (io.readlines (io.universal_newlines Sample.stored_text)))
     = [["30"; "5"]; ["header"]; []; ["1"; "2"; "3"]; ["57"; " 12 "]]
  /\ load_existing_data "keys.csv" Sample.with_store
     = (Normal, set_key_counter Sample.with_store [("30", 5); ("57", 12)]).
Proof.
  split; [reflexivity | split; [reflexivity |]].
  destruct (load_ignores_rows_without_two_fields "keys.csv" Sample.with_store
              Sample.stored_text eq_refl) as (_ & _ & H & _).
  rewrite H; reflexivity.
Defined.

(** C10 as stated fails: in a store whose first line is a header, the line
    after it has two fields and a decimal integer as its second, and yet it
    sets nothing: the header is a two-field line itself, [int] rejects its
    second field, and the [ValueError] ends the load before the next line
    is looked at. *)
Lemma line_after_header_sets_nothing :
  let st := Scenario.store_with Scenario.header_text [] in
  fst (csv.reader (io.readlines (io.universal_newlines Scenario.header_text)))
  = [["key"; "count"]; ["30"; "5"]]
  /\ Py.int "5" = Some 5
  /\ load_existing_data "data/keys.csv" st = (Raised ValueError, st)
  /\ get (key_counter (snd (load_existing_data "data/keys.csv" st))) "30"
     = None.
Proof. repeat split; reflexivity. Qed.

(** ** Privilege failure *)

Lemma open_all_denied (opened : list evdev.InputDevice) (e : exn)
  (rest : list (result evdev.InputDevice)) :
  open_all (map Ok opened ++ Raise e :: rest) = Raise e.
Proof.
  induction opened as [|d opened IH]; simpl; [reflexivity | now rewrite IH].
Qed.

(** C5, as the code has it.  When a listed device cannot be opened for lack
    of privilege (and the store was loaded without error), the script prints
    the one line "Permission denied. Try running the script with sudo.",
    changes nothing else, does not enter the monitor loop or try again, and
    the process ends with exit status 0. *)
Theorem permission_denied_prints_hint_and_exits (env : environment)
  (csv_file : string) (st st1 : state) (opened : list evdev.InputDevice)
  (rest : list (result evdev.InputDevice)) :
  load_existing_data csv_file st = (Normal, st1) ->
  listed env = map Ok opened ++ Raise PermissionError :: rest ->
  find_keyboards (listed env) = Raise PermissionError
  /\ script env csv_file st
     = (Some 0,
        print "Permission denied. Try running the script with sudo." st1).
Proof.
  intros Hload Hlisted.
  assert (find_keyboards (listed env) = Raise PermissionError) as Hfind.
  { unfold find_keyboards. now rewrite Hlisted, open_all_denied. }
  split; [exact Hfind |].
  unfold script, main. now rewrite Hload, Hfind.
Qed.

Lemma permission_denied_prints_hint_and_exits_witness :
  load_existing_data "data/keys.csv" Sample.fresh = (Normal, Sample.fresh)
  /\ listed Sample.denied
     = map Ok [Sample.keyboard] ++ Raise PermissionError :: [Ok Sample.keypad]
  /\ script Sample.denied "data/keys.csv" Sample.fresh
     = (Some 0,
        print "Permission denied. Try running the script with sudo."
          Sample.fresh).
Proof.
  split; [reflexivity | split; [reflexivity |]].
  apply (permission_denied_prints_hint_and_exits Sample.denied "data/keys.csv"
           Sample.fresh Sample.fresh [Sample.keyboard] [Ok Sample.keypad]);
    reflexivity.
Defined.

(** C5 as stated fails: with a device that cannot be opened for lack of
    privilege, the process prints the hint and its exit status is 0, not a
    non-zero one. *)
Lemma permission_denied_exit_status_is_zero :
  find_keyboards (listed Sample.denied) = Raise PermissionError
  /\ stdout (snd (script Sample.denied "data/keys.csv" Sample.fresh))
     = ["Permission denied. Try running the script with sudo."]
  /\ fst (script Sample.denied "data/keys.csv" Sample.fresh) = Some 0
  /\ fst (script Sample.denied "data/keys.csv" Sample.fresh) <> Some 1.
Proof. repeat split; [reflexivity .. | discriminate]. Qed.

(** ** Failure of a periodic save *)

Lemma mkdir_exist_ok_not_blocked (name : string) (fs : os.filesystem) :
  fst (os.mkdir_exist_ok name fs) <> Blocked.
Proof.
  unfold os.mkdir_exist_ok. destruct (os.mkdir fs name); [discriminate |].
  destruct (os.path_isdir fs name); discriminate.
Qed.

Lemma makedirs_rec_not_blocked (fuel : nat) (name : string)
  (fs : os.filesystem) :
  fst (os.makedirs_rec fuel name fs) <> Blocked.
Proof.
  revert name fs. induction fuel as [|fuel IH]; intros name fs; simpl;
    [discriminate |].
  destruct (os.path.split name) as [head tail].
  destruct (if os.nonempty tail then (head, tail) else os.path.split head)
    as [head' tail'].
  destruct (_ && _); [| apply mkdir_exist_ok_not_blocked].
  specialize (IH head' fs).
  destruct (os.makedirs_rec fuel head' fs) as [[| e |] fs1]; simpl in *.
  - destruct (String.eqb tail' "."); [discriminate |].
    apply mkdir_exist_ok_not_blocked.
  - destruct e; try discriminate.
    destruct (String.eqb tail' "."); [discriminate |].
    apply mkdir_exist_ok_not_blocked.
  - congruence.
Qed.

Lemma save_data_not_blocked (csv_file : string) (st : state) :
  fst (save_data csv_file st) <> Blocked.
Proof.
  unfold save_data, os.makedirs.
  pose proof (makedirs_rec_not_blocked
                (S (String.length (os.path.dirname csv_file)))
                (os.path.dirname csv_file) (files st)) as H.
  destruct (os.makedirs_rec _ _ _) as [[| e |] fs]; simpl in *;
    [| discriminate | congruence].
  unfold os.write_text.
  destruct (os.resolve fs csv_file) as [r | e]; [| discriminate].
  destruct (os.node_at fs r) as [[d |] |]; try discriminate;
    destruct (os.write_faults fs) as [|[[e | e written] |] faults]; discriminate.
Qed.

Lemma periodic_save_app (csv_file : string) (before after : list tick)
  (st st1 : state) :
  periodic_save csv_file before st = (Blocked, st1) ->
  periodic_save csv_file (before ++ after) st
  = periodic_save csv_file after st1.
Proof.
  revert st. induction before as [|t before IH]; intros st H; simpl in *.
  - now injection H as ->.
  - pose proof (save_data_not_blocked csv_file
                  (set_key_counter st (tk_counter t))) as Hnb.
    destruct (save_data csv_file (set_key_counter st (tk_counter t)))
      as [[| e |] st'];
      [now apply IH | discriminate | now simpl in Hnb].
Qed.

Lemma stdout_save_data (csv_file : string) (st : state) :
  stdout (snd (save_data csv_file st)) = stdout st
  /\ key_counter (snd (save_data csv_file st)) = key_counter st.
Proof.
  unfold save_data.
  destruct (os.makedirs _ _) as [[| e |] fs]; simpl; auto.
  destruct (os.write_text _ _ _) as [r fs']. simpl. auto.
Qed.

Lemma key_counter_save_data (csv_file : string) (st : state) :
  key_counter (snd (save_data csv_file st)) = key_counter st.
Proof. apply stdout_save_data. Qed.

(** The main thread beside the saver thread: its loop ends as [monitor]
    ends on the returns of [select] alone, with the same table. *)
Lemma threads_main (keys : Z -> option evdev.keycode)
  (devices : gmap Z evdev.InputDevice) (csv_file : string)
  (turns : list turn) (saver : completion) (st : state) :
  fst (fst (threads keys devices csv_file turns saver st))
  = fst (monitor keys devices (selects_of turns) (key_counter st))
  /\ key_counter (snd (threads keys devices csv_file turns saver st))
     = snd (monitor keys devices (selects_of turns) (key_counter st)).
Proof.
  revert saver st.
  induction turns as [|[[r | e] | ctime] turns IH]; intros saver st;
    cbn [threads selects_of monitor].
  - split; reflexivity.
  - destruct (handle_ready keys devices r (key_counter st)) as [[| e |] c];
      [apply (IH saver (set_key_counter st c)) | split; reflexivity ..].
  - split; reflexivity.
  - destruct saver as [| e |]; try apply IH.
    pose proof (key_counter_save_data csv_file st) as Hc.
    destruct (save_data csv_file st) as [[| e |] st']; simpl in Hc;
      rewrite <- Hc;
      [apply (IH Blocked (print ("Data saved at " +:+ ctime) st'))
      | apply (IH (Raised e) st') | apply (IH Blocked st')].
Qed.

(** Once the saver thread has ended it does nothing more: the files and
    the standard output stay as they are, whatever turns follow. *)
Lemma threads_saver_ended (keys : Z -> option evdev.keycode)
  (devices : gmap Z evdev.InputDevice) (csv_file : string)
  (turns : list turn) (e : exn) (st : state) :
  let run := threads keys devices csv_file turns (Raised e) st in
  snd (fst run) = Raised e
  /\ files (snd run) = files st
  /\ stdout (snd run) = stdout st.
Proof.
  cbv zeta. revert st.
  induction turns as [|[[r | e'] | ctime] turns IH]; intros st;
    cbn [threads].
  - repeat split.
  - destruct (handle_ready keys devices r (key_counter st)) as [[| e' |] c];
      [apply (IH (set_key_counter st c)) | repeat split ..].
  - repeat split.
  - apply IH.
Qed.

(** C6, as the code has it.  A failure of the periodic save is not caught by
    [periodic_save]: when the saves of the earlier ticks went through and the
    save of one tick raises, the loop ends with that exception at that tick.
    Nothing is printed for the failed save, and the ticks after it are never
    attempted: whatever they are, the outcome is the same.  The failure ends
    the saver thread and not the process: beside the saver thread, the loop
    of the main thread ends as it ends without one, with the same counts,
    and from the failed save on the files and the standard output are left
    alone. *)
Theorem periodic_save_stops_at_write_failure (csv_file : string)
  (before after : list tick) (t : tick) (st st1 st2 : state) (e : exn) :
  periodic_save csv_file before st = (Blocked, st1) ->
  save_data csv_file (set_key_counter st1 (tk_counter t)) = (Raised e, st2) ->
  (periodic_save csv_file (before ++ t :: after) st = (Raised e, st2)
   /\ stdout st2 = stdout st1)
  /\ (forall keys devices turns saver s,
         let run := threads keys devices csv_file turns saver s in
         fst (fst run)
         = fst (monitor keys devices (selects_of turns) (key_counter s))
         /\ key_counter (snd run)
            = snd (monitor keys devices (selects_of turns) (key_counter s)))
  /\ (forall keys devices ctime turns s s' e',
         save_data csv_file s = (Raised e', s') ->
         let run := threads keys devices csv_file (WakeUp ctime :: turns)
                      Blocked s in
         snd (fst run) = Raised e'
         /\ files (snd run) = files s'
         /\ stdout (snd run) = stdout s).
Proof.
  intros Hbefore Hsave. split; [split | split].
  - rewrite (periodic_save_app _ _ _ _ _ Hbefore). simpl. now rewrite Hsave.
  - pose proof (stdout_save_data csv_file (set_key_counter st1 (tk_counter t)))
      as [H _].
    now rewrite Hsave in H.
  - intros keys devices turns saver s. apply threads_main.
  - intros keys devices ctime turns s s' e' Hs. cbv zeta. cbn [threads].
    rewrite Hs.
    destruct (threads_saver_ended keys devices csv_file turns e' s')
      as (H1 & H2 & H3).
    pose proof (stdout_save_data csv_file s) as [Hout _].
    rewrite Hs in Hout. simpl in Hout.
    repeat split; [exact H1 | exact H2 | now rewrite H3].
Qed.

Lemma periodic_save_stops_at_write_failure_witness :
  fst (periodic_save "data/keys.csv" [hd (mkTick [] "") Sample.three_ticks]
         Sample.disk_full_at_second)
  = Blocked
  /\ fst (periodic_save "data/keys.csv" Sample.three_ticks
            Sample.disk_full_at_second)
     = Raised OSError
  /\ stdout (snd (periodic_save "data/keys.csv" Sample.three_ticks
                    Sample.disk_full_at_second))
     = ["Data saved at Mon Jan  1 00:01:00 2024"].
Proof.
  split; [reflexivity |].
  destruct (periodic_save_stops_at_write_failure "data/keys.csv"
              [mkTick [("30", 1)] "Mon Jan  1 00:01:00 2024"]
              [mkTick [("30", 3)] "Mon Jan  1 00:03:00 2024"]
              (mkTick [("30", 2)] "Mon Jan  1 00:02:00 2024")
              Sample.disk_full_at_second
              (snd (periodic_save "data/keys.csv"
                      [mkTick [("30", 1)] "Mon Jan  1 00:01:00 2024"]
                      Sample.disk_full_at_second))
              (snd (periodic_save "data/keys.csv" Sample.three_ticks
                      Sample.disk_full_at_second))
              OSError eq_refl eq_refl) as [[H Hout] _].
  simpl app in H. unfold Sample.three_ticks. rewrite H.
  split; [reflexivity | exact Hout].
Defined.

(** C6 as stated fails: one failed write ends the saver.  Of three scheduled
    saves the first goes through and is logged; the second finds the disk
    full: no line is logged for it, the file that [open] has truncated is
    left empty, and the third save is never attempted, although it would
    have gone through. *)
Lemma write_failure_ends_periodic_save :
  let run := periodic_save "data/keys.csv" Sample.three_ticks
               Sample.disk_full_at_second in
  fst run = Raised OSError
  /\ stdout (snd run) = ["Data saved at Mon Jan  1 00:01:00 2024"]
  /\ os.read_text (files (snd run)) "data/keys.csv" = Ok EmptyString
  /\ fst (save_data "data/keys.csv" (set_key_counter (snd run) [("30", 3)]))
     = Normal.
Proof. repeat split; reflexivity. Qed.

(** ** A read error in the monitor loop *)

(** C7, as the code has it.  When reading a monitored device raises, the
    exception leaves the monitor loop at once: the counts are those reached
    just before the failed read, and neither the descriptors reported after
    it in the same round nor any later round is processed, whatever they
    hold; no device is dropped and nothing is retried.  An exception other
    than a keyboard interrupt or a permission error that leaves [main] ends
    the process with exit status 1, without a final save. *)
Theorem read_error_ends_monitoring (keys : Z -> option evdev.keycode)
  (devices : gmap Z evdev.InputDevice) (before after : list select_result)
  (ready_before ready_after : list (Z * read_result)) (fd : Z) (e : exn)
  (c c1 c2 : Counter) :
  monitor keys devices before c = (Blocked, c1) ->
  handle_ready keys devices ready_before c1 = (Normal, c2) ->
  is_Some (devices !! fd) ->
  monitor keys devices
    (before ++ Ready (ready_before ++ (fd, ReadRaises e) :: ready_after) :: after)
    c
  = (Raised e, c2)
  /\ (forall env csv_file st st',
         main env csv_file st = (Raised e, st') ->
         e <> KeyboardInterrupt -> e <> PermissionError ->
         script env csv_file st = (Some 1, st')).
Proof.
  intros Hbefore Hready [dev Hdev]. split.
  - rewrite (monitor_app _ _ _ _ _ _ Hbefore). simpl.
    rewrite (handle_ready_app _ _ _ _ _ _ Hready). simpl.
    now rewrite Hdev.
  - intros env csv_file st st' Hmain Hk Hp. unfold script. rewrite Hmain.
    destruct e; congruence.
Qed.

Lemma read_error_ends_monitoring_witness :
  monitor Sample.key_table (by_fd [Sample.keyboard; Sample.keypad]) [] []
  = (Blocked, [])
  /\ is_Some (by_fd [Sample.keyboard; Sample.keypad] !! 3)
  /\ monitor Sample.key_table (by_fd [Sample.keyboard; Sample.keypad])
       (selects Sample.unplugged) []
     = (Raised OSError, []).
Proof.
  split; [reflexivity | split; [now eexists |]].
  apply (read_error_ends_monitoring Sample.key_table
           (by_fd [Sample.keyboard; Sample.keypad]) []
           [Ready [(7, Events [Sample.press 30; Sample.release 30])]]
           [] [(7, Events [Sample.press 30])] 3 OSError [] [] []);
    [reflexivity | reflexivity | now eexists].
Defined.

(** C7 as stated fails: with two keyboards monitored, a read error on the
    first ends the whole run.  The key presses pending and still to come on
    the second keyboard are never counted, and the process ends with exit
    status 1; had the failed device been dropped, the second keyboard's two
    presses would have been counted. *)
Lemma read_error_stops_all_devices :
  let run := script Sample.unplugged "data/keys.csv" Sample.fresh in
  find_keyboards (listed Sample.unplugged)
  = Ok [Sample.keyboard; Sample.keypad]
  /\ fst run = Some 1
  /\ key_counter (snd run) = []
  /\ os.path_exists (files (snd run)) "data/keys.csv" = false
  /\ snd (monitor Sample.key_table (by_fd [Sample.keypad])
            [Ready [(7, Events [Sample.press 30])];
             Ready [(7, Events [Sample.press 30; Sample.release 30])]] [])
     = [("30", 2)].
Proof. repeat split; reflexivity. Qed.

(** ** Writing the store *)

Lemma dirname_bare (name : string) :
  os.path.dirname name = EmptyString ->
  forall fs, os.makedirs (os.path.dirname name) fs = (Raised FileNotFoundError, fs).
Proof. intros -> fs. reflexivity. Qed.

(** C8 at the failing inputs.  For a path without a directory part (a bare
    file name such as "keys.csv") [save_data] raises [FileNotFoundError]
    from [os.makedirs] and writes nothing: the state, with any earlier
    content of the file, is left as it was. *)
Theorem save_data_bare_file_name_raises (csv_file : string) (st : state) :
  os.path.dirname csv_file = EmptyString ->
  save_data csv_file st = (Raised FileNotFoundError, st).
Proof.
  intros H. unfold save_data. rewrite (dirname_bare _ H).
  destruct st; reflexivity.
Qed.

Lemma save_data_bare_file_name_raises_witness :
  os.path.dirname "keys.csv" = EmptyString
  /\ save_data "keys.csv" (set_key_counter Sample.with_store [("30", 7)])
     = (Raised FileNotFoundError,
        set_key_counter Sample.with_store [("30", 7)])
  /\ os.read_text (files Sample.with_store) "keys.csv"
     = Ok Sample.stored_text.
Proof.
  split; [reflexivity | split; [| reflexivity]].
  apply (save_data_bare_file_name_raises "keys.csv"). reflexivity.
Defined.

Lemma walk_insert_file (fs : os.filesystem) (r : list string) (data : string)
  (faults : list (option os.write_fault)) (comps cur target : list string) :
  os.node_at fs r <> Some os.Directory ->
  os.walk fs cur comps = Ok target ->
  os.walk (os.mkFs (<[r := os.RegularFile data]> (os.nodes fs)) (os.cwd fs) faults)
    cur comps
  = Ok target.
Proof.
  intros Hr. revert cur. induction comps as [|c comps IH]; intros cur H.
  - exact H.
  - simpl in H.
    destruct (os.node_at fs cur) as [[d |] |] eqn:Hcur; try discriminate.
    assert (os.node_at
              (os.mkFs (<[r := os.RegularFile data]> (os.nodes fs)) (os.cwd fs)
                 faults) cur = Some os.Directory) as Hcur'.
    { destruct cur as [|x cur]; [reflexivity |].
      simpl in *. rewrite lookup_insert_ne; [exact Hcur |].
      intros ->. apply Hr. exact Hcur. }
    simpl. rewrite Hcur'.
    destruct (String.eqb c EmptyString || String.eqb c ".");
      [now apply IH |].
    destruct (String.eqb c ".."); now apply IH.
Qed.

(** A file that was written is there and reads back as written. *)
Lemma write_text_read_text (fs fs' : os.filesystem) (p data : string) :
  os.write_text fs p data = (Normal, fs') ->
  os.read_text fs' p = Ok data.
Proof.
  unfold os.write_text, os.read_text, os.resolve.
  destruct p as [|c p]; [discriminate |].
  destruct (os.walk fs _ _) as [r | e] eqn:Hwalk; [| discriminate].
  intros H.
  assert (os.node_at fs r <> Some os.Directory
          /\ exists faults,
              fs' = os.mkFs (<[r := os.RegularFile data]> (os.nodes fs))
                      (os.cwd fs) faults) as [Hr [faults ->]].
  { destruct (os.node_at fs r) as [[d |] |];
      try discriminate;
      (split; [discriminate |]);
      destruct (os.write_faults fs) as [|[[e | e written] |] faults];
      try discriminate; injection H as <-; eauto. }
  simpl os.cwd.
  rewrite (walk_insert_file fs r data faults _ _ r Hr Hwalk).
  destruct r as [|x r]; [now destruct Hr |].
  simpl. now rewrite lookup_insert_eq.
Qed.

(** After a save that completes, the file holds exactly the rows of the
    table, whatever it held before. *)
Lemma save_data_file_content (csv_file : string) (st st' : state) :
  save_data csv_file st = (Normal, st') ->
  os.read_text (files st') csv_file = Ok (rows_text (key_counter st))
  /\ key_counter st' = key_counter st
  /\ stdout st' = stdout st.
Proof.
  unfold save_data.
  destruct (os.makedirs _ _) as [[| e |] fs]; try discriminate.
  destruct (os.write_text _ _ _) as [r fs'] eqn:Hw.
  intros H. injection H as -> <-. simpl.
  split; [now apply (write_text_read_text fs) | auto].
Qed.

(** ** Integers as text *)

Lemma all_digits_string_of_uint (d : Decimal.uint) :
  all_digits (NilEmpty.string_of_uint d) = true.
Proof. induction d; simpl; auto. Qed.

Lemma scan_digits_all (s : string) :
  all_digits s = true -> Py.scan_digits false s = Some (s, EmptyString).
Proof.
  induction s as [|c s IH]; simpl; [reflexivity |].
  intros H. apply andb_true_iff in H as [Hc Hs].
  now rewrite Hc, (IH Hs).
Qed.

Lemma digit_first (c : ascii) :
  Py.isdigit c = true ->
  Py.isspace c = false /\ Ascii.eqb c "+" = false /\ Ascii.eqb c "-" = false
  /\ Ascii.eqb c Py.underscore = false /\ csv.special c = false
  /\ Ascii.eqb c Py.CR = false.
Proof.
  destruct c as [[] [] [] [] [] [] [] []]; vm_compute; intros H;
    repeat split; congruence.
Qed.

Lemma digits_value_string_of_uint (d : Decimal.uint) :
  d <> Decimal.Nil ->
  Py.digits_value (NilEmpty.string_of_uint d) = Some (Z.of_uint d).
Proof.
  intros Hd. pose proof (all_digits_string_of_uint d) as Hall.
  pose proof (NilEmpty.usu d) as Husu.
  unfold Py.digits_value. rewrite (scan_digits_all _ Hall).
  destruct (NilEmpty.string_of_uint d) as [|c s] eqn:Hs.
  - destruct d; simpl in Hs; congruence.
  - simpl in Hall. apply andb_true_iff in Hall as [Hc _].
    destruct (digit_first c Hc) as (_ & _ & _ & Hu & _).
    rewrite Hu. simpl Py.all_space. cbv iota. now rewrite Husu.
Qed.

Lemma digit_isascii (c : ascii) :
  Py.isdigit c = true -> (Py.byte c <? 0x80) = true.
Proof. destruct c as [[] [] [] [] [] [] [] []]; vm_compute; congruence. Qed.

Lemma all_digits_isascii (s : string) :
  all_digits s = true -> Py.isascii s = true.
Proof.
  induction s as [|c s IH]; [reflexivity |]. simpl.
  intros H. apply andb_true_iff in H as [Hc Hs].
  now rewrite (digit_isascii c Hc), (IH Hs).
Qed.

Lemma isascii_str_int (n : Z) : Py.isascii (Py.str_int n) = true.
Proof.
  unfold Py.str_int.
  destruct n as [| p | p]; simpl Z.to_int; simpl NilEmpty.string_of_int.
  - reflexivity.
  - apply all_digits_isascii, all_digits_string_of_uint.
  - cbn [Py.isascii].
    now rewrite (all_digits_isascii _ (all_digits_string_of_uint (Pos.to_uint p))).
Qed.

(** An ASCII text is read as it is. *)
Lemma int_isascii (s : string) :
  Py.isascii s = true -> Py.int s = Py.long_from_string s.
Proof. unfold Py.int. now intros ->. Qed.

(** [int(str(n)) = n] *)
Lemma int_str_int (n : Z) : Py.int (Py.str_int n) = Some n.
Proof.
  rewrite (int_isascii _ (isascii_str_int n)).
  unfold Py.str_int.
  pose proof (DecimalZ.of_to n) as Hn.
  destruct n as [| p | p]; simpl Z.to_int; simpl NilEmpty.string_of_int.
  - reflexivity.
  - pose proof (digits_value_string_of_uint _ (Unsigned.to_uint_nonnil p)) as H.
    pose proof (all_digits_string_of_uint (Pos.to_uint p)) as Hall.
    unfold Py.long_from_string.
    destruct (NilEmpty.string_of_uint (Pos.to_uint p)) as [|c s] eqn:Hs;
      [discriminate |].
    simpl in Hall. apply andb_true_iff in Hall as [Hc _].
    destruct (digit_first c Hc) as (Hsp & Hplus & Hminus & _).
    simpl Py.lstrip. rewrite Hsp, Hplus, Hminus, H. exact (f_equal Some Hn).
  - pose proof (digits_value_string_of_uint _ (Unsigned.to_uint_nonnil p)) as H.
    unfold Py.long_from_string. simpl Py.lstrip.
    change (Py.isspace "-") with false.
    cbv iota. change (Ascii.eqb "-" "+") with false.
    change (Ascii.eqb "-" "-") with true. cbv iota.
    rewrite H. exact (f_equal Some Hn).
Qed.

Lemma str_int_plain (n : Z) :
  csv.has_special (Py.str_int n) = false
  /\ no_cr (Py.str_int n) = true
  /\ Py.str_int n <> EmptyString.
Proof.
  assert (forall s, all_digits s = true ->
                    csv.has_special s = false /\ no_cr s = true) as Hall.
  { induction s as [|c s IH]; simpl; [auto |].
    intros H. apply andb_true_iff in H as [Hc Hs].
    destruct (digit_first c Hc) as (_ & _ & _ & _ & Hsp & Hcr).
    destruct (IH Hs) as [-> ->]. now rewrite Hsp, Hcr. }
  assert (forall d, d <> Decimal.Nil ->
                    NilEmpty.string_of_uint d <> EmptyString) as Hne.
  { intros d Hd. destruct d; simpl; congruence. }
  unfold Py.str_int.
  destruct n as [| p | p]; simpl Z.to_int; simpl NilEmpty.string_of_int.
  - repeat split; discriminate.
  - destruct (Hall _ (all_digits_string_of_uint (Pos.to_uint p))) as [H1 H2].
    repeat split; [assumption .. |]. apply Hne, Unsigned.to_uint_nonnil.
  - destruct (Hall _ (all_digits_string_of_uint (Pos.to_uint p))) as [H1 H2].
    repeat split; [simpl; now rewrite H1 | simpl; now rewrite H2 | discriminate].
Qed.

(** ** The store round trip *)

Lemma universal_newlines_plain (a b : string) :
  no_cr a = true ->
  io.universal_newlines (a +:+ b) = a +:+ io.universal_newlines b.
Proof.
  induction a as [|c a IH]; intros H; [reflexivity |].
  simpl in H. apply andb_true_iff in H as [Hc Ha].
  apply negb_true_iff in Hc.
  rewrite !append_cons. simpl. now rewrite Hc, (IH Ha).
Qed.

Lemma no_cr_append (a b : string) :
  no_cr (a +:+ b) = no_cr a && no_cr b.
Proof.
  induction a as [|c a IH]; [reflexivity |].
  rewrite append_cons. simpl. now rewrite IH, andb_assoc.
Qed.

Lemma no_cr_field_data (s : string) :
  no_cr (csv.field_data s) = no_cr s.
Proof.
  induction s as [|c s IH]; [reflexivity |].
  simpl. destruct (Ascii.eqb_spec c Py.dquote) as [->|Hq]; simpl;
    now rewrite IH.
Qed.

Lemma no_cr_encoded (s : string) : no_cr (encoded s) = no_cr s.
Proof.
  unfold encoded. destruct (csv.has_special s); [| reflexivity].
  cbn [no_cr]. rewrite no_cr_append, no_cr_field_data. simpl.
  now rewrite andb_true_r.
Qed.

Lemma join_append_first (field : string) :
  csv.join_append 0 field false = encoded field.
Proof. reflexivity. Qed.

Lemma join_append_next (n : nat) (field : string) :
  csv.has_special field = false ->
  csv.join_append (S n) field false = String Py.comma field.
Proof. unfold csv.join_append. intros ->. reflexivity. Qed.

Lemma writerow_item (key : string) (count : Z) :
  csv.writerow [key; Py.str_int count]
  = encoded key
    +:+ String Py.comma (Py.str_int count +:+ csv.lineterminator).
Proof.
  destruct (str_int_plain count) as (Hplain & _ & _).
  unfold csv.writerow. cbn [csv.join_fields].
  rewrite join_append_first, (join_append_next 0 _ Hplain), append_nil_r.
  replace (String.eqb (encoded key +:+ String Py.comma (Py.str_int count))
             EmptyString) with false
    by (destruct (encoded key); reflexivity).
  rewrite andb_false_r. now rewrite append_assoc, append_cons.
Qed.

Lemma universal_newlines_rows_text (items : list (string * Z)) :
  forallb no_cr (dict_keys items) = true ->
  io.universal_newlines (rows_text items) = rows_read items.
Proof.
  induction items as [|[key count] items IH]; intros H; [reflexivity |].
  simpl in H. apply andb_true_iff in H as [Hkey Hrest].
  destruct (str_int_plain count) as (_ & Hcr & _).
  cbn [rows_text rows_read]. rewrite writerow_item.
  rewrite append_assoc, universal_newlines_plain
    by now rewrite no_cr_encoded.
  f_equal. rewrite append_cons. simpl.
  change (Ascii.eqb Py.comma Py.CR) with false. cbv iota. f_equal.
  rewrite append_assoc, universal_newlines_plain by exact Hcr.
  f_equal. unfold csv.lineterminator. rewrite !append_cons, append_nil_l.
  simpl. now rewrite (IH Hrest).
Qed.

Lemma readlines_nonempty (s : string) :
  s <> EmptyString -> exists line lines, io.readlines s = line :: lines.
Proof.
  destruct s as [|c s]; [congruence |]. intros _. simpl.
  destruct (Ascii.eqb c Py.LF); [eauto |].
  destruct (io.readlines s); eauto.
Qed.

(** The reader takes a character that is not a line feed without looking at
    the line structure. *)
Lemma reader_from_char (c : ascii) (s : string) (self self1 : csv.ReaderObj) :
  Ascii.eqb c Py.LF = false -> s <> EmptyString ->
  csv.parse_process_char self (Some c) = Ok self1 ->
  csv.reader_from self (io.readlines (String c s))
  = csv.reader_from self1 (io.readlines s).
Proof.
  intros Hc Hs H1. simpl. rewrite Hc.
  destruct (readlines_nonempty s Hs) as (line & lines & ->).
  simpl. now rewrite H1.
Qed.

(** A line feed ends the line: the parser sees it and then the end-of-line
    marker. *)
Lemma reader_from_line_feed (s : string) (self self1 self2 : csv.ReaderObj) :
  csv.parse_process_char self (Some Py.LF) = Ok self1 ->
  csv.parse_process_char self1 None = Ok self2 ->
  csv.reader_from self (io.readlines (String Py.LF s))
  = if csv.state_eqb (csv.state self2) csv.START_RECORD
    then let '(rows, err) := csv.reader_from csv.parse_reset (io.readlines s) in
         (csv.fields self2 :: rows, err)
    else csv.reader_from self2 (io.readlines s).
Proof.
  intros H1 H2. simpl io.readlines. change (Ascii.eqb Py.LF Py.LF) with true.
  cbv iota. simpl. now rewrite H1, H2.
Qed.

Lemma append_nonempty_r (a b : string) :
  b <> EmptyString -> a +:+ b <> EmptyString.
Proof. destruct a; [now rewrite append_nil_l | now rewrite append_cons]. Qed.

Lemma special_false (c : ascii) :
  csv.special c = false ->
  Ascii.eqb c Py.comma = false /\ Ascii.eqb c Py.dquote = false
  /\ Ascii.eqb c Py.CR = false /\ Ascii.eqb c Py.LF = false.
Proof.
  unfold csv.special. intros H.
  repeat (apply orb_false_iff in H as [H ?]). auto.
Qed.

(** [read_char c self1]: the reader takes the character [c], which is not a
    line feed and is followed by more text, and goes on from [self1]. *)
Ltac read_char c self1 :=
  rewrite (reader_from_char c _ _ self1);
  [ | reflexivity
    | first [ discriminate | assumption | now apply append_nonempty_r ]
    | reflexivity ].

(** Inside quotes the reader collects the field's characters, doubled
    quotes and line ends included. *)
Lemma reader_from_quoted (k f : string) (fs : list string) (s : string) :
  s <> EmptyString ->
  csv.reader_from (csv.mkReader csv.IN_QUOTED_FIELD f fs)
    (io.readlines (csv.field_data k +:+ s))
  = csv.reader_from (csv.mkReader csv.IN_QUOTED_FIELD (f +:+ k) fs)
      (io.readlines s).
Proof.
  intros Hs. revert f. induction k as [|c k IH]; intros f.
  - now rewrite append_nil_l, append_nil_r.
  - pose proof (append_nonempty_r (csv.field_data k) s Hs) as Hne.
    rewrite <- (append_snoc f c k), <- IH. simpl csv.field_data.
    destruct (Ascii.eqb c Py.dquote) eqn:Hq.
    + apply Ascii.eqb_eq in Hq. subst c. rewrite !append_cons.
      read_char Py.dquote (csv.mkReader csv.QUOTE_IN_QUOTED_FIELD f fs).
      read_char Py.dquote
        (csv.mkReader csv.IN_QUOTED_FIELD
           (f +:+ String Py.dquote EmptyString) fs).
      reflexivity.
    + rewrite append_cons. destruct (Ascii.eqb c Py.LF) eqn:Hlf.
      * apply Ascii.eqb_eq in Hlf. subst c.
        rewrite (reader_from_line_feed _ _
                   (csv.mkReader csv.IN_QUOTED_FIELD
                      (f +:+ String Py.LF EmptyString) fs)
                   (csv.mkReader csv.IN_QUOTED_FIELD
                      (f +:+ String Py.LF EmptyString) fs));
          reflexivity.
      * apply reader_from_char; [exact Hlf | exact Hne |].
        unfold csv.parse_process_char. simpl. now rewrite Hq.
Qed.

(** Outside quotes the reader collects characters that are not special. *)
Lemma reader_from_plain (k f : string) (fs : list string) (s : string) :
  csv.has_special k = false -> s <> EmptyString ->
  csv.reader_from (csv.mkReader csv.IN_FIELD f fs) (io.readlines (k +:+ s))
  = csv.reader_from (csv.mkReader csv.IN_FIELD (f +:+ k) fs) (io.readlines s).
Proof.
  intros Hk Hs. revert f. induction k as [|c k IH]; intros f.
  - now rewrite append_nil_l, append_nil_r.
  - simpl in Hk. apply orb_false_iff in Hk as [Hc Hk].
    destruct (special_false c Hc) as (Hcomma & Hq & Hcr & Hlf).
    rewrite <- (append_snoc f c k), <- (IH Hk), append_cons.
    apply reader_from_char; [exact Hlf | now apply append_nonempty_r |].
    unfold csv.parse_process_char, csv.is_newline. simpl.
    now rewrite Hlf, Hcr, Hcomma.
Qed.

(** A field without special characters, read from the start of a record or
    of a field. *)
Lemma reader_from_plain_start (st : csv.ParserState) (k : string)
  (fs : list string) (s : string) :
  st = csv.START_RECORD \/ st = csv.START_FIELD ->
  csv.has_special k = false -> k <> EmptyString -> s <> EmptyString ->
  csv.reader_from (csv.mkReader st EmptyString fs) (io.readlines (k +:+ s))
  = csv.reader_from (csv.mkReader csv.IN_FIELD k fs) (io.readlines s).
Proof.
  intros Hst Hk Hne Hs. destruct k as [|c k]; [congruence |].
  simpl in Hk. apply orb_false_iff in Hk as [Hc Hk].
  destruct (special_false c Hc) as (Hcomma & Hq & Hcr & Hlf).
  rewrite append_cons.
  rewrite (reader_from_char c _ _
             (csv.mkReader csv.IN_FIELD (String c EmptyString) fs));
    [| exact Hlf | now apply append_nonempty_r |].
  - now rewrite (reader_from_plain k _ fs s Hk Hs), append_cons, append_nil_l.
  - unfold csv.parse_process_char, csv.is_newline.
    destruct Hst as [-> | ->]; simpl; now rewrite Hlf, Hcr, Hq, Hcomma.
Qed.

(** One written row is read back as the two fields it was written from. *)
Lemma reader_from_row (key : string) (count : Z) (rest : string) :
  csv.reader_from csv.parse_reset
    (io.readlines
       (encoded key
        +:+ String Py.comma (Py.str_int count +:+ String Py.LF rest)))
  = let '(rows, err) := csv.reader_from csv.parse_reset (io.readlines rest) in
    (item_row (key, count) :: rows, err).
Proof.
  destruct (str_int_plain count) as (Hplain & _ & Hne).
  set (digits := Py.str_int count) in *.
  assert (String Py.LF rest <> EmptyString) as Hlf by discriminate.
  assert (digits +:+ String Py.LF rest <> EmptyString) as Htail
      by now apply append_nonempty_r.
  assert (String Py.comma (digits +:+ String Py.LF rest) <> EmptyString)
    as Hcomma by discriminate.
  (* the count, read after the key and its comma *)
  assert (csv.reader_from (csv.mkReader csv.START_FIELD EmptyString [key])
            (io.readlines (digits +:+ String Py.LF rest))
          = let '(rows, err) :=
              csv.reader_from csv.parse_reset (io.readlines rest) in
            ([key; digits] :: rows, err)) as Hsecond.
  { rewrite (reader_from_plain_start csv.START_FIELD digits [key] _
               (or_intror eq_refl) Hplain Hne Hlf).
    now rewrite (reader_from_line_feed rest _
                   (csv.mkReader csv.EAT_CRNL EmptyString [key; digits])
                   (csv.mkReader csv.START_RECORD EmptyString [key; digits])). }
  unfold item_row, fst, snd. fold digits. rewrite <- Hsecond.
  unfold encoded, csv.parse_reset.
  destruct (csv.has_special key) eqn:Hkey.
  - (* the key in quotes *)
    rewrite append_cons.
    read_char Py.dquote (csv.mkReader csv.IN_QUOTED_FIELD EmptyString []).
    rewrite append_assoc, reader_from_quoted by discriminate.
    rewrite append_cons, !append_nil_l.
    read_char Py.dquote (csv.mkReader csv.QUOTE_IN_QUOTED_FIELD key []).
    read_char Py.comma (csv.mkReader csv.START_FIELD EmptyString [key]).
    reflexivity.
  - destruct key as [|c key].
    + (* the empty key *)
      rewrite append_nil_l.
      read_char Py.comma
        (csv.mkReader csv.START_FIELD EmptyString [EmptyString]).
      reflexivity.
    + (* a plain key *)
      rewrite (reader_from_plain_start csv.START_RECORD (String c key) [] _
                 (or_introl eq_refl) Hkey ltac:(discriminate) Hcomma).
      read_char Py.comma
        (csv.mkReader csv.START_FIELD EmptyString [String c key]).
      reflexivity.
Qed.

Lemma reader_rows_read (items : list (string * Z)) :
  csv.reader (io.readlines (rows_read items)) = (map item_row items, None).
Proof.
  unfold csv.reader. induction items as [|[key count] items IH];
    [reflexivity |].
  cbn [rows_read map]. now rewrite reader_from_row, IH.
Qed.

Lemma get_none_setitem (c : Counter) (k : string) (v : Z) :
  get c k = None -> setitem c k v = c ++ [(k, v)].
Proof.
  induction c as [|[k' v'] c IH]; simpl; [reflexivity |].
  destruct (String.eqb k' k); [discriminate |]. intros H. now rewrite IH.
Qed.

Lemma get_none_iff (c : Counter) (k : string) :
  get c k = None <-> ~ In k (dict_keys c).
Proof.
  induction c as [|[k' v'] c IH]; simpl; [tauto |].
  destruct (String.eqb_spec k' k) as [->|Hne].
  - split; [discriminate | intros H; exfalso; apply H; now left].
  - rewrite IH. split; [intros H [? | ?]; tauto | tauto].
Qed.

Lemma load_rows_items (items : list (string * Z)) (c : Counter) :
  NoDup (dict_keys (c ++ items)) ->
  load_rows (map item_row items) c = (Normal, c ++ items).
Proof.
  revert c. induction items as [|[key count] items IH]; intros c Hnd.
  - now rewrite app_nil_r.
  - cbn [map]. unfold item_row at 1. cbn [fst snd].
    rewrite (load_rows_assign key _ count) by apply int_str_int.
    assert (get c key = None) as Hfresh.
    { apply get_none_iff. unfold dict_keys in *. rewrite map_app in Hnd.
      simpl in Hnd. apply NoDup_app in Hnd as (_ & Hdisjoint & _).
      intros Hin. apply (Hdisjoint key).
      - now apply list_elem_of_In.
      - apply list_elem_of_here. }
    rewrite (get_none_setitem _ _ _ Hfresh), IH.
    + now rewrite <- app_assoc.
    + now rewrite <- app_assoc.
Qed.

(** X21. The round trip of the store.  For a table in which no key contains
    a carriage return: when [save_data] completes, loading the file it wrote
    into an empty table completes as well and gives back the table that was
    saved, with the same keys (in the same order) and the same count for
    each. *)
Theorem save_then_load_restores_table (csv_file : string) (st st' : state) :
  NoDup (dict_keys (key_counter st)) ->
  forallb no_cr (dict_keys (key_counter st)) = true ->
  save_data csv_file st = (Normal, st') ->
  load_existing_data csv_file (set_key_counter st' []) = (Normal, st')
  /\ key_counter st' = key_counter st
  /\ forall k,
       get (key_counter (snd (load_existing_data csv_file
                                (set_key_counter st' [])))) k
       = get (key_counter st) k.
Proof.
  intros Hnd Hcr Hsave.
  destruct (save_data_file_content _ _ _ Hsave) as (Hread & Hkc & _).
  assert (load_existing_data csv_file (set_key_counter st' []) = (Normal, st'))
    as Hload.
  { rewrite (load_existing_data_rows _ _ (rows_text (key_counter st)))
      by exact Hread.
    rewrite (universal_newlines_rows_text _ Hcr), reader_rows_read.
    cbn [fst key_counter set_key_counter].
    rewrite (load_rows_items (key_counter st) []) by exact Hnd.
    cbn [fst snd app]. rewrite <- Hkc. now destruct st'. }
  split; [exact Hload | split; [exact Hkc |]].
  intros k. now rewrite Hload, <- Hkc.
Qed.

Lemma save_then_load_restores_table_witness :
  NoDup (dict_keys (key_counter Sample.odd_keys))
  /\ forallb no_cr (dict_keys (key_counter Sample.odd_keys)) = true
  /\ fst (save_data "data/keys.csv" Sample.odd_keys) = Normal
  /\ key_counter
       (snd (load_existing_data "data/keys.csv"
               (set_key_counter (snd (save_data "data/keys.csv" Sample.odd_keys))
                  [])))
     = key_counter Sample.odd_keys.
Proof.
  assert (NoDup (dict_keys (key_counter Sample.odd_keys))) as Hnd.
  { apply NoDup_ListNoDup. repeat constructor; simpl;
      intuition discriminate. }
  split; [exact Hnd | split; [reflexivity | split; [reflexivity |]]].
  destruct (save_then_load_restores_table "data/keys.csv" Sample.odd_keys
              (snd (save_data "data/keys.csv" Sample.odd_keys))
              Hnd eq_refl eq_refl) as (Hload & Hkc & _).
  now rewrite Hload.
Defined.


(** ** [os.makedirs] always has fuel left *)

Lemma rpartition_append (p : string) :
  fst (os.rpartition p) +:+ snd (os.rpartition p) = p.
Proof.
  induction p as [|c p IH]; [reflexivity |].
  simpl. destruct (os.rpartition p) as [head tail]. simpl in IH.
  destruct head as [|h head].
  - rewrite append_nil_l in IH. subst tail.
    destruct (Ascii.eqb c Py.slash); reflexivity.
  - simpl. rewrite append_cons. now rewrite IH.
Qed.

Lemma rstrip_sep_length (s : string) :
  (String.length (os.rstrip_sep s) <= String.length s)%nat.
Proof.
  induction s as [|c s IH]; simpl; [lia |].
  destruct (os.rstrip_sep s) as [|r rs]; simpl in *.
  - destruct (Ascii.eqb c Py.slash); simpl; lia.
  - lia.
Qed.

Lemma split_length (p : string) :
  (String.length (fst (os.path.split p)) + String.length (snd (os.path.split p))
   <= String.length p)%nat.
Proof.
  unfold os.path.split. pose proof (rpartition_append p) as H.
  destruct (os.rpartition p) as [head tail]. simpl in *.
  apply (f_equal String.length) in H. rewrite length_append in H.
  pose proof (rstrip_sep_length head).
  destruct (os.nonempty head && negb (os.all_sep head)); simpl; lia.
Qed.

Lemma nonempty_length (s : string) :
  os.nonempty s = true -> (0 < String.length s)%nat.
Proof. destruct s; [discriminate | simpl; lia]. Qed.

Lemma walk_not_recursion (fs : os.filesystem) (comps cur : list string) :
  os.walk fs cur comps <> Raise RecursionError.
Proof.
  revert cur. induction comps as [|c comps IH]; intros cur; simpl;
    [discriminate |].
  destruct (os.node_at fs cur) as [[d |] |]; try discriminate.
  destruct (_ || _); [apply IH |].
  destruct (String.eqb c ".."); apply IH.
Qed.

Lemma mkdir_not_recursion (fs : os.filesystem) (p : string) :
  os.mkdir fs p <> Raise RecursionError.
Proof.
  unfold os.mkdir, os.resolve. destruct p as [|c p]; [discriminate |].
  pose proof (walk_not_recursion fs (os.components (String c p))
                (if Ascii.eqb c Py.slash then [] else os.cwd fs)) as H.
  destruct (os.walk fs _ _) as [r | e]; [| congruence].
  destruct (os.node_at fs r); discriminate.
Qed.

Lemma mkdir_exist_ok_not_recursion (name : string) (fs : os.filesystem) :
  fst (os.mkdir_exist_ok name fs) <> Raised RecursionError.
Proof.
  unfold os.mkdir_exist_ok. pose proof (mkdir_not_recursion fs name) as H.
  destruct (os.mkdir fs name) as [fs' | e]; [discriminate |].
  destruct (os.path_isdir fs name); simpl; congruence.
Qed.

(** The recursion of [os.makedirs] ends before its fuel does: the fuel-out
    result is never produced. *)
Lemma makedirs_rec_has_fuel (fuel : nat) (name : string) (fs : os.filesystem) :
  (String.length name < fuel)%nat ->
  fst (os.makedirs_rec fuel name fs) <> Raised RecursionError.
Proof.
  revert name fs. induction fuel as [|fuel IH]; intros name fs Hlen; [lia |].
  simpl.
  pose proof (split_length name) as Hsplit.
  destruct (os.path.split name) as [head tail]. simpl in Hsplit.
  assert (exists head' tail',
             (if os.nonempty tail then (head, tail) else os.path.split head)
             = (head', tail')
             /\ (String.length head' + String.length tail'
                 <= String.length name)%nat) as (head' & tail' & -> & Hle).
  { destruct (os.nonempty tail); [now exists head, tail |].
    pose proof (split_length head) as Hsplit2.
    destruct (os.path.split head) as [head2 tail2]. simpl in Hsplit2.
    exists head2, tail2. split; [reflexivity | lia]. }
  destruct (os.nonempty head') eqn:Hh; [| apply mkdir_exist_ok_not_recursion].
  destruct (os.nonempty tail') eqn:Ht; [| apply mkdir_exist_ok_not_recursion].
  destruct (negb (os.path_exists fs head'));
    [| apply mkdir_exist_ok_not_recursion].
  simpl andb. cbv iota. apply nonempty_length in Ht.
  assert (String.length head' < fuel)%nat as Hfuel by lia.
  specialize (IH head' fs Hfuel).
  destruct (os.makedirs_rec fuel head' fs) as [[| e |] fs1]; simpl in *.
  - destruct (String.eqb tail' "."); [discriminate |].
    apply mkdir_exist_ok_not_recursion.
  - destruct e; try congruence; try discriminate.
    destruct (String.eqb tail' "."); [discriminate |].
    apply mkdir_exist_ok_not_recursion.
  - discriminate.
Qed.

Lemma makedirs_has_fuel (name : string) (fs : os.filesystem) :
  fst (os.makedirs name fs) <> Raised RecursionError.
Proof. apply makedirs_rec_has_fuel. lia. Qed.

(** ** The other ways the script ends *)

(** X1. When the store loads and no listed device is a keyboard, the script
    prints "No keyboards found", does not enter the monitor loop, and the
    process ends with exit status 0. *)
Theorem no_keyboards_found_exits_cleanly (env : environment)
  (csv_file : string) (st st1 : state) :
  load_existing_data csv_file st = (Normal, st1) ->
  find_keyboards (listed env) = Ok [] ->
  script env csv_file st = (Some 0, print "No keyboards found" st1).
Proof.
  intros Hload Hfind. unfold script, main. now rewrite Hload, Hfind.
Qed.

Lemma no_keyboards_found_exits_cleanly_witness :
  load_existing_data "data/keys.csv" Sample.fresh = (Normal, Sample.fresh)
  /\ find_keyboards (listed Sample.no_keyboard) = Ok []
  /\ script Sample.no_keyboard "data/keys.csv" Sample.fresh
     = (Some 0, print "No keyboards found" Sample.fresh).
Proof.
  split; [reflexivity | split; [reflexivity |]].
  apply (no_keyboards_found_exits_cleanly Sample.no_keyboard "data/keys.csv"
           Sample.fresh Sample.fresh); reflexivity.
Defined.



(** X3. After a save that completes, the file at the path holds exactly the
    rows of the current table, one per key in the table's order, whatever
    the file held before; the table itself and the output are untouched. *)
Theorem save_data_overwrites_file (csv_file : string) (st st' : state) :
  save_data csv_file st = (Normal, st') ->
  os.read_text (files st') csv_file = Ok (rows_text (key_counter st))
  /\ os.path_exists (files st') csv_file = true
  /\ key_counter st' = key_counter st
  /\ stdout st' = stdout st.
Proof.
  intros Hsave.
  destruct (save_data_file_content _ _ _ Hsave) as (Hread & Hkc & Hout).
  split; [exact Hread | split; [| split; assumption]].
  now apply (read_text_exists _ _ (rows_text (key_counter st))).
Qed.

Lemma save_data_overwrites_file_witness :
  fst (save_data "data/keys.csv"
         (set_key_counter Sample.stored_five [("57", 2); ("30", 9)]))
  = Normal
  /\ os.read_text (files Sample.stored_five) "data/keys.csv"
     = Ok ("30,5" +:+ String Py.LF EmptyString)
  /\ os.read_text
       (files (snd (save_data "data/keys.csv"
                      (set_key_counter Sample.stored_five
                         [("57", 2); ("30", 9)]))))
       "data/keys.csv"
     = Ok ("57,2" +:+ csv.lineterminator +:+ "30,9" +:+ csv.lineterminator).
Proof.
  split; [reflexivity | split; [reflexivity |]].
  destruct (save_data_overwrites_file "data/keys.csv"
              (set_key_counter Sample.stored_five [("57", 2); ("30", 9)])
              (snd (save_data "data/keys.csv"
                      (set_key_counter Sample.stored_five
                         [("57", 2); ("30", 9)])))
              eq_refl) as (Hread & _).
  exact Hread.
Defined.

(** ** The shape of the table *)

Lemma dict_keys_setitem (c : Counter) (k : string) (v : Z) :
  dict_keys (setitem c k v)
  = match get c k with
    | Some _ => dict_keys c
    | None => dict_keys c ++ [k]
    end.
Proof.
  induction c as [|[k' v'] c IH]; simpl; [reflexivity |].
  destruct (String.eqb k' k); simpl; [reflexivity |].
  rewrite IH. now destruct (get c k).
Qed.

Lemma forallb_no_cr_snoc (ks : list string) (k : string) :
  forallb no_cr (ks ++ [k]) = forallb no_cr ks && no_cr k.
Proof. rewrite forallb_app. simpl. now rewrite andb_true_r. Qed.

Lemma storable_setitem (c : Counter) (k : string) (v : Z) :
  storable c -> no_cr k = true -> storable (setitem c k v).
Proof.
  unfold storable. intros [Hnd Hcr] Hk. rewrite dict_keys_setitem.
  destruct (get c k) eqn:Hget; [now split |].
  split.
  - apply NoDup_app. split; [exact Hnd | split; [| apply NoDup_singleton]].
    intros x Hx Hx'. apply list_elem_of_singleton in Hx'. subst x.
    apply get_none_iff in Hget. apply Hget. now apply list_elem_of_In.
  - now rewrite forallb_no_cr_snoc, Hcr, Hk.
Qed.

Lemma prefix_setitem (c : Counter) (k : string) (v : Z) :
  exists added, dict_keys (setitem c k v) = dict_keys c ++ added.
Proof.
  rewrite dict_keys_setitem. destruct (get c k).
  - exists []. now rewrite app_nil_r.
  - now exists [k].
Qed.

Lemma total_setitem (c : Counter) (k : string) (v : Z) :
  total (setitem c k v) = total c - getitem c k + v.
Proof.
  unfold getitem. induction c as [|[k' v'] c IH]; simpl; [lia |].
  destruct (String.eqb k' k); simpl; [lia |].
  rewrite IH. destruct (get c k); lia.
Qed.

Lemma total_increment (c : Counter) (k : string) :
  total (increment c k) = total c + 1.
Proof. unfold increment. rewrite total_setitem. lia. Qed.

Lemma storable_increments (ids : list string) (c : Counter) :
  storable c -> forallb no_cr ids = true -> storable (fold_left increment ids c).
Proof.
  revert c. induction ids as [|k ids IH]; intros c Hc Hids; [exact Hc |].
  simpl in Hids. apply andb_true_iff in Hids as [Hk Hids].
  simpl. apply IH; [| exact Hids]. now apply storable_setitem.
Qed.

Lemma prefix_increments (ids : list string) (c : Counter) :
  exists added, dict_keys (fold_left increment ids c) = dict_keys c ++ added.
Proof.
  revert c. induction ids as [|k ids IH]; intros c; simpl.
  - exists []. now rewrite app_nil_r.
  - destruct (IH (increment c k)) as [added2 ->].
    destruct (prefix_setitem c k (getitem c k + 1)) as [added1 H].
    unfold increment. rewrite H. exists (added1 ++ added2).
    now rewrite app_assoc.
Qed.

Lemma total_increments (ids : list string) (c : Counter) :
  total (fold_left increment ids c) = total c + Z.of_nat (length ids).
Proof.
  revert c. induction ids as [|k ids IH]; intros c; simpl length; simpl fold_left.
  - lia.
  - rewrite IH, total_increment. lia.
Qed.

(** *** The monitor loop as a sequence of increments *)

Section MonitorSteps.

Variable keys : Z -> option evdev.keycode.

Lemma recorded_no_cr (events : list evdev.InputEvent) :
  (forall code keycode,
     keys code = Some keycode -> forallb no_cr (identities keycode) = true) ->
  forallb no_cr (recorded keys events) = true.
Proof.
  intros Hkeys. unfold recorded.
  induction events as [|event events IH]; [reflexivity |].
  simpl. rewrite forallb_app, IH, andb_true_r.
  destruct (is_key_down event); [| reflexivity].
  destruct (keys (evdev.ev_code event)) eqn:Hk; [| reflexivity].
  now apply (Hkeys _ _ Hk).
Qed.

End MonitorSteps.

(** The table [main] leaves: the table as loaded, incremented once for each
    identity recorded for the events the loop processed. *)
Lemma main_table (env : environment) (csv_file : string) (st : state) :
  exists events,
    key_counter (snd (main env csv_file st))
    = fold_left increment (recorded (keys env) events)
        (key_counter (snd (load_existing_data csv_file st)))
    /\ (events = []
        \/ exists keyboards,
            find_keyboards (listed env) = Ok keyboards
            /\ events
               = events_processed (keys env) (by_fd keyboards) (selects env)).
Proof.
  unfold main.
  destruct (load_existing_data csv_file st) as [[| e |] st1]; simpl;
    try (exists []; split; [reflexivity | now left]).
  destruct (find_keyboards (listed env)) as [[|d ds] | e] eqn:Hfind; simpl;
    try (exists []; split; [reflexivity | now left]).
  exists (events_processed (keys env) (by_fd (d :: ds)) (selects env)).
  split; [| right; now exists (d :: ds)].
  destruct (monitor _ _ _ _) as [r c] eqn:Hm. simpl.
  change c with (snd (r, c)). rewrite <- Hm, monitor_steps.
  now rewrite key_counter_print_all.
Qed.

(** *** What the loader can put into the table *)

Lemma text_line_no_cr (line : string) : text_line line = true -> no_cr line = true.
Proof.
  induction line as [|c line IH]; [reflexivity |].
  simpl. intros H. apply andb_true_iff in H as [H Hrest].
  apply andb_true_iff in H as [Hcr _]. now rewrite Hcr, IH.
Qed.

Lemma no_cr_snoc (s : string) (c : ascii) :
  no_cr (s +:+ String c EmptyString) = no_cr s && negb (Ascii.eqb c Py.CR).
Proof. rewrite no_cr_append. simpl. now rewrite andb_true_r. Qed.

Lemma parse_process_char_clean (self self' : csv.ReaderObj) (c : option ascii) :
  reader_clean self ->
  match c with Some ch => Ascii.eqb ch Py.CR = false | None => True end ->
  csv.parse_process_char self c = Ok self' ->
  reader_clean self'.
Proof.
  unfold reader_clean. intros [Hf Hfs] Hc.
  assert (forallb no_cr (csv.fields self ++ [csv.field self]) = true) as Hsave
      by now rewrite forallb_no_cr_snoc, Hfs, Hf.
  unfold csv.parse_process_char.
  destruct self as [st f fs]. simpl in *.
  destruct c as [ch |].
  - assert (no_cr (f +:+ String ch EmptyString) = true) as Hadd
        by now rewrite no_cr_snoc, Hf, Hc.
    destruct st; simpl;
      destruct (csv.is_newline ch); destruct (Ascii.eqb ch Py.dquote);
      destruct (Ascii.eqb ch Py.comma); simpl;
      intros H; try discriminate; injection H as <-; simpl; auto.
  - destruct st; simpl; intros H; injection H as <-; simpl; auto.
Qed.

Lemma feed_line_clean (line : string) (self self' : csv.ReaderObj) :
  reader_clean self -> no_cr line = true ->
  csv.feed_line self line = Ok self' -> reader_clean self'.
Proof.
  revert self. induction line as [|c line IH]; intros self Hclean Hline; simpl.
  - now apply parse_process_char_clean.
  - simpl in Hline. apply andb_true_iff in Hline as [Hc Hline].
    apply negb_true_iff in Hc.
    destruct (csv.parse_process_char self (Some c)) as [self1 | e] eqn:H1;
      [| discriminate].
    apply IH; [| exact Hline].
    now apply (parse_process_char_clean self self1 (Some c)).
Qed.

Lemma reader_from_clean (lines : list string) (self : csv.ReaderObj) :
  Forall (fun line => no_cr line = true) lines ->
  reader_clean self ->
  Forall (fun row => forallb no_cr row = true)
    (fst (csv.reader_from self lines)).
Proof.
  intros Hlines. revert self.
  induction Hlines as [|line lines Hline _ IH]; intros self Hclean; simpl.
  - destruct Hclean as [Hf Hfs].
    destruct (_ || _); simpl; [| constructor].
    constructor; [| constructor].
    now rewrite forallb_no_cr_snoc, Hfs, Hf.
  - destruct (csv.feed_line self line) as [self' | e] eqn:Hfeed;
      [| constructor].
    pose proof (feed_line_clean _ _ _ Hclean Hline Hfeed) as Hclean'.
    destruct (csv.state_eqb (csv.state self') csv.START_RECORD).
    + specialize (IH csv.parse_reset (conj eq_refl eq_refl)).
      destruct (csv.reader_from csv.parse_reset lines) as [rows err].
      simpl in *. constructor; [apply Hclean' | exact IH].
    + now apply IH.
Qed.

(** No field read from a text file holds a carriage return. *)
Lemma reader_text_clean (data : string) :
  Forall (fun row => forallb no_cr row = true)
    (fst (csv.reader (io.readlines (io.universal_newlines data)))).
Proof.
  apply reader_from_clean; [| split; reflexivity].
  apply (List.Forall_impl _ text_line_no_cr).
  apply text_lines_readlines, no_cr_universal_newlines.
Qed.

Lemma row_key_no_cr (row : list string) :
  forallb no_cr row = true -> no_cr (row_key row) = true.
Proof.
  unfold row_key. destruct row as [|k row]; [reflexivity |].
  simpl. intros H. now apply andb_true_iff in H as [H _].
Qed.

Lemma load_rows_storable (rows : list (list string)) (c : Counter) :
  Forall (fun row => forallb no_cr row = true) rows ->
  storable c -> storable (snd (load_rows rows c)).
Proof.
  intros Hrows. revert c. induction Hrows as [|row rows Hrow _ IH]; intros c Hc;
    [exact Hc |].
  simpl. destruct (length row =? 2)%nat; [| now apply IH].
  destruct (Py.int (nth 1 row EmptyString)); [| exact Hc].
  apply IH, storable_setitem; [exact Hc |]. now apply row_key_no_cr.
Qed.

Lemma load_rows_prefix (rows : list (list string)) (c : Counter) :
  exists added, dict_keys (snd (load_rows rows c)) = dict_keys c ++ added.
Proof.
  revert c. induction rows as [|row rows IH]; intros c; simpl.
  - exists []. now rewrite app_nil_r.
  - destruct (length row =? 2)%nat; [| apply IH].
    destruct (Py.int (nth 1 row EmptyString)) as [n |].
    + destruct (IH (setitem c (nth 0 row EmptyString) n)) as [added2 ->].
      destruct (prefix_setitem c (nth 0 row EmptyString) n) as [added1 ->].
      exists (added1 ++ added2). now rewrite app_assoc.
    + exists []. now rewrite app_nil_r.
Qed.

(** The table [load_existing_data] leaves, whatever way it ends. *)
Lemma load_existing_data_table (csv_file : string) (st : state) :
  key_counter (snd (load_existing_data csv_file st)) = key_counter st
  \/ exists data,
      os.read_text (files st) csv_file = Ok data
      /\ key_counter (snd (load_existing_data csv_file st))
         = snd (load_rows
                  (fst (csv.reader (io.readlines (io.universal_newlines data))))
                  (key_counter st)).
Proof.
  unfold load_existing_data.
  destruct (os.path_exists (files st) csv_file); [| now left].
  destruct (os.read_text (files st) csv_file) as [data | e]; [| now left].
  right. exists data. split; [reflexivity |].
  destruct (csv.reader _) as [rows err]. simpl.
  destruct (load_rows rows (key_counter st)) as [[] c]; reflexivity.
Qed.

Lemma load_existing_data_storable (csv_file : string) (st : state) :
  storable (key_counter st) ->
  storable (key_counter (snd (load_existing_data csv_file st))).
Proof.
  intros Hst.
  destruct (load_existing_data_table csv_file st) as [-> | (data & _ & ->)];
    [exact Hst |].
  apply load_rows_storable; [apply reader_text_clean | exact Hst].
Qed.

Lemma main_storable (env : environment) (csv_file : string) (st : state) :
  (forall code keycode,
     keys env code = Some keycode ->
     forallb no_cr (identities keycode) = true) ->
  storable (key_counter st) ->
  storable (key_counter (snd (main env csv_file st))).
Proof.
  intros Hkeys Hst. destruct (main_table env csv_file st) as (events & -> & _).
  apply storable_increments.
  - now apply load_existing_data_storable.
  - now apply recorded_no_cr.
Qed.





(** X5. [main] never removes a key and never moves one: the keys the table
    had at the start keep their places, in front of the keys added by the
    load and by the monitor loop. *)
Theorem main_keeps_keys_in_place (env : environment) (csv_file : string)
  (st : state) :
  exists added,
    dict_keys (key_counter (snd (main env csv_file st)))
    = dict_keys (key_counter st) ++ added.
Proof.
  destruct (main_table env csv_file st) as (events & -> & _).
  destruct (prefix_increments (recorded (keys env) events)
              (key_counter (snd (load_existing_data csv_file st))))
    as [added2 ->].
  destruct (load_existing_data_table csv_file st) as [-> | (data & _ & ->)].
  - now exists added2.
  - destruct (load_rows_prefix
                (fst (csv.reader (io.readlines (io.universal_newlines data))))
                (key_counter st)) as [added1 ->].
    exists (added1 ++ added2). now rewrite app_assoc.
Qed.

(** X6. [main] keeps the table fit for the store: when the table it starts
    from has no key twice and no key with a carriage return, and no key name
    of the device library holds one, the table it leaves is of that kind as
    well, whatever the store file holds and however the run ends. *)
Theorem main_keeps_table_storable (env : environment) (csv_file : string)
  (st : state) :
  (forall code keycode,
     keys env code = Some keycode ->
     forallb no_cr (identities keycode) = true) ->
  storable (key_counter st) ->
  storable (key_counter (snd (main env csv_file st))).
Proof. apply main_storable. Qed.

Lemma main_keeps_table_storable_witness :
  storable (key_counter Sample.stored_five)
  /\ storable
       (key_counter (snd (main Sample.interrupted "data/keys.csv"
                            Sample.stored_five))).
Proof.
  assert (storable (key_counter Sample.stored_five)) as H0
      by (split; [apply NoDup_nil_2 | reflexivity]).
  split; [exact H0 |].
  apply main_keeps_table_storable; [| exact H0].
  intros code keycode. simpl. unfold Sample.key_table.
  destruct (code =? 100); [now intros [= <-] |].
  destruct ((0 <=? code) && (code <? 768)); [| discriminate].
  intros [= <-]. simpl.
  destruct (str_int_plain code) as (_ & -> & _). reflexivity.
Defined.

Lemma events_taken_stop (keys : Z -> option evdev.keycode)
  (before after : list evdev.InputEvent) (bad : evdev.InputEvent) :
  forallb (fun event => negb (uncategorized keys event)) before = true ->
  uncategorized keys bad = true ->
  events_taken keys (before ++ bad :: after) = (before, false).
Proof.
  intros Hbefore Hbad. induction before as [|event before IH]; simpl.
  - now rewrite Hbad.
  - simpl in Hbefore. apply andb_true_iff in Hbefore as [Hevent Hbefore].
    apply negb_true_iff in Hevent. now rewrite Hevent, (IH Hbefore).
Qed.

(** X7. The monitor loop adds exactly one to the sum of all counts for each
    identity recorded: the sum after the loop is the sum before plus the
    number of identities of the key-down events it processed.  The loop
    stops at the first event that cannot be categorized: of the read that
    holds it, only the events before it are counted, and no later read
    is. *)
Theorem monitor_total_counts (keys : Z -> option evdev.keycode)
  (devices : gmap Z evdev.InputDevice) :
  (forall (selects : list select_result) (c : Counter),
      total (snd (monitor keys devices selects c))
      = total c
        + Z.of_nat
            (length (recorded keys (events_processed keys devices selects))))
  /\ (forall fd (before after : list evdev.InputEvent) bad rest c,
         is_Some (devices !! fd) ->
         forallb (fun event => negb (uncategorized keys event)) before = true ->
         uncategorized keys bad = true ->
         let run :=
           monitor keys devices
             (Ready [(fd, Events (before ++ bad :: after))] :: rest) c in
         (exists e, fst run = Raised e)
         /\ total (snd run)
            = total c + Z.of_nat (length (recorded keys before))).
Proof.
  split.
  - intros selects c. rewrite monitor_steps. apply total_increments.
  - intros fd before after bad rest c [dev Hdev] Hbefore Hbad run.
    assert (events_of_ready keys devices
              [(fd, Events (before ++ bad :: after))] = (before, false)) as Hr.
    { simpl. now rewrite Hdev, (events_taken_stop _ _ _ _ Hbefore Hbad). }
    split.
    + destruct (handle_ready_steps keys devices
                  [(fd, Events (before ++ bad :: after))] c)
        as (_ & Hok & Hnb).
      rewrite Hr in Hok. subst run. cbn [monitor].
      destruct (handle_ready keys devices _ c) as [[| e |] c'];
        cbn [fst snd] in *.
      * destruct Hok as [Hok _]. discriminate (Hok eq_refl).
      * now exists e.
      * contradiction.
    + subst run. rewrite monitor_steps. cbn [events_processed].
      rewrite Hr. apply total_increments.
Qed.

(** ** The saver thread when every save completes *)

Lemma periodic_save_step (csv_file : string) (t : tick) (ticks : list tick)
  (st : state) :
  fst (periodic_save csv_file (t :: ticks) st) = Blocked ->
  exists st',
    save_data csv_file (set_key_counter st (tk_counter t)) = (Normal, st')
    /\ periodic_save csv_file (t :: ticks) st
       = periodic_save csv_file ticks (print (saved_line t) st').
Proof.
  simpl. intros H.
  pose proof (save_data_not_blocked csv_file
                (set_key_counter st (tk_counter t))) as Hnb.
  destruct (save_data csv_file (set_key_counter st (tk_counter t)))
    as [[| e |] st']; simpl in *; [| discriminate | congruence].
  now exists st'.
Qed.

(** X8. When every save of the saver thread completes, it has printed one
    line "Data saved at <time>" per interval, in order, after what was
    printed before, and the file holds the rows of the table as it was at
    the last interval. *)
Theorem periodic_save_logs_every_save (csv_file : string) (ticks : list tick)
  (st : state) :
  fst (periodic_save csv_file ticks st) = Blocked ->
  stdout (snd (periodic_save csv_file ticks st))
  = stdout st ++ map saved_line ticks
  /\ (forall before t,
         ticks = before ++ [t] ->
         os.read_text (files (snd (periodic_save csv_file ticks st))) csv_file
         = Ok (rows_text (tk_counter t))).
Proof.
  revert st. induction ticks as [|t0 ticks IH]; intros st Hall.
  - split; [simpl; now rewrite app_nil_r |].
    intros [|b before] t H; discriminate.
  - destruct (periodic_save_step _ _ _ _ Hall) as (st' & Hsave & Hstep).
    rewrite Hstep in Hall |- *.
    destruct (IH _ Hall) as [Hout Hfile].
    destruct (save_data_file_content _ _ _ Hsave) as (Hread & _ & Hout').
    split.
    + rewrite Hout. simpl. rewrite Hout'. simpl. now rewrite <- app_assoc.
    + intros before t Hticks. destruct before as [|b before].
      * simpl in Hticks. injection Hticks as Ht Hnil. subst t0 ticks.
        exact Hread.
      * simpl in Hticks. injection Hticks as Hb Hrest. subst b ticks.
        now apply (Hfile before).
Qed.

Lemma periodic_save_logs_every_save_witness :
  fst (periodic_save "data/keys.csv" Sample.three_ticks Sample.fresh) = Blocked
  /\ stdout (snd (periodic_save "data/keys.csv" Sample.three_ticks Sample.fresh))
     = ["Data saved at Mon Jan  1 00:01:00 2024";
        "Data saved at Mon Jan  1 00:02:00 2024";
        "Data saved at Mon Jan  1 00:03:00 2024"]
  /\ os.read_text
       (files (snd (periodic_save "data/keys.csv" Sample.three_ticks
                      Sample.fresh))) "data/keys.csv"
     = Ok ("30,3" +:+ csv.lineterminator).
Proof.
  destruct (periodic_save_logs_every_save "data/keys.csv" Sample.three_ticks
              Sample.fresh eq_refl) as [Hout Hfile].
  split; [reflexivity | split; [exact Hout |]].
  exact (Hfile (removelast Sample.three_ticks)
           (mkTick [("30", 3)] "Mon Jan  1 00:03:00 2024") eq_refl).
Defined.

(** ** Loading: which row decides, and what a bad count does *)

Lemma get_assign_other (k : string) (rows : list (list string)) (c : Counter) :
  existsb (assigns_to k) rows = false ->
  get (fold_left assign rows c) k = get c k.
Proof.
  revert c. induction rows as [|row rows IH]; intros c H; [reflexivity |].
  simpl in H. apply orb_false_iff in H as [Hrow Hrows].
  simpl. rewrite (IH _ Hrows). unfold assign.
  destruct (Py.int (nth 1 row EmptyString)); [| reflexivity].
  apply get_setitem_ne. unfold assigns_to, row_key in Hrow.
  now apply String.eqb_neq.
Qed.

Lemma load_existing_data_integers (csv_file : string) (st : state)
  (data : string) :
  os.read_text (files st) csv_file = Ok data ->
  let kept :=
    List.filter two_fields
      (fst (csv.reader (io.readlines (io.universal_newlines data)))) in
  forallb integer_field kept = true ->
  load_existing_data csv_file st
  = (Normal, set_key_counter st (fold_left assign kept (key_counter st))).
Proof.
  intros Hread kept Hint.
  rewrite (load_existing_data_rows _ _ _ Hread), load_rows_filter.
  fold kept. rewrite (load_rows_integers kept); [reflexivity | | exact Hint].
  apply forallb_filter_same.
Qed.

(** X9. When a store file names a key in several rows, the last of them
    decides: after a load in which every two-field row has an integer count,
    the count of a key is the count of the last two-field row for that key,
    and a key that no such row names keeps the count (or the absence) it had
    in the table before. *)
Theorem load_last_row_wins (csv_file : string) (st : state) (data : string) :
  os.read_text (files st) csv_file = Ok data ->
  let kept :=
    List.filter two_fields
      (fst (csv.reader (io.readlines (io.universal_newlines data)))) in
  forallb integer_field kept = true ->
  let loaded := key_counter (snd (load_existing_data csv_file st)) in
  fst (load_existing_data csv_file st) = Normal
  /\ (forall k,
         existsb (assigns_to k) kept = false ->
         get loaded k = get (key_counter st) k)
  /\ (forall before row after n,
         kept = before ++ row :: after ->
         Py.int (nth 1 row EmptyString) = Some n ->
         existsb (assigns_to (row_key row)) after = false ->
         get loaded (row_key row) = Some n).
Proof.
  intros Hread kept Hint loaded. subst loaded.
  rewrite (load_existing_data_integers _ _ _ Hread Hint). fold kept.
  cbn [fst snd key_counter set_key_counter].
  split; [reflexivity | split].
  - intros k Hk. now apply get_assign_other.
  - intros before row after n -> Hn Hafter.
    rewrite fold_left_app. cbn [fold_left].
    rewrite (get_assign_other _ _ _ Hafter).
    unfold assign at 1. rewrite Hn. apply get_setitem_eq.
Qed.

Lemma load_last_row_wins_witness :
  os.read_text (files (Scenario.store_with Scenario.twice_text [("57", 4); ("1", 9)]))
    "data/keys.csv"
  = Ok Scenario.twice_text
  /\ key_counter
       (snd (load_existing_data "data/keys.csv"
               (Scenario.store_with Scenario.twice_text [("57", 4); ("1", 9)])))
     = [("57", 1); ("1", 9); ("30", 8)]
  /\ get (key_counter
            (snd (load_existing_data "data/keys.csv"
                    (Scenario.store_with Scenario.twice_text
                       [("57", 4); ("1", 9)])))) "30"
     = Some 8.
Proof.
  split; [reflexivity | split; [reflexivity |]].
  destruct (load_last_row_wins "data/keys.csv"
              (Scenario.store_with Scenario.twice_text [("57", 4); ("1", 9)])
              Scenario.twice_text eq_refl eq_refl) as (_ & _ & Hlast).
  exact (Hlast [["30"; "5"]; ["57"; "1"]] ["30"; "8"] [] 8
           eq_refl eq_refl eq_refl).
Defined.

(** X10. A two-field row whose second field is not an integer ends the load
    with a [ValueError] at that row: the rows before it have been assigned,
    the rows after it are not looked at, and since nothing catches the error
    the process ends at startup with exit status 1, before any device is
    opened and without printing anything.  A header line such as
    "key,count" is such a row. *)
Theorem load_stops_at_non_integer_count (csv_file : string) (st : state)
  (data : string) (before after : list (list string)) (bad : list string) :
  os.read_text (files st) csv_file = Ok data ->
  List.filter two_fields
    (fst (csv.reader (io.readlines (io.universal_newlines data))))
  = before ++ bad :: after ->
  forallb integer_field before = true ->
  integer_field bad = false ->
  let st' := set_key_counter st (fold_left assign before (key_counter st)) in
  load_existing_data csv_file st = (Raised ValueError, st')
  /\ forall env, script env csv_file st = (Some 1, st').
Proof.
  intros Hread Hkept Hbefore Hbad st'.
  assert (forallb two_fields (before ++ bad :: after) = true) as Htwo
      by (rewrite <- Hkept; apply forallb_filter_same).
  rewrite forallb_app in Htwo. apply andb_true_iff in Htwo as [Htwo Htwo'].
  simpl in Htwo'. apply andb_true_iff in Htwo' as [Hbad2 _].
  assert (load_existing_data csv_file st = (Raised ValueError, st')) as Hload.
  { rewrite (load_existing_data_rows _ _ _ Hread), load_rows_filter, Hkept.
    rewrite (load_rows_app before _ _ _ (load_rows_integers _ _ Htwo Hbefore)).
    simpl. unfold two_fields in Hbad2. rewrite Hbad2.
    unfold integer_field in Hbad.
    destruct (Py.int (nth 1 bad EmptyString)); [discriminate | reflexivity]. }
  split; [exact Hload |].
  intros env. unfold script, main. now rewrite Hload.
Qed.

Lemma load_stops_at_non_integer_count_witness :
  os.read_text (files (Scenario.store_with Scenario.header_text []))
    "data/keys.csv"
  = Ok Scenario.header_text
  /\ Py.int "count" = None
  /\ Py.int "１２" = Some 12
  /\ script Sample.typing "data/keys.csv"
       (Scenario.store_with Scenario.header_text [])
     = (Some 1, Scenario.store_with Scenario.header_text []).
Proof.
  split; [reflexivity | split; [reflexivity | split; [reflexivity |]]].
  destruct (load_stops_at_non_integer_count "data/keys.csv"
              (Scenario.store_with Scenario.header_text [])
              Scenario.header_text [] [["30"; "5"]] ["key"; "count"]
              eq_refl eq_refl eq_refl eq_refl) as [_ H].
  exact (H Sample.typing).
Defined.

(** ** An interrupt with a bare file name *)

(** X11. When the path given on the command line has no directory part and
    the process is interrupted, the save in the handler raises: the first
    message is printed, the second is not, nothing is written, and the
    process ends with exit status 1; the counts of the run are lost. *)
Theorem interrupt_with_bare_file_name_saves_nothing (env : environment)
  (csv_file : string) (st st1 : state) :
  main env csv_file st = (Raised KeyboardInterrupt, st1) ->
  os.path.dirname csv_file = EmptyString ->
  script env csv_file st
  = (Some 1, print "Keyboard Interrupt detected. Saving data..." st1)
  /\ files (snd (script env csv_file st)) = files st1.
Proof.
  intros Hmain Hbare.
  assert (script env csv_file st
          = (Some 1, print "Keyboard Interrupt detected. Saving data..." st1))
    as Hscript.
  { unfold script, save_data. rewrite Hmain, (dirname_bare _ Hbare). reflexivity. }
  split; [exact Hscript | now rewrite Hscript].
Qed.

Lemma interrupt_with_bare_file_name_saves_nothing_witness :
  fst (main Scenario.session "keys.csv" Sample.fresh) = Raised KeyboardInterrupt
  /\ os.path.dirname "keys.csv" = EmptyString
  /\ fst (script Scenario.session "keys.csv" Sample.fresh) = Some 1
  /\ key_counter (snd (script Scenario.session "keys.csv" Sample.fresh))
     = [("KEY_A", 2); ("KEY_MIN_INTERESTING", 1); ("KEY_MUTE", 1)]
  /\ os.path_exists (files (snd (script Scenario.session "keys.csv" Sample.fresh)))
       "keys.csv"
     = false.
Proof.
  destruct (interrupt_with_bare_file_name_saves_nothing Scenario.session
              "keys.csv" Sample.fresh
              (snd (main Scenario.session "keys.csv" Sample.fresh))
              eq_refl eq_refl) as [Hscript _].
  split; [reflexivity | split; [reflexivity |]].
  rewrite Hscript. repeat split.
Defined.

(** * gen_passwd.py *)

Lemma length_characters : String.length gen_passwd.characters = 94%nat.
Proof. reflexivity. Qed.

Lemma get_printable (s : string) (i : nat) (c : ascii) :
  gen_passwd.all_printable s = true ->
  String.get i s = Some c -> gen_passwd.printable c = true.
Proof.
  revert i. induction s as [|c' s IH]; intros i Hall Hget; [discriminate |].
  simpl in Hall. apply andb_true_iff in Hall as [Hc Hs].
  destruct i as [|i]; simpl in Hget.
  - now injection Hget as <-.
  - now apply (IH i).
Qed.

Lemma get_in_range (s : string) (i : nat) :
  (i < String.length s)%nat -> exists c, String.get i s = Some c.
Proof.
  revert i. induction s as [|c s IH]; intros i Hi; simpl in Hi; [lia |].
  destruct i as [|i]; simpl; [eauto |]. apply IH. lia.
Qed.

Lemma position_get (c : ascii) (s : string) (i : nat) :
  gen_passwd.position c s = Some i ->
  String.get i s = Some c /\ (i < String.length s)%nat.
Proof.
  revert i. induction s as [|c' s IH]; intros i H; [discriminate |].
  simpl in H. destruct (Ascii.eqb_spec c' c) as [->|Hne].
  - injection H as <-. simpl. split; [reflexivity | lia].
  - destruct (gen_passwd.position c s) as [j |]; [| discriminate].
    injection H as <-. destruct (IH j eq_refl) as [Hget Hlt].
    simpl. split; [exact Hget | lia].
Qed.

(** Every printable character has a place in the alphabet. *)
Lemma printable_position (c : ascii) :
  gen_passwd.printable c = true ->
  exists i, gen_passwd.position c gen_passwd.characters = Some i.
Proof.
  destruct c as [[] [] [] [] [] [] [] []]; intros H;
    try discriminate H; vm_compute; eauto.
Qed.

Lemma join_choices_in_range (rand : nat -> nat) (n start : nat) :
  (forall i, (rand i < 94)%nat) ->
  exists p,
    gen_passwd.join_choices rand start n = Some p
    /\ String.length p = n
    /\ gen_passwd.all_printable p = true.
Proof.
  intros Hrand. revert start. induction n as [|n IH]; intros start;
    cbn [gen_passwd.join_choices gen_passwd.choice].
  - now exists EmptyString.
  - destruct (get_in_range gen_passwd.characters (rand start)) as [c Hc].
    { rewrite length_characters. apply Hrand. }
    unfold gen_passwd.choice at 1. rewrite Hc.
    destruct (IH (S start)) as (p & -> & Hlen & Hall).
    exists (String c p). simpl. rewrite Hlen, Hall, andb_true_r.
    repeat split. now apply (get_printable gen_passwd.characters (rand start)).
Qed.

(** X12. With draws in the range of the alphabet, [generate_password] returns
    a password of exactly [length] characters, none for a length below 1,
    and every character of it prints and is not a space (codes 33 to 126). *)
Theorem generate_password_length_and_alphabet (rand : nat -> nat) (length : Z) :
  (forall i, (rand i < String.length gen_passwd.characters)%nat) ->
  exists password,
    gen_passwd.generate_password rand length = Some password
    /\ Z.of_nat (String.length password) = Z.max 0 length
    /\ gen_passwd.all_printable password = true.
Proof.
  intros Hrand. unfold gen_passwd.generate_password.
  destruct (join_choices_in_range rand (Z.to_nat length) 0 Hrand)
    as (p & Hp & Hlen & Hall).
  exists p. rewrite Hlen. repeat split; [exact Hp | lia | exact Hall].
Qed.

Lemma generate_password_length_and_alphabet_witness :
  gen_passwd.generate_password (fun i => (7 * i + 3) mod 94)%nat 12
  = Some "dkryFMT07%,="
  /\ gen_passwd.generate_password (fun i => (7 * i + 3) mod 94)%nat (-4)
     = Some EmptyString.
Proof.
  assert (forall i,
             ((fun i => (7 * i + 3) mod 94) i
              < String.length gen_passwd.characters)%nat) as Hrand.
  { intros i. rewrite length_characters. apply Nat.mod_upper_bound. lia. }
  destruct (generate_password_length_and_alphabet _ 12 Hrand)
    as (p & Hp & _).
  split; reflexivity.
Defined.

Lemma draws_for_in_range (s : string) (i : nat) :
  (gen_passwd.draws_for s i < 94)%nat.
Proof.
  revert i. induction s as [|c s IH]; intros i;
    cbn [gen_passwd.draws_for]; [lia |].
  destruct i as [|i]; [| apply IH].
  destruct (gen_passwd.position c gen_passwd.characters) as [j |] eqn:Hj;
    [| lia].
  apply position_get in Hj as [_ Hlt]. now rewrite length_characters in Hlt.
Qed.

Lemma join_choices_ext (rand rand' : nat -> nat) (n start start' : nat) :
  (forall i, (i < n)%nat -> rand (start + i)%nat = rand' (start' + i)%nat) ->
  gen_passwd.join_choices rand start n = gen_passwd.join_choices rand' start' n.
Proof.
  revert start start'. induction n as [|n IH]; intros start start' H;
    cbn [gen_passwd.join_choices]; [reflexivity |].
  pose proof (H 0%nat ltac:(lia)) as H0. rewrite !Nat.add_0_r in H0.
  rewrite H0, (IH (S start) (S start')); [reflexivity |].
  intros i Hi. specialize (H (S i) ltac:(lia)).
  now rewrite !Nat.add_succ_r in H.
Qed.

Lemma join_choices_draws_for (s : string) :
  gen_passwd.all_printable s = true ->
  gen_passwd.join_choices (gen_passwd.draws_for s) 0 (String.length s) = Some s.
Proof.
  induction s as [|c s IH]; intros Hall; [reflexivity |].
  simpl in Hall. apply andb_true_iff in Hall as [Hc Hs].
  cbn [String.length gen_passwd.join_choices]. unfold gen_passwd.choice at 1.
  destruct (printable_position c Hc) as [j Hj].
  cbn [gen_passwd.draws_for]. rewrite Hj.
  destruct (position_get _ _ _ Hj) as [-> _].
  rewrite (join_choices_ext _ (gen_passwd.draws_for s) _ 1 0), (IH Hs);
    [reflexivity |].
  intros i _. reflexivity.
Qed.

(** X13. The alphabet leaves nothing out and repeats nothing: it has each of
    the 94 printing characters other than the space once, and every string
    of such characters is the password for some draws of the random source. *)
Theorem every_printable_password_can_be_drawn (password : string) :
  gen_passwd.all_printable password = true ->
  (exists rand,
      (forall i, (rand i < String.length gen_passwd.characters)%nat)
      /\ gen_passwd.generate_password rand (Z.of_nat (String.length password))
         = Some password)
  /\ NoDup (list_ascii_of_string gen_passwd.characters)
  /\ gen_passwd.all_printable gen_passwd.characters = true.
Proof.
  intros Hall. split; [| split; [| reflexivity]].
  - exists (gen_passwd.draws_for password). split.
    + intros i. rewrite length_characters. apply draws_for_in_range.
    + unfold gen_passwd.generate_password. rewrite Nat2Z.id.
      now apply join_choices_draws_for.
  - apply (bool_decide_unpack _). vm_compute. exact I.
Qed.

Lemma every_printable_password_can_be_drawn_witness :
  gen_passwd.all_printable "Tr0ub4dor&3" = true
  /\ gen_passwd.generate_password (gen_passwd.draws_for "Tr0ub4dor&3") 11
     = Some "Tr0ub4dor&3".
Proof.
  destruct (every_printable_password_can_be_drawn "Tr0ub4dor&3" eq_refl)
    as [_ _].
  split; reflexivity.
Defined.

(** X14. The script: a line that is not an integer ends the process with a
    [ValueError] (exit status 1) after the prompt and before any password is
    made; an integer line, with draws in range, prints the label, one space
    and a password of that many characters, none when the number is below 1,
    and ends with exit status 0. *)
Theorem gen_passwd_script_outcomes (rand : nat -> nat) (line : string) :
  (forall i, (rand i < String.length gen_passwd.characters)%nat) ->
  match Py.int line with
  | None => gen_passwd.script rand line = (Some 1, ["请输入密码长度: "])
  | Some n =>
      exists password,
        gen_passwd.script rand line
        = (Some 0, ["请输入密码长度: "; "生成的密码: " +:+ password])
        /\ Z.of_nat (String.length password) = Z.max 0 n
        /\ gen_passwd.all_printable password = true
  end.
Proof.
  intros Hrand. unfold gen_passwd.script.
  destruct (Py.int line) as [n |]; [| reflexivity].
  destruct (join_choices_in_range rand (Z.to_nat n) 0) as (p & Hp & Hlen & Hall).
  { intros i. rewrite <- length_characters. apply Hrand. }
  unfold gen_passwd.generate_password. rewrite Hp.
  exists p. rewrite Hlen. repeat split; [lia | exact Hall].
Qed.

Lemma gen_passwd_script_outcomes_witness :
  gen_passwd.script (fun i => (7 * i + 3) mod 94)%nat " 5 "
  = (Some 0, ["请输入密码长度: "; "生成的密码: dkryF"])
  /\ gen_passwd.script (fun i => (7 * i + 3) mod 94)%nat "５"
     = (Some 0, ["请输入密码长度: "; "生成的密码: dkryF"])
  /\ gen_passwd.script (fun i => (7 * i + 3) mod 94)%nat "five"
     = (Some 1, ["请输入密码长度: "]).
Proof.
  assert (forall i,
             ((fun i => (7 * i + 3) mod 94) i
              < String.length gen_passwd.characters)%nat) as Hrand.
  { intros i. rewrite length_characters. apply Nat.mod_upper_bound. lia. }
  pose proof (gen_passwd_script_outcomes _ "five" Hrand) as H.
  split; [reflexivity | split; [reflexivity | exact H]].
Defined.

(** * print_file_contents.py *)

(** ** Strings *)

Lemma substring_prefix (a b : string) :
  String.substring 0 (String.length a) (a +:+ b) = a.
Proof.
  induction a as [|c a IH].
  - rewrite append_nil_l. now destruct b.
  - rewrite append_cons. simpl. now rewrite IH.
Qed.

Lemma substring_all (s : string) :
  String.substring 0 (String.length s) s = s.
Proof. rewrite <- (append_nil_r s) at 2. apply substring_prefix. Qed.

Lemma substring_suffix (a b : string) :
  String.substring (String.length a) (String.length b) (a +:+ b) = b.
Proof.
  induction a as [|c a IH].
  - rewrite append_nil_l. apply substring_all.
  - rewrite append_cons. simpl. exact IH.
Qed.

Lemma slice_prefix (a b : string) :
  print_file_contents.slice (a +:+ b) 0 (Z.of_nat (String.length a)) = a.
Proof.
  unfold print_file_contents.slice. rewrite Nat2Z.id. simpl Z.to_nat.
  rewrite Nat.sub_0_r. apply substring_prefix.
Qed.

Lemma slice_suffix (a b : string) :
  print_file_contents.slice (a +:+ b) (Z.of_nat (String.length a))
    (Z.of_nat (String.length (a +:+ b))) = b.
Proof.
  unfold print_file_contents.slice. rewrite !Nat2Z.id, length_append.
  replace (String.length a + String.length b - String.length a)%nat
    with (String.length b) by lia.
  apply substring_suffix.
Qed.

Lemma slice_empty (s : string) (i : Z) :
  print_file_contents.slice s i i = EmptyString.
Proof.
  unfold print_file_contents.slice. rewrite Nat.sub_diag.
  generalize (Z.to_nat i). induction s as [|c s IH]; intros [|n]; simpl; auto.
Qed.

(** ** [rfind] *)

Lemma rfind_from_absent (c : ascii) (s : string) (i found : Z) :
  print_file_contents.has_char c s = false ->
  print_file_contents.rfind_from c s i found = found.
Proof.
  revert i found. induction s as [|x s IH]; intros i found H; [reflexivity |].
  simpl in H. apply orb_false_iff in H as [Hx Hs].
  simpl. rewrite Hx. now apply IH.
Qed.

Lemma rfind_from_last (c : ascii) (a b : string) (i found : Z) :
  print_file_contents.has_char c b = false ->
  print_file_contents.rfind_from c (a +:+ String c b) i found
  = i + Z.of_nat (String.length a).
Proof.
  intros Hb. revert i found. induction a as [|x a IH]; intros i found.
  - rewrite append_nil_l. simpl. rewrite Ascii.eqb_refl.
    rewrite rfind_from_absent by exact Hb. lia.
  - rewrite append_cons. simpl. rewrite IH. lia.
Qed.

Lemma rfind_absent (c : ascii) (s : string) :
  print_file_contents.has_char c s = false -> print_file_contents.rfind c s = -1.
Proof. apply rfind_from_absent. Qed.

Lemma rfind_last (c : ascii) (a b : string) :
  print_file_contents.has_char c b = false ->
  print_file_contents.rfind c (a +:+ String c b) = Z.of_nat (String.length a).
Proof. intros Hb. unfold print_file_contents.rfind. now rewrite rfind_from_last. Qed.

Lemma has_char_split (c : ascii) (s : string) :
  print_file_contents.has_char c s = true ->
  exists a b, s = a +:+ String c b /\ print_file_contents.has_char c b = false.
Proof.
  induction s as [|x s IH]; [discriminate |]. intros H.
  destruct (print_file_contents.has_char c s) eqn:Hs.
  - destruct (IH eq_refl) as (a & b & -> & Hb).
    exists (String x a), b. now rewrite append_cons.
  - simpl in H. rewrite Hs, orb_false_r in H. apply Ascii.eqb_eq in H as ->.
    exists EmptyString, s. now rewrite append_nil_l.
Qed.

Lemma rfind_lower_bound (c : ascii) (s : string) : -1 <= print_file_contents.rfind c s.
Proof.
  destruct (print_file_contents.has_char c s) eqn:H.
  - destruct (has_char_split _ _ H) as (a & b & -> & Hb).
    rewrite rfind_last by exact Hb. lia.
  - rewrite rfind_absent by exact H. lia.
Qed.

(** ** [splitext] and [get_file_extension] *)

Lemma splitext_cases (p : string) :
  (print_file_contents.splitext p = (p, EmptyString))
  \/ exists a b,
       p = a +:+ String print_file_contents.dot b
       /\ print_file_contents.has_char print_file_contents.dot b = false
       /\ print_file_contents.rfind Py.slash p < Z.of_nat (String.length a)
       /\ print_file_contents.splitext p = (a, String print_file_contents.dot b).
Proof.
  unfold print_file_contents.splitext.
  destruct (print_file_contents.has_char print_file_contents.dot p) eqn:Hdot.
  - destruct (has_char_split _ _ Hdot) as (a & b & -> & Hb).
    cbv zeta. rewrite (rfind_last _ a b Hb).
    match goal with |- context [if ?c then _ else _] => destruct c eqn:Hc end;
      [| now left].
    right. exists a, b. apply andb_true_iff in Hc as [Hlt _].
    apply Z.ltb_lt in Hlt. repeat split; try assumption.
    now rewrite slice_prefix, slice_suffix.
  - rewrite (rfind_absent _ _ Hdot).
    pose proof (rfind_lower_bound Py.slash p) as Hlow.
    destruct (print_file_contents.rfind Py.slash p <? -1) eqn:Hlt;
      [apply Z.ltb_lt in Hlt; lia | now left].
Qed.

Lemma has_char_append (c : ascii) (a b : string) :
  print_file_contents.has_char c (a +:+ b)
  = print_file_contents.has_char c a || print_file_contents.has_char c b.
Proof.
  induction a as [|x a IH]; [reflexivity |].
  rewrite append_cons. simpl. now rewrite IH, orb_assoc.
Qed.

Lemma rfind_append_absent (c : ascii) (a b : string) :
  print_file_contents.has_char c b = false ->
  print_file_contents.rfind c (a +:+ b) = print_file_contents.rfind c a
  /\ print_file_contents.rfind c a < Z.of_nat (String.length a).
Proof.
  intros Hb. destruct (print_file_contents.has_char c a) eqn:Ha.
  - destruct (has_char_split _ _ Ha) as (a1 & a2 & -> & Ha2).
    rewrite append_assoc, append_cons, !rfind_last, length_append;
      [simpl; lia | exact Ha2 | now rewrite has_char_append, Ha2, Hb].
  - rewrite !rfind_absent; [lia | exact Ha | now rewrite has_char_append, Ha, Hb].
Qed.

Lemma substring_middle (a b c : string) :
  String.substring (String.length a) (String.length b) (a +:+ b +:+ c) = b.
Proof.
  induction a as [|x a IH].
  - rewrite append_nil_l. apply substring_prefix.
  - rewrite append_cons. simpl. exact IH.
Qed.

Lemma slice_middle (a b c : string) :
  print_file_contents.slice (a +:+ b +:+ c) (Z.of_nat (String.length a))
    (Z.of_nat (String.length a) + Z.of_nat (String.length b)) = b.
Proof.
  unfold print_file_contents.slice.
  rewrite <- Nat2Z.inj_add, !Nat2Z.id.
  replace (String.length a + String.length b - String.length a)%nat
    with (String.length b) by lia.
  apply substring_middle.
Qed.

(** X15. [get_file_extension] returns what follows the last dot of the
    file name.  For a path made of a directory part (empty, or ending in a
    slash), a stem without a slash that is not made of dots only, a dot, and
    a last part without dot or slash, the result is that last part: gz for
    [src/a.tar.gz].  For every path the result holds neither a dot nor a
    slash, and when it is not empty the path ends with a dot followed by it;
    [os.path.splitext] always cuts the path in two. *)
Theorem get_file_extension_is_last_suffix :
  (forall head stem ext : string,
      head = EmptyString \/ (exists h, head = h +:+ "/") ->
      print_file_contents.has_char Py.slash stem = false ->
      print_file_contents.all_dots stem = false ->
      print_file_contents.has_char print_file_contents.dot ext = false ->
      print_file_contents.has_char Py.slash ext = false ->
      print_file_contents.get_file_extension (head +:+ stem +:+ "." +:+ ext)
      = ext)
  /\ print_file_contents.get_file_extension "src/a.tar.gz" = "gz"
  /\ (forall file_path : string,
         let ext := print_file_contents.get_file_extension file_path in
         print_file_contents.has_char print_file_contents.dot ext = false
         /\ print_file_contents.has_char Py.slash ext = false
         /\ fst (print_file_contents.splitext file_path)
            +:+ snd (print_file_contents.splitext file_path) = file_path
         /\ (ext = EmptyString
             \/ exists root, file_path = root +:+ "." +:+ ext)).
Proof.
  split; [| split; [reflexivity |]].
  - intros head stem ext Hhead Hstem Hdots Hdot Hslash.
    assert (print_file_contents.rfind print_file_contents.dot
              (head +:+ stem +:+ "." +:+ ext)
            = Z.of_nat (String.length head) + Z.of_nat (String.length stem))
      as Hd.
    { rewrite <- append_assoc.
      change ("." +:+ ext) with (String print_file_contents.dot ext).
      rewrite rfind_last by exact Hdot. rewrite length_append. lia. }
    assert (print_file_contents.rfind Py.slash (head +:+ stem +:+ "." +:+ ext)
            = Z.of_nat (String.length head) - 1) as Hs.
    { assert (print_file_contents.has_char Py.slash (stem +:+ "." +:+ ext)
              = false) as Hno.
      { rewrite !has_char_append, Hstem, Hslash. reflexivity. }
      destruct Hhead as [-> | [h ->]].
      - rewrite append_nil_l. now apply rfind_absent.
      - rewrite (append_assoc h "/"), append_cons, append_nil_l.
        rewrite rfind_last by exact Hno.
        rewrite length_append. simpl. lia. }
    unfold print_file_contents.get_file_extension, print_file_contents.splitext.
    cbv zeta. rewrite Hd, Hs.
    replace (Z.of_nat (String.length head) - 1 + 1)
      with (Z.of_nat (String.length head)) by lia.
    rewrite slice_middle, Hdots.
    destruct (_ <? _) eqn:Hcmp; [| apply Z.ltb_ge in Hcmp; lia].
    cbn [andb negb snd].
    rewrite <- Nat2Z.inj_add, <- length_append.
    rewrite <- (append_assoc head stem). rewrite slice_suffix. reflexivity.
  - intros file_path. cbv zeta.
    unfold print_file_contents.get_file_extension.
    destruct (splitext_cases file_path)
      as [-> | (a & b & Hp & Hdot & Hsep & ->)].
    + simpl. rewrite append_nil_r. repeat split. now left.
    + simpl. repeat split; [exact Hdot | | now symmetry | right; now exists a].
      destruct (print_file_contents.has_char Py.slash b) eqn:Hb; [| reflexivity].
      destruct (has_char_split _ _ Hb) as (b1 & b2 & -> & Hb2).
      rewrite Hp, <- append_cons, <- append_assoc, rfind_last in Hsep
        by exact Hb2.
      rewrite length_append in Hsep. lia.
Qed.

(** X16. A file name with no dot after its first character has no
    extension: a name without a dot, and a hidden file such as
    [.gitignore], get the opening fence without a language. *)
Theorem name_without_inner_dot_has_no_extension (head name : string) :
  head = EmptyString \/ (exists h, head = h +:+ "/") ->
  print_file_contents.has_char Py.slash name = false ->
  print_file_contents.has_char print_file_contents.dot
    (print_file_contents.tail name) = false ->
  print_file_contents.get_file_extension (head +:+ name) = EmptyString.
Proof.
  intros Hhead Hslash Hdot.
  assert (print_file_contents.rfind Py.slash (head +:+ name)
          = Z.of_nat (String.length head) - 1) as Hsep.
  { destruct Hhead as [-> | [h ->]].
    - rewrite append_nil_l. now apply rfind_absent.
    - rewrite append_assoc, append_cons, append_nil_l, rfind_last by exact Hslash.
      rewrite length_append. simpl. lia. }
  unfold print_file_contents.get_file_extension, print_file_contents.splitext.
  cbv zeta. rewrite Hsep.
  destruct name as [|c name]; [| destruct (Ascii.eqb c print_file_contents.dot) eqn:Hc].
  - rewrite append_nil_r.
    destruct (rfind_append_absent print_file_contents.dot head EmptyString eq_refl)
      as [_ Hlt].
    destruct Hhead as [-> | [h ->]]; [reflexivity |].
    destruct (rfind_append_absent print_file_contents.dot h "/" eq_refl)
      as [Heq Hlt']. rewrite Heq. rewrite length_append. simpl String.length.
    destruct (_ <? _) eqn:Hcmp; [apply Z.ltb_lt in Hcmp; lia | reflexivity].
  - apply Ascii.eqb_eq in Hc as ->. simpl in Hdot.
    rewrite (rfind_last _ head name Hdot).
    replace (Z.of_nat (String.length head) - 1 + 1)
      with (Z.of_nat (String.length head)) by lia.
    rewrite slice_empty. simpl. now rewrite andb_false_r.
  - assert (print_file_contents.has_char print_file_contents.dot (String c name)
            = false) as Hno.
    { simpl. simpl in Hdot. now rewrite Hc, Hdot. }
    destruct Hhead as [-> | [h ->]].
    + rewrite append_nil_l, (rfind_absent _ _ Hno). reflexivity.
    + rewrite append_assoc.
      destruct (rfind_append_absent print_file_contents.dot h
                  ("/" +:+ String c name)) as [Heq Hlt].
      { rewrite append_cons, append_nil_l. simpl. simpl in Hno. exact Hno. }
      rewrite Heq, <- append_assoc, length_append. simpl String.length.
      destruct (_ <? _) eqn:Hcmp; [apply Z.ltb_lt in Hcmp; lia | reflexivity].
Qed.

Lemma name_without_inner_dot_has_no_extension_witness :
  print_file_contents.get_file_extension "src/.gitignore" = EmptyString
  /\ print_file_contents.get_file_extension "Makefile" = EmptyString.
Proof.
  split.
  - apply (name_without_inner_dot_has_no_extension "src/" ".gitignore");
      [right; now exists "src" | reflexivity | reflexivity].
  - apply (name_without_inner_dot_has_no_extension "" "Makefile");
      [now left | reflexivity | reflexivity].
Defined.

(** ** [should_exclude] *)

Lemma to_slashes_append (a b : string) :
  print_file_contents.to_slashes (a +:+ b)
  = print_file_contents.to_slashes a +:+ print_file_contents.to_slashes b.
Proof.
  induction a as [|c a IH]; [reflexivity |].
  rewrite append_cons. simpl. now rewrite IH, append_cons.
Qed.

Lemma endswith_append (a s : string) :
  print_file_contents.endswith (a +:+ s) s = true.
Proof.
  induction a as [|c a IH].
  - rewrite append_nil_l.
    destruct s; cbn [print_file_contents.endswith]; now rewrite String.eqb_refl.
  - rewrite append_cons. simpl. rewrite IH. apply orb_true_r.
Qed.

Lemma drop_last3_append (a : string) :
  print_file_contents.drop_last3 (a +:+ "/**") = a.
Proof.
  unfold print_file_contents.drop_last3. rewrite length_append. simpl String.length.
  replace (String.length a + 3 - 3)%nat with (String.length a) by lia.
  apply substring_prefix.
Qed.

Lemma should_exclude_existsb (fnmatch : string -> string -> bool)
  (relpath : string -> string -> string) (patterns : list string)
  (abs_directory path : string) :
  print_file_contents.should_exclude fnmatch relpath (Some patterns)
    abs_directory path
  = existsb (print_file_contents.pattern_excludes fnmatch
               (relpath path abs_directory) path) patterns.
Proof. now destruct patterns. Qed.

Lemma pattern_excludes_slashes (fnmatch : string -> string -> bool)
  (rel_path path p q : string) :
  print_file_contents.to_slashes q = print_file_contents.to_slashes p ->
  print_file_contents.pattern_excludes fnmatch rel_path path q
  = print_file_contents.pattern_excludes fnmatch rel_path path p.
Proof. intros H. unfold print_file_contents.pattern_excludes. now rewrite H. Qed.

(** X17. A pattern that ends with a slash and two stars excludes every path
    whose relative path starts with the text before that ending, whether or
    not the path lies in the directory of that name: a sibling whose name
    only starts with the directory's name is excluded too. *)
Theorem directory_pattern_excludes_by_prefix
  (fnmatch : string -> string -> bool) (relpath : string -> string -> string)
  (patterns : list string) (abs_directory path prefix : string) :
  In (prefix +:+ "/**") patterns ->
  Py.startswith
    (print_file_contents.to_slashes (relpath path abs_directory))
    (print_file_contents.to_slashes prefix) = true ->
  print_file_contents.should_exclude fnmatch relpath (Some patterns)
    abs_directory path = true.
Proof.
  intros Hin Hstart. rewrite should_exclude_existsb.
  apply existsb_exists. exists (prefix +:+ "/**"). split; [exact Hin |].
  unfold print_file_contents.pattern_excludes.
  rewrite to_slashes_append.
  change (print_file_contents.to_slashes "/**") with "/**".
  now rewrite endswith_append, drop_last3_append, Hstart.
Qed.

Lemma directory_pattern_excludes_by_prefix_witness :
  print_file_contents.should_exclude print_file_contents.literal_match
    print_file_contents.strip_prefix (Some ["notes.txt"; "target/**"])
    "/repo" "/repo/targets/x.rs" = true.
Proof.
  apply (directory_pattern_excludes_by_prefix _ _ _ _ _ "target");
    [right; now left | reflexivity].
Defined.

(** X18. The verdict of [should_exclude] depends on the patterns only as a
    set, and on each pattern only up to the direction of its slashes: a path
    that one list excludes is excluded by every list that holds, for each
    pattern of the first, a pattern equal to it once backslashes are read as
    slashes.  So adding patterns, reordering them or writing them with
    backslashes never brings an excluded path back. *)
Theorem should_exclude_grows_with_patterns
  (fnmatch : string -> string -> bool) (relpath : string -> string -> string)
  (patterns patterns' : list string) (abs_directory path : string) :
  (forall p, In p patterns ->
     exists q, In q patterns'
               /\ print_file_contents.to_slashes q
                  = print_file_contents.to_slashes p) ->
  print_file_contents.should_exclude fnmatch relpath (Some patterns)
    abs_directory path = true ->
  print_file_contents.should_exclude fnmatch relpath (Some patterns')
    abs_directory path = true.
Proof.
  intros Hsub. rewrite !should_exclude_existsb, !existsb_exists.
  intros (p & Hp & Hex). destruct (Hsub p Hp) as (q & Hq & Heq).
  exists q. split; [exact Hq |].
  now rewrite (pattern_excludes_slashes _ _ _ p q Heq).
Qed.

Lemma should_exclude_grows_with_patterns_witness :
  print_file_contents.should_exclude print_file_contents.literal_match
    print_file_contents.strip_prefix (Some ["notes.txt"; "build/**"])
    "/repo" "/repo/build/a.o" = true.
Proof.
  apply (should_exclude_grows_with_patterns _ _ ["build\**"]).
  - intros p [<- | []]. exists "build/**". split; [right; now left | reflexivity].
  - reflexivity.
Defined.

(** ** The content between the fences *)

Lemma is_linebreak_isspace (c : Z) :
  print_file_contents.is_linebreak c = true -> print_file_contents.isspace c = true.
Proof.
  unfold print_file_contents.is_linebreak, print_file_contents.isspace.
  rewrite !orb_true_iff, !andb_true_iff, !Z.leb_le, !Z.eqb_eq. lia.
Qed.

Lemma splitlines_rel (Q : print_file_contents.text ->
                          list print_file_contents.text -> Prop) :
  Q [] [] ->
  (forall c s ls,
     print_file_contents.is_linebreak c = true -> Q s ls ->
     Q (c :: s) ([] :: ls)) ->
  (forall s ls,
     Q s ls ->
     Q (print_file_contents.CR :: print_file_contents.LF :: s) ([] :: ls)) ->
  (forall c s ls,
     print_file_contents.is_linebreak c = false -> Q s ls ->
     Q (c :: s) match ls with
                | [] => [[c]]
                | line :: lines => (c :: line) :: lines
                end) ->
  forall s, Q s (print_file_contents.splitlines s).
Proof.
  intros Hnil Hbreak Hcrlf Hchar s.
  assert (forall n s, (List.length s <= n)%nat ->
                      Q s (print_file_contents.splitlines s)) as H.
  { clear s. induction n as [|n IH]; intros s Hlen.
    - destruct s; [exact Hnil | simpl in Hlen; lia].
    - destruct s as [|c s]; [exact Hnil |]. simpl in Hlen.
      cbn [print_file_contents.splitlines].
      destruct (print_file_contents.is_linebreak c) eqn:Hc.
      + destruct s as [|d s].
        * apply (Hbreak c [] [] Hc Hnil).
        * destruct ((c =? print_file_contents.CR)
                    && (d =? print_file_contents.LF)) eqn:Hcr.
          -- apply andb_true_iff in Hcr as [->%Z.eqb_eq ->%Z.eqb_eq].
             apply Hcrlf, IH. simpl in Hlen. lia.
          -- apply (Hbreak c (d :: s) _ Hc), IH. lia.
      + apply (Hchar c s _ Hc), IH. lia. }
  apply (H (List.length s)). lia.
Qed.

Lemma visible_app (a b : print_file_contents.text) :
  print_file_contents.visible (a ++ b)
  = print_file_contents.visible a ++ print_file_contents.visible b.
Proof. apply List.filter_app. Qed.

Lemma visible_space (c : Z) (s : print_file_contents.text) :
  print_file_contents.isspace c = true ->
  print_file_contents.visible (c :: s) = print_file_contents.visible s.
Proof. intros H. unfold print_file_contents.visible. simpl. now rewrite H. Qed.

Lemma visible_char (c : Z) (s : print_file_contents.text) :
  print_file_contents.isspace c = false ->
  print_file_contents.visible (c :: s) = c :: print_file_contents.visible s.
Proof. intros H. unfold print_file_contents.visible. simpl. now rewrite H. Qed.

Lemma visible_splitlines (s : print_file_contents.text) :
  print_file_contents.visible (concat (print_file_contents.splitlines s))
  = print_file_contents.visible s.
Proof.
  apply (splitlines_rel (fun s ls =>
           print_file_contents.visible (concat ls)
           = print_file_contents.visible s)).
  - reflexivity.
  - intros c t ls Hc IH. simpl concat.
    now rewrite IH, (visible_space c) by now apply is_linebreak_isspace.
  - intros t ls IH. simpl concat. now rewrite IH, !visible_space.
  - intros c t ls Hc IH. cbv beta in *.
    assert (print_file_contents.visible (c :: concat ls)
            = print_file_contents.visible (c :: t)) as H.
    { unfold print_file_contents.visible in *. simpl. now rewrite IH. }
    now destruct ls.
Qed.

Lemma visible_rstrip (l : print_file_contents.text) :
  print_file_contents.visible (print_file_contents.rstrip l)
  = print_file_contents.visible l.
Proof.
  induction l as [|c l IH]; [reflexivity |].
  cbn [print_file_contents.rstrip].
  destruct (print_file_contents.rstrip l) as [|y r].
  - destruct (print_file_contents.isspace c) eqn:Hc.
    + now rewrite visible_space.
    + rewrite !visible_char by exact Hc. now rewrite <- IH.
  - unfold print_file_contents.visible in *. simpl in *.
    now destruct (negb (print_file_contents.isspace c)); rewrite IH.
Qed.

Lemma visible_join (ls : list print_file_contents.text) :
  print_file_contents.visible
    (print_file_contents.join [print_file_contents.LF] ls)
  = print_file_contents.visible (concat ls).
Proof.
  induction ls as [|l ls IH]; [reflexivity |].
  destruct ls as [|l' ls].
  - simpl. now rewrite app_nil_r.
  - change (print_file_contents.join [print_file_contents.LF] (l :: l' :: ls))
      with (l ++ [print_file_contents.LF]
              ++ print_file_contents.join [print_file_contents.LF] (l' :: ls)).
    change (concat (l :: l' :: ls)) with (l ++ concat (l' :: ls)).
    now rewrite !visible_app, IH.
Qed.

Lemma visible_map_rstrip (ls : list print_file_contents.text) :
  print_file_contents.visible (concat (map print_file_contents.rstrip ls))
  = print_file_contents.visible (concat ls).
Proof.
  induction ls as [|l ls IH]; [reflexivity |].
  cbn [map concat]. now rewrite !visible_app, visible_rstrip, IH.
Qed.

(** X19. Writing the content changes white space only: the characters of
    the file that are not white space are all written between the fences,
    in their order, and no other such character is. *)
Theorem normalized_content_keeps_visible_characters
  (content : print_file_contents.text) :
  print_file_contents.visible (print_file_contents.normalized_content content)
  = print_file_contents.visible content.
Proof.
  unfold print_file_contents.normalized_content.
  now rewrite visible_join, visible_map_rstrip, visible_splitlines.
Qed.

Lemma splitlines_no_linebreak (s : print_file_contents.text) :
  forall line c,
    In line (print_file_contents.splitlines s) -> In c line ->
    print_file_contents.is_linebreak c = false.
Proof.
  apply (splitlines_rel (fun _ ls =>
           forall line c, In line ls -> In c line ->
                          print_file_contents.is_linebreak c = false)).
  - intros line c [].
  - intros _ _ ls _ IH line c [<- | Hin]; [intros [] | now apply IH].
  - intros _ ls IH line c [<- | Hin]; [intros [] | now apply IH].
  - intros x _ ls Hx IH line c. destruct ls as [|l ls].
    + intros [<- | []] [<- | []]. exact Hx.
    + intros [<- | Hin] Hc.
      * destruct Hc as [<- | Hc]; [exact Hx | apply (IH l); [now left | exact Hc]].
      * apply (IH line); [now right | exact Hc].
Qed.

Lemma rstrip_prefix (l : print_file_contents.text) :
  exists rest, l = print_file_contents.rstrip l ++ rest.
Proof.
  induction l as [|c l [rest IH]]; [now exists [] |].
  cbn [print_file_contents.rstrip].
  destruct (print_file_contents.rstrip l) as [|y r].
  - destruct (print_file_contents.isspace c);
      [now exists (c :: l) | exists l; simpl in *; now subst].
  - exists rest. simpl. now rewrite IH at 1.
Qed.

Lemma rstrip_last (l pre : print_file_contents.text) (c : Z) :
  print_file_contents.rstrip l = pre ++ [c] ->
  print_file_contents.isspace c = false.
Proof.
  revert pre. induction l as [|x l IH]; intros pre.
  - now destruct pre.
  - cbn [print_file_contents.rstrip].
    destruct (print_file_contents.rstrip l) as [|y r].
    + destruct (print_file_contents.isspace x) eqn:Hx.
      * now destruct pre.
      * destruct pre as [|p pre]; [now intros [= <-] |].
        intros [= _ H]. now destruct pre.
    + destruct pre as [|p pre]; [discriminate |].
      intros [= _ H]. now apply (IH pre).
Qed.

Lemma app_cons_split {A : Type} (l : list A) (x : A) (r pre : list A) (c : A)
  (post : list A) :
  l ++ x :: r = pre ++ c :: post ->
  (exists m, l = pre ++ c :: m /\ post = m ++ x :: r)
  \/ (pre = l /\ c = x /\ post = r)
  \/ (exists pre', pre = l ++ x :: pre' /\ r = pre' ++ c :: post).
Proof.
  revert pre. induction l as [|a l IH]; intros pre H.
  - destruct pre as [|p pre]; simpl in H.
    + injection H as -> ->. right. now left.
    + injection H as -> ->. right. right. now exists pre.
  - destruct pre as [|p pre]; simpl in H.
    + injection H as -> <-. left. now exists l.
    + injection H as -> H. destruct (IH pre H) as
        [(m & -> & ->) | [(-> & -> & ->) | (pre' & -> & ->)]].
      * left. now exists m.
      * right. now left.
      * right. right. now exists pre'.
Qed.

Lemma trimmed_line_end (l pre : print_file_contents.text) (c : Z)
  (post : print_file_contents.text) :
  print_file_contents.trimmed_line l -> l = pre ++ c :: post ->
  print_file_contents.isspace c = true ->
  post = [] \/ (exists post', post = print_file_contents.LF :: post') -> False.
Proof.
  intros [Hlf Hend] -> Hc [-> | [post' ->]].
  - now rewrite (Hend pre c eq_refl) in Hc.
  - apply Hlf. apply in_or_app. right. right. now left.
Qed.

Lemma join_trimmed (ls : list print_file_contents.text) :
  (forall l, In l ls -> print_file_contents.trimmed_line l) ->
  forall pre c post,
    print_file_contents.ends_line
      (print_file_contents.join [print_file_contents.LF] ls) pre c post ->
    print_file_contents.isspace c = true -> c = print_file_contents.LF.
Proof.
  induction ls as [|l ls IH]; intros Hall pre c post [Heq Hpost] Hc.
  - now destruct pre.
  - destruct ls as [|l' ls].
    + exfalso. apply (trimmed_line_end l pre c post); auto. apply Hall. now left.
    + change (print_file_contents.join [print_file_contents.LF] (l :: l' :: ls))
        with (l ++ print_file_contents.LF
                :: print_file_contents.join [print_file_contents.LF] (l' :: ls))
        in Heq.
      destruct (app_cons_split _ _ _ _ _ _ Heq) as
        [(m & Hl & ->) | [(_ & -> & _) | (pre' & -> & Hr)]].
      * exfalso. apply (trimmed_line_end l pre c m); auto.
        -- apply Hall. now left.
        -- destruct m as [|y m]; [now left | right].
           destruct Hpost as [Hnil | [post' Hp]]; [discriminate |].
           injection Hp as -> _. now exists m.
      * reflexivity.
      * apply (IH (fun x Hx => Hall x (or_intror Hx)) pre' c post); [| exact Hc].
        split; [exact Hr | exact Hpost].
Qed.

Lemma rstrip_trimmed (s : print_file_contents.text) :
  forall l,
    In l (map print_file_contents.rstrip (print_file_contents.splitlines s)) ->
    print_file_contents.trimmed_line l.
Proof.
  intros l Hin. apply in_map_iff in Hin as (line & <- & Hline). split.
  - intros Hlf. destruct (rstrip_prefix line) as [rest Hrest].
    assert (In print_file_contents.LF line) as H.
    { rewrite Hrest. apply in_or_app. now left. }
    now pose proof (splitlines_no_linebreak s line _ Hline H).
  - intros pre c. apply rstrip_last.
Qed.

Lemma join_chars (sep : Z) (ls : list print_file_contents.text) (c : Z) :
  In c (print_file_contents.join [sep] ls) ->
  c = sep \/ exists l, In l ls /\ In c l.
Proof.
  induction ls as [|l ls IH]; [intros [] |].
  destruct ls as [|l' ls].
  - intros H. right. exists l. split; [now left | exact H].
  - change (print_file_contents.join [sep] (l :: l' :: ls))
      with (l ++ sep :: print_file_contents.join [sep] (l' :: ls)).
    intros H. apply in_app_or in H as [H | [<- | H]].
    + right. exists l. split; [now left | exact H].
    + now left.
    + destruct (IH H) as [-> | (x & Hx & Hc)]; [now left | right].
      exists x. split; [now right | exact Hc].
Qed.

(** X20. In the content as written, the line feed is the only line end and
    no line ends in white space: every character at which [str.splitlines]
    would end a line is a line feed, and a white-space character that the
    end of the text or a line feed follows is itself a line feed. *)
Theorem normalized_content_lines_are_trimmed
  (content : print_file_contents.text) :
  (forall c,
     In c (print_file_contents.normalized_content content) ->
     print_file_contents.is_linebreak c = true -> c = print_file_contents.LF)
  /\ (forall pre c post,
        print_file_contents.ends_line
          (print_file_contents.normalized_content content) pre c post ->
        print_file_contents.isspace c = true -> c = print_file_contents.LF).
Proof.
  split.
  - intros c Hin Hc. unfold print_file_contents.normalized_content in Hin.
    destruct (join_chars _ _ _ Hin) as [-> | (l & Hl & Hcl)]; [reflexivity |].
    apply in_map_iff in Hl as (line & <- & Hline).
    destruct (rstrip_prefix line) as [rest Hrest].
    assert (In c line) as H by (rewrite Hrest; apply in_or_app; now left).
    rewrite (splitlines_no_linebreak content line c Hline H) in Hc. discriminate.
  - apply join_trimmed, rstrip_trimmed.
Qed.
